(** * enos: diagnostics, sample framing and scenario decoding

    A shallow embedding of
    - [internal/diagnostics/diagnostics.go] ([FromErr], [FromTFJSON], [FromHCL]),
    - [internal/flightplan/sample.go] ([filterSubsets], [Frame]),
    - the scenario decoder ([DecodeScenarioBlocks], [decodeScenario],
      [decodeScenariosSerial], [decodeScenariosConcurrent]),
    together with the properties the specification states about them.

    Conventions.  A Go [int]/[int64] is a [Z]; where the code computes with
    it the 64-bit wrap-around is written out ([wrap64]).  A Go [string] or
    [[]byte] is a [string] (a sequence of bytes), [len] is [String.length].
    A pointer that the code compares against [nil] or dereferences is an
    [option].  A Go map is a [gmap].  A run-time panic is the [Panics]
    outcome of the [Outcome] monad. *)

From Stdlib Require Import ZArith List Bool Ascii String Lia Sorting.Sorted OrderedTypeEx.
From stdpp Require Import base option list gmap strings pretty.
Import ListNotations.

Local Open Scope Z_scope.

(** ** Outcomes of Go code that may panic *)

Inductive Outcome (A : Type) : Type :=
| Returns (a : A)
| Panics.
Arguments Returns {A} a.
Arguments Panics {A}.

Definition bindO {A B} (o : Outcome A) (k : A -> Outcome B) : Outcome B :=
  match o with
  | Returns a => k a
  | Panics => Panics
  end.

Notation "x <-! c ; k" := (bindO c (fun x => k))
  (at level 20, c at level 100, k at level 200, only parsing).

(** [*p] for a pointer [p]: a nil pointer dereference panics. *)
Definition deref {A} (p : option A) : Outcome A :=
  match p with
  | Some a => Returns a
  | None => Panics
  end.

(** [for _, x := range l { out = append(out, f x) }] where [f] may panic. *)
Fixpoint mapO {A B} (f : A -> Outcome B) (l : list A) : Outcome (list B) :=
  match l with
  | [] => Returns []
  | x :: l' =>
      y <-! f x ;
      ys <-! mapO f l' ;
      Returns (y :: ys)
  end.

(** Go's wrapping 64-bit signed arithmetic. *)
Definition wrap64 (z : Z) : Z := (z + 2 ^ 63) mod 2 ^ 64 - 2 ^ 63.

Definition int64_range (z : Z) : Prop := - 2 ^ 63 <= z < 2 ^ 63.

(** [len(s)] of a Go string. *)
Definition len (s : string) : Z := Z.of_nat (String.length s).

(** ** The protobuf messages of [pb] used by the diagnostics package *)

Module pb.

Inductive Diagnostic_Severity : Type :=
| Diagnostic_SEVERITY_UNSPECIFIED
| Diagnostic_SEVERITY_UNKNOWN
| Diagnostic_SEVERITY_ERROR
| Diagnostic_SEVERITY_WARNING.

Record Range_Pos : Type := mkRange_Pos
  { Line : Z; Column : Z; Byte : Z }.

Record Range : Type := mkRange
  { Filename : string; Start : option Range_Pos; End_ : option Range_Pos }.

Record Diagnostic_ExpressionValue : Type := mkExpressionValue
  { Traversal : string; Statement : string }.

Record Diagnostic_Snippet : Type := mkSnippet
  { Context : string;
    Code : string;
    StartLine : Z;
    HighlightStartOffset : Z;
    HighlightEndOffset : Z;
    Values : list Diagnostic_ExpressionValue }.

Record Diagnostic : Type := mkDiagnostic
  { Severity : Diagnostic_Severity;
    Summary : string;
    Detail : string;
    Range_ : option Range;
    Snippet : option Diagnostic_Snippet }.

Record DecodeResponse : Type := mkDecodeResponse
  { Diagnostics : list Diagnostic }.

End pb.

(** ** The [terraform-json] diagnostics consumed by [FromTFJSON]

    [Range], [Snippet] and the snippet's [Context] are pointers in the
    library ([*Range], [*DiagnosticSnippet], [*string]); the severity is a
    string. *)

Module tfjson.

Record Pos : Type := mkPos { Line : Z; Column : Z; Byte : Z }.

Record Range : Type := mkRange
  { Filename : string; Start : Pos; End_ : Pos }.

Record DiagnosticExpressionValue : Type := mkExpressionValue
  { Traversal : string; Statement : string }.

Record DiagnosticSnippet : Type := mkSnippet
  { Context : option string;
    Code : string;
    StartLine : Z;
    HighlightStartOffset : Z;
    HighlightEndOffset : Z;
    Values : list DiagnosticExpressionValue }.

Record Diagnostic : Type := mkDiagnostic
  { Severity : string;
    Summary : string;
    Detail : string;
    Range_ : option Range;
    Snippet : option DiagnosticSnippet }.

Definition DiagnosticSeverityUnknown : string := "unknown".
Definition DiagnosticSeverityError : string := "error".
Definition DiagnosticSeverityWarning : string := "warning".

End tfjson.

(** ** The parts of [cty] and [hcl] that the code calls

    The dynamic value library [cty] and the evaluator of [hcl] are external
    to the repository.  Their values and operations are the fields of
    [Lib]; everything below is stated for every implementation of it. *)

Module hcl.

Record Pos : Type := mkPos { Line : Z; Column : Z; Byte : Z }.

Record Range : Type := mkRange
  { Filename : string; Start : Pos; End_ : Pos }.

Inductive DiagnosticSeverity : Type :=
| DiagInvalid
| DiagError
| DiagWarning.

(** [p == (hcl.Pos{})] *)
Definition Pos_isZero (p : Pos) : bool :=
  (Line p =? 0) && (Column p =? 0) && (Byte p =? 0).

Definition withEnd (r : Range) (e : Pos) : Range :=
  {| Filename := Filename r; Start := Start r; End_ := e |}.

(** [Range.Empty]: the range covers no bytes. *)
Definition Range_Empty (r : Range) : bool :=
  Byte (Start r) =? Byte (End_ r).

(** [RangeOver]: the smallest range covering both, an empty range being
    ignored. *)
Definition RangeOver (a b : Range) : Range :=
  if Range_Empty a then b
  else if Range_Empty b then a
  else
    {| Filename := Filename a;
       Start := if Byte (Start a) <? Byte (Start b) then Start a else Start b;
       End_ := if Byte (End_ a) >? Byte (End_ b) then End_ a else End_ b |}.

Definition ContainsOffset (r : Range) (offset : Z) : bool :=
  (Byte (Start r) <=? offset) && (offset <? Byte (End_ r)).

(** [Range.Overlaps] *)
Definition Overlaps (r other : Range) : bool :=
  if negb (String.eqb (Filename r) (Filename other)) then false
  else if Range_Empty r || Range_Empty other then false
  else if ContainsOffset r (Byte (Start other))
          || ContainsOffset r (Byte (End_ other)) then true
  else if ContainsOffset other (Byte (Start r))
          || ContainsOffset other (Byte (End_ r)) then true
  else false.

Definition clampIndex (i n : Z) : Z :=
  if i <? 0 then 0 else if i >? n then n else i.

(** [Range.SliceBytes]: the bytes of the buffer that the range covers, the
    offsets being forced into the buffer. *)
Definition SliceBytes (r : Range) (b : string) : string :=
  let n := Z.of_nat (String.length b) in
  let start := clampIndex (Byte (Start r)) n in
  let end_ := clampIndex (Byte (End_ r)) n in
  let end_ := if end_ <? start then start else end_ in
  substring (Z.to_nat start) (Z.to_nat (end_ - start)) b.

(** [*hcl.File]: only the byte buffer is read; a nil slice is [None]. *)
Record File : Type := mkFile { Bytes : option string }.

Section Values.

Variable Value : Type.

(** A step of a traversal; [hcl.Traversal] is a slice of them. *)
Inductive Traverser : Type :=
| TraverseRoot (Name : string)
| TraverseAttr (Name : string)
| TraverseIndex (Key : Value)
| TraverseSplat.

Definition Traversal : Type := list Traverser.

(** [hcl.EvalContext]: variables and the parent context
    ([NewChild] links a fresh context without variables to its parent). *)
#[warnings="-register-all"]
Inductive EvalContext : Type :=
| mkEvalContext (Variables : option (gmap string Value))
                (parent : option EvalContext).

Definition Variables (c : EvalContext) : option (gmap string Value) :=
  match c with mkEvalContext v _ => v end.

Definition parent (c : EvalContext) : option EvalContext :=
  match c with mkEvalContext _ p => p end.

(** [ctx.NewChild()]; the receiver may be nil. *)
Definition NewChild (c : option EvalContext) : EvalContext :=
  mkEvalContext None c.

Definition withVariables (c : EvalContext) (vars : gmap string Value)
  : EvalContext :=
  mkEvalContext (Some vars) (parent c).

(** The number of ancestors of a context. *)
Fixpoint depth (c : EvalContext) : nat :=
  match c with
  | mkEvalContext _ None => 0%nat
  | mkEvalContext _ (Some p) => S (depth p)
  end.

(** [hcl.Diagnostic]; an expression is represented by the traversals that
    [Expression.Variables()] returns. *)
Record Diagnostic : Type := mkDiagnostic
  { Severity : DiagnosticSeverity;
    Summary : string;
    Detail : string;
    Subject : option Range;
    Context : option Range;
    Expression : option (list Traversal);
    EvalContext_ : option EvalContext }.

Definition HasErrors (diags : list Diagnostic) : bool :=
  existsb (fun d => match Severity d with DiagError => true | _ => false end)
          diags.

End Values.

Arguments TraverseRoot {Value} Name.
Arguments TraverseAttr {Value} Name.
Arguments TraverseIndex {Value} Key.
Arguments TraverseSplat {Value}.
Arguments mkEvalContext {Value} Variables parent.
Arguments Variables {Value} c.
Arguments parent {Value} c.
Arguments NewChild {Value} c.
Arguments withVariables {Value} c vars.
Arguments depth {Value} c.
Arguments mkDiagnostic {Value}.
Arguments Severity {Value} d.
Arguments Summary {Value} d.
Arguments Detail {Value} d.
Arguments Subject {Value} d.
Arguments Context {Value} d.
Arguments Expression {Value} d.
Arguments EvalContext_ {Value} d.
Arguments HasErrors {Value} diags.

End hcl.

(** The external operations, as an interface. *)
Class Lib : Type := mkLib
  { (* cty *)
    Value : Type;
    CtyType : Type;
    Value_Type : Value -> CtyType;
    Value_IsNull : Value -> bool;
    Value_IsKnown : Value -> bool;
    Value_True : Value -> bool;
    Value_AsString : Value -> string;
    Value_LengthInt : Value -> Z;
    (* [val.AsBigFloat().Text('g', 10)] *)
    Value_BigFloatText : Value -> string;
    Type_eqb : CtyType -> CtyType -> bool;
    cty_Bool : CtyType;
    cty_Number : CtyType;
    cty_String : CtyType;
    cty_DynamicPseudoType : CtyType;
    Type_FriendlyName : CtyType -> string;
    Type_IsPrimitiveType : CtyType -> bool;
    Type_IsCollectionType : CtyType -> bool;
    Type_IsTupleType : CtyType -> bool;
    Type_IsObjectType : CtyType -> bool;
    (* the keys of [ty.AttributeTypes()] *)
    Type_AttributeNames : CtyType -> list string;
    (* [fmt.Sprintf("%q", s)] and [fmt.Sprintf("%d", n)] *)
    fmt_quote : string -> string;
    fmt_decimal : Z -> string;
    (* hcl: [traversal.TraverseAbs(ctx)], the value and whether the
       returned diagnostics have errors *)
    TraverseAbs : hcl.Traversal Value -> option (hcl.EvalContext Value)
                  -> Value * bool;
    (* hcl: the ranges that [hcl.NewRangeScanner(b, filename, bufio.ScanLines)]
       yields, one per line, in order *)
    scanLines : string -> string -> list hcl.Range;
    (* hcled: [ContextString] of the re-parsed file at an offset *)
    ContextString : string -> Z -> string }.

(** ** [diagnostics.go]: construction from errors and from engine JSON *)

Module diagnostics.

(** [HasErrors]: some diagnostic has error severity. *)
Definition isError (d : pb.Diagnostic) : bool :=
  match pb.Severity d with
  | pb.Diagnostic_SEVERITY_ERROR => true
  | _ => false
  end.

Definition HasErrors (diags : list pb.Diagnostic) : bool :=
  existsb isError diags.

(** [FromErr].  A Go [error] is [None] when nil and otherwise carries the
    text that [err.Error()] returns.  The nil slice is the empty list. *)
Definition FromErr (err : option string) : list pb.Diagnostic :=
  match err with
  | None => []
  | Some msg =>
      [ {| pb.Severity := pb.Diagnostic_SEVERITY_ERROR;
           pb.Summary := msg;
           pb.Detail := EmptyString;
           pb.Range_ := None;
           pb.Snippet := None |} ]
  end.

(** The severity switch of [FromTFJSON]. *)
Definition severityFromTFJSON (s : string) : pb.Diagnostic_Severity :=
  if String.eqb s tfjson.DiagnosticSeverityError
  then pb.Diagnostic_SEVERITY_ERROR
  else if String.eqb s tfjson.DiagnosticSeverityWarning
  then pb.Diagnostic_SEVERITY_WARNING
  else pb.Diagnostic_SEVERITY_UNKNOWN.

Definition posFromTFJSON (p : tfjson.Pos) : pb.Range_Pos :=
  {| pb.Line := tfjson.Line p;
     pb.Column := tfjson.Column p;
     pb.Byte := tfjson.Byte p |}.

Definition valueFromTFJSON (e : tfjson.DiagnosticExpressionValue)
  : pb.Diagnostic_ExpressionValue :=
  {| pb.Traversal := tfjson.Traversal e;
     pb.Statement := tfjson.Statement e |}.

(** The body of the loop of [FromTFJSON] for one input diagnostic [din].
    [din.Range.Filename], [din.Snippet.Context] and [*din.Snippet.Context]
    dereference the three pointers without a nil check. *)
Definition translateTFJSON (din : tfjson.Diagnostic) : Outcome pb.Diagnostic :=
  rng <-! deref (tfjson.Range_ din) ;
  snip <-! deref (tfjson.Snippet din) ;
  context <-! deref (tfjson.Context snip) ;
  let range :=
    {| pb.Filename := tfjson.Filename rng;
       pb.Start := Some (posFromTFJSON (tfjson.Start rng));
       pb.End_ := Some (posFromTFJSON (tfjson.End_ rng)) |} in
  let severity := severityFromTFJSON (tfjson.Severity din) in
  (* the second snippet literal, which replaces the first one *)
  snip' <-! deref (tfjson.Snippet din) ;
  context' <-! deref (tfjson.Context snip') ;
  let snippet :=
    {| pb.Context := context';
       pb.Code := tfjson.Code snip';
       pb.StartLine := tfjson.StartLine snip';
       pb.HighlightStartOffset := tfjson.HighlightStartOffset snip';
       pb.HighlightEndOffset := tfjson.HighlightEndOffset snip';
       pb.Values := map valueFromTFJSON (tfjson.Values snip') |} in
  Returns
    {| pb.Severity := severity;
       pb.Summary := tfjson.Summary din;
       pb.Detail := tfjson.Detail din;
       pb.Range_ := Some range;
       pb.Snippet := Some snippet |}.

Definition FromTFJSON (input : list tfjson.Diagnostic)
  : Outcome (list pb.Diagnostic) :=
  match input with
  | [] => Returns []
  | _ => mapO translateTFJSON input
  end.

(** *** [FromHCL] *)

Section FromHCL.

Context `{L : Lib}.

Definition severityFromHCL (s : hcl.DiagnosticSeverity) : pb.Diagnostic_Severity :=
  match s with
  | hcl.DiagError => pb.Diagnostic_SEVERITY_ERROR
  | hcl.DiagWarning => pb.Diagnostic_SEVERITY_WARNING
  | hcl.DiagInvalid => pb.Diagnostic_SEVERITY_UNKNOWN
  end.

Definition hclRangeToProtoRange (rng : hcl.Range) : pb.Range :=
  {| pb.Filename := hcl.Filename rng;
     pb.Start := Some {| pb.Line := hcl.Line (hcl.Start rng);
                         pb.Column := hcl.Column (hcl.Start rng);
                         pb.Byte := hcl.Byte (hcl.Start rng) |};
     pb.End_ := Some {| pb.Line := hcl.Line (hcl.End_ rng);
                        pb.Column := hcl.Column (hcl.End_ rng);
                        pb.Byte := hcl.Byte (hcl.End_ rng) |} |}.

(** [compactValueStr] *)
Definition compactValueStr (val : Value) : string :=
  let ty := Value_Type val in
  if Value_IsNull val then "null"
  else if negb (Value_IsKnown val) then "(not yet known)"
  else if Type_eqb ty cty_Bool then
    if Value_True val then "true" else "false"
  else if Type_eqb ty cty_Number then Value_BigFloatText val
  else if Type_eqb ty cty_String then fmt_quote (Value_AsString val)
  else if Type_IsCollectionType ty || Type_IsTupleType ty then
    let l := Value_LengthInt val in
    if l =? 0 then "empty " +:+ Type_FriendlyName ty
    else if l =? 1 then Type_FriendlyName ty +:+ " with 1 element"
    else Type_FriendlyName ty +:+ " with " +:+ fmt_decimal l +:+ " elements"
  else if Type_IsObjectType ty then
    match Type_AttributeNames ty with
    | [] => "object with no attributes"
    | [name] => "object with 1 attribute " +:+ fmt_quote name
    | atys => "object with " +:+ fmt_decimal (Z.of_nat (length atys))
              +:+ " attributes"
    end
  else Type_FriendlyName ty.

(** [traversalStr] *)
Definition stepStr (step : hcl.Traverser Value) : string :=
  match step with
  | hcl.TraverseRoot name => name
  | hcl.TraverseAttr name => "." +:+ name
  | hcl.TraverseIndex key =>
      "[" +:+ (if Type_IsPrimitiveType (Value_Type key)
               then compactValueStr key else "...") +:+ "]"
  | hcl.TraverseSplat => EmptyString
  end.

Fixpoint traversalStr (traversal : hcl.Traversal Value) : string :=
  match traversal with
  | [] => EmptyString
  | step :: rest => stepStr step +:+ traversalStr rest
  end.

(** The statement recorded for a value (the [switch] of lines 279-288). *)
Definition statementOf (val : Value) : string :=
  if negb (Value_IsKnown val) then
    let ty := Value_Type val in
    if negb (Type_eqb ty cty_DynamicPseudoType)
    then "is a " +:+ Type_FriendlyName ty +:+ ", known only after apply"
    else "will be known only after apply"
  else "is " +:+ compactValueStr val.

(** The state of the annotation walk: the annotations recorded so far and
    the traversal strings seen. *)
Definition WalkState : Type :=
  (list pb.Diagnostic_ExpressionValue * gset string)%type.

(** One turn of the inner loop [for len(traversal) > 1 { ... }].
    [inl] is the state with which the loop goes round again, [inr] the state
    with which it is left (its condition fails, or [continue Traversals]). *)
Definition walkStep (ctx : option (hcl.EvalContext Value))
    (traversal : hcl.Traversal Value) (st : WalkState)
  : (hcl.Traversal Value * WalkState) + WalkState :=
  if (1 <? length traversal)%nat then
    let '(val, hasErrors) := TraverseAbs traversal ctx in
    if hasErrors then
      inl (removelast traversal, st)
    else
      let s := traversalStr traversal in
      if bool_decide (s ∈ st.2) then inr st
      else
        let value := {| pb.Traversal := s; pb.Statement := statementOf val |} in
        inl (traversal, (st.1 ++ [value], {[ s ]} ∪ st.2))
  else inr st.

(** The inner loop, run for at most [fuel] turns. *)
Fixpoint walkFuel (fuel : nat) (ctx : option (hcl.EvalContext Value))
    (traversal : hcl.Traversal Value) (st : WalkState) : option WalkState :=
  match fuel with
  | O => None
  | S fuel' =>
      match walkStep ctx traversal st with
      | inl (traversal', st') => walkFuel fuel' ctx traversal' st'
      | inr st' => Some st'
      end
  end.

(** The inner loop for one traversal; [S (length traversal)] turns are
    always enough ([walkFuel_enough]). *)
Definition walk (ctx : option (hcl.EvalContext Value))
    (traversal : hcl.Traversal Value) (st : WalkState) : WalkState :=
  default st (walkFuel (S (length traversal)) ctx traversal st).

(** [sort.Slice(values, less)] with [less] comparing the traversal strings.
    The strings in [values] are pairwise different, so the order that the
    sort produces does not depend on the algorithm. *)
Fixpoint insertValue (v : pb.Diagnostic_ExpressionValue)
    (l : list pb.Diagnostic_ExpressionValue) : list pb.Diagnostic_ExpressionValue :=
  match l with
  | [] => [v]
  | w :: l' =>
      if String.ltb (pb.Traversal w) (pb.Traversal v)
      then w :: insertValue v l'
      else v :: w :: l'
  end.

Definition sortValues (l : list pb.Diagnostic_ExpressionValue)
  : list pb.Diagnostic_ExpressionValue :=
  foldr insertValue [] l.

(** The loop labelled [Traversals], before the sort. *)
Definition walkAll (ctx : option (hcl.EvalContext Value))
    (vars : list (hcl.Traversal Value)) : WalkState :=
  foldl (fun st traversal => walk ctx traversal st) ([], ∅) vars.

(** The expression values of a diagnostic with an expression. *)
Definition expressionValues (ctx : option (hcl.EvalContext Value))
    (vars : list (hcl.Traversal Value)) : list pb.Diagnostic_ExpressionValue :=
  sortValues (walkAll ctx vars).1.

(** The subject range as highlighted, and the range of the snippet
    (lines 166-188). *)
Definition bumpEnd (r : hcl.Range) : hcl.Range :=
  hcl.withEnd r
    {| hcl.Line := hcl.Line (hcl.End_ r);
       hcl.Column := wrap64 (hcl.Column (hcl.End_ r) + 1);
       hcl.Byte := wrap64 (hcl.Byte (hcl.End_ r) + 1) |}.

Definition highlightRangeOf (subject : hcl.Range) : hcl.Range :=
  let highlightRange :=
    if hcl.Pos_isZero (hcl.End_ subject)
    then hcl.withEnd subject (hcl.Start subject) else subject in
  if hcl.Range_Empty highlightRange then bumpEnd highlightRange
  else highlightRange.

Definition snippetRangeOf (subject : hcl.Range) (context : option hcl.Range)
  : hcl.Range :=
  let highlightRange :=
    if hcl.Pos_isZero (hcl.End_ subject)
    then hcl.withEnd subject (hcl.Start subject) else subject in
  let snippetRange := default highlightRange context in
  let snippetRange := hcl.RangeOver snippetRange highlightRange in
  if hcl.Range_Empty snippetRange then bumpEnd snippetRange else snippetRange.

Definition LF : string := String (ascii_of_nat 10) EmptyString.

(** The scanner loop of lines 209-221: the start byte of the code and the
    text collected. *)
Fixpoint scanCode (bytes : string) (snippetRange : hcl.Range)
    (lines : list hcl.Range) (codeStartByte : Z) (code : string) : Z * string :=
  match lines with
  | [] => (codeStartByte, code)
  | lineRange :: rest =>
      if hcl.Overlaps lineRange snippetRange then
        let codeStartByte' :=
          if (codeStartByte =? 0) && (len code =? 0)
          then hcl.Byte (hcl.Start lineRange) else codeStartByte in
        scanCode bytes snippetRange rest codeStartByte'
                 (code +:+ hcl.SliceBytes lineRange bytes +:+ LF)
      else scanCode bytes snippetRange rest codeStartByte code
  end.

(** [strings.TrimSuffix(s, "\n")] *)
Fixpoint trimSuffixLF (s : string) : string :=
  match s with
  | EmptyString => EmptyString
  | String c EmptyString => if Ascii.eqb c (ascii_of_nat 10) then EmptyString else s
  | String c rest => String c (trimSuffixLF rest)
  end.

(** The capping of an offset at the bounds of the code (lines 235-244). *)
Definition capOffset (x : Z) (codeStr : string) : Z :=
  if x <? 0 then 0 else if x >? len codeStr then len codeStr else x.

(** The snippet of a diagnostic whose subject lies in a file with bytes. *)
Definition snippetOf (bytes : string) (diag : hcl.Diagnostic Value)
    (subject : hcl.Range) : pb.Diagnostic_Snippet :=
  let highlightRange := highlightRangeOf subject in
  let snippetRange := snippetRangeOf subject (hcl.Context diag) in
  (* parseRange: the re-parsed file has the same bytes *)
  let offset := hcl.Byte (hcl.Start highlightRange) in
  let contextStr := ContextString bytes (wrap64 (offset - 1)) in
  let '(codeStartByte, code) :=
    scanCode bytes snippetRange (scanLines bytes (hcl.Filename highlightRange))
             0 EmptyString in
  let codeStr := trimSuffixLF code in
  let start := wrap64 (hcl.Byte (hcl.Start highlightRange) - codeStartByte) in
  let end_ :=
    wrap64 (start + wrap64 (hcl.Byte (hcl.End_ highlightRange)
                            - hcl.Byte (hcl.Start highlightRange))) in
  {| pb.Context := contextStr;
     pb.Code := codeStr;
     pb.StartLine := hcl.Line (hcl.Start snippetRange);
     pb.HighlightStartOffset := capOffset start codeStr;
     pb.HighlightEndOffset := capOffset end_ codeStr;
     pb.Values :=
       match hcl.Expression diag with
       | Some vars => expressionValues (hcl.EvalContext_ diag) vars
       | None => []
       end |}.

(** The body of the loop of [FromHCL] for one diagnostic. *)
Definition fromHCLDiagnostic (files : gmap string hcl.File)
    (diag : hcl.Diagnostic Value) : pb.Diagnostic :=
  {| pb.Severity := severityFromHCL (hcl.Severity diag);
     pb.Summary := hcl.Summary diag;
     pb.Detail := hcl.Detail diag;
     pb.Range_ :=
       match hcl.Subject diag with
       | Some subject => Some (hclRangeToProtoRange (highlightRangeOf subject))
       | None => None
       end;
     pb.Snippet :=
       match hcl.Subject diag with
       | Some subject =>
           match files !! hcl.Filename subject with
           | Some file =>
               match hcl.Bytes file with
               | Some bytes => Some (snippetOf bytes diag subject)
               | None => None
               end
           | None => None
           end
       | None => None
       end |}.

Definition FromHCL (files : gmap string hcl.File)
    (diags : list (hcl.Diagnostic Value)) : list pb.Diagnostic :=
  map (fromHCLDiagnostic files) diags.

End FromHCL.

(** *** [HasWarnings], [Concat] *)

Definition isWarning (d : pb.Diagnostic) : bool :=
  match pb.Severity d with
  | pb.Diagnostic_SEVERITY_WARNING => true
  | _ => false
  end.

Definition HasWarnings (diags : list pb.Diagnostic) : bool :=
  existsb isWarning diags.

(** [Concat(diags ...[]*pb.Diagnostic)] *)
Definition Concat (diags : list (list pb.Diagnostic)) : list pb.Diagnostic :=
  foldl (fun combined diag => combined ++ diag) [] diags.

(** *** [appendSourceSnippets]: the split of the code at the highlight *)

(** Lines 453-478: the offsets of the snippet as they are used to slice the
    code. *)
Definition renderOffsets (code : string) (highlightStart highlightEnd : Z)
  : Z * Z :=
  let start := highlightStart in
  let end_ := highlightEnd in
  let end_ :=
    if end_ <? start then
      let end_ := wrap64 (start + 1) in
      if end_ >? len code then len code else end_
    else end_ in
  let start :=
    if start <? 0 then 0 else if start >? len code then len code else start in
  let end_ :=
    if end_ <? 0 then 0 else if end_ >? len code then len code else end_ in
  (start, end_).

(** [s[lo:hi]]; the slice expression panics unless [0 <= lo <= hi <= len(s)]. *)
Definition sliceString (s : string) (lo hi : Z) : Outcome string :=
  if (0 <=? lo) && (lo <=? hi) && (hi <=? len s)
  then Returns (substring (Z.to_nat lo) (Z.to_nat (hi - lo)) s)
  else Panics.

(** Line 480: [before, highlight, after := code[0:start], code[start:end],
    code[end:]]. *)
Definition splitHighlight (snippet : pb.Diagnostic_Snippet)
  : Outcome (string * string * string) :=
  let code := pb.Code snippet in
  let '(start, end_) :=
    renderOffsets code (pb.HighlightStartOffset snippet)
                  (pb.HighlightEndOffset snippet) in
  before <-! sliceString code 0 start ;
  highlight <-! sliceString code start end_ ;
  after <-! sliceString code end_ (len code) ;
  Returns (before, highlight, after).

End diagnostics.

(** ** Package [flightplan] *)

Module flightplan.

(** *** Decode targets

    Modelled from the spec: the constants of [DecodeTarget], declared outside
    the files at hand, in the order of the decode-target ladder. *)
Definition DecodeTarget : Type := Z.
Definition DecodeTargetUnset : DecodeTarget := 0.
Definition DecodeTargetScenariosNamesNoVariants : DecodeTarget := 1.
Definition DecodeTargetScenariosMatrixOnly : DecodeTarget := 2.
Definition DecodeTargetScenariosNamesExpandVariants : DecodeTarget := 3.
Definition DecodeTargetScenariosComplete : DecodeTarget := 4.
Definition DecodeTargetAll : DecodeTarget := 5.

(** The rest of the package and of [pb], as an interface: the types that
    are declared in other files and the functions called on them. *)
Class Pkg `{L : Lib} : Type := mkPkg
  { (* hcl.Block *)
    Block : Type;
    Block_Labels : Block -> list string;
    Block_TypeRange : Block -> hcl.Range;
    Block_DefRange : Block -> hcl.Range;
    verifyBlockLabelsAreValidIdentifiers : Block -> list (hcl.Diagnostic Value);
    (* matrix.go *)
    Vector : Type;
    Vector_CtyVal : Vector -> Value;
    ScenarioFilter : Type;
    ScenarioFilter_Name : ScenarioFilter -> string;
    (* scenario.go; [Scenario_decode] is [scenario.decode(block, ctx, target)],
       which fills in the scenario it is called on *)
    Scenario : Type;
    NewScenario : Scenario;
    Scenario_setVariants : Scenario -> Vector -> Scenario;
    Scenario_decode : Scenario -> Block -> hcl.EvalContext Value -> DecodeTarget
                      -> Scenario * list (hcl.Diagnostic Value);
    Scenario_String : Scenario -> string;
    (* [fmt.Sprintf("%v is not a known decode mode", target)] *)
    unknownModeDetail : DecodeTarget -> string;
    (* sample_subset.go; [SampleSubset_Frame] is [subset.Frame(ctx, ws)] *)
    SampleSubset : Type;
    SampleSubset_Name : SampleSubset -> string;
    SampleSubsetFrame : Type;
    SampleSubsetFrame_setSampleName : SampleSubsetFrame -> string -> SampleSubsetFrame;
    SampleSubset_Frame : SampleSubset
                         -> option SampleSubsetFrame * option pb.DecodeResponse }.

Section Package.

Context `{P : Pkg}.

(** [*Matrix] *)
Record Matrix : Type := mkMatrix { Vectors : list Vector }.

(** The remaining functions of matrix.go that the decoder calls:
    [decodeMatrix(ctx, block)] and [m.Filter(f)]. *)
Class MatrixOps : Type := mkMatrixOps
  { decodeMatrix : option (hcl.EvalContext Value) -> Block
                   -> option Matrix * list (hcl.Diagnostic Value);
    Matrix_Filter : Matrix -> ScenarioFilter -> option Matrix }.

Context `{M : MatrixOps}.

(** *** The scenario decoder *)

Record ScenarioDecoder : Type := mkScenarioDecoder
  { EvalContext : option (hcl.EvalContext Value);
    DecodeTarget_ : DecodeTarget;
    ScenarioFilter_ : option ScenarioFilter }.

Definition setEvalContext (d : ScenarioDecoder)
    (c : option (hcl.EvalContext Value)) : ScenarioDecoder :=
  {| EvalContext := c;
     DecodeTarget_ := DecodeTarget_ d;
     ScenarioFilter_ := ScenarioFilter_ d |}.

Record DecodedScenarioBlock : Type := mkDecodedScenarioBlock
  { Name : string;
    Block_ : Block;
    BlockDecodeTarget : DecodeTarget;
    Matrix_ : option Matrix;
    Scenarios : list Scenario;
    Diagnostics : list (hcl.Diagnostic Value) }.

Definition setMatrix (sb : DecodedScenarioBlock) (m : option Matrix)
  : DecodedScenarioBlock :=
  {| Name := Name sb; Block_ := Block_ sb;
     BlockDecodeTarget := BlockDecodeTarget sb;
     Matrix_ := m; Scenarios := Scenarios sb; Diagnostics := Diagnostics sb |}.

Definition setScenarios (sb : DecodedScenarioBlock) (l : list Scenario)
  : DecodedScenarioBlock :=
  {| Name := Name sb; Block_ := Block_ sb;
     BlockDecodeTarget := BlockDecodeTarget sb;
     Matrix_ := Matrix_ sb; Scenarios := l; Diagnostics := Diagnostics sb |}.

Definition setDiagnostics (sb : DecodedScenarioBlock)
    (l : list (hcl.Diagnostic Value)) : DecodedScenarioBlock :=
  {| Name := Name sb; Block_ := Block_ sb;
     BlockDecodeTarget := BlockDecodeTarget sb;
     Matrix_ := Matrix_ sb; Scenarios := Scenarios sb; Diagnostics := l |}.

(** [slices.SortStableFunc(l, func(a, b) int { return cmp.Compare(key a, key b) })] *)
Fixpoint insertBy {A} (key : A -> string) (x : A) (l : list A) : list A :=
  match l with
  | [] => [x]
  | y :: l' =>
      if String.ltb (key y) (key x) then y :: insertBy key x l'
      else x :: y :: l'
  end.

Definition sortStableBy {A} (key : A -> string) (l : list A) : list A :=
  foldr (insertBy key) [] l.

(** [filterScenarioBlocks]; [blocks[i].Labels[0]] panics on a block without
    labels. *)
Definition filterScenarioBlock (d : ScenarioDecoder) (block : Block)
  : Outcome (option DecodedScenarioBlock) :=
  label <-! deref (head (Block_Labels block)) ;
  let skip :=
    match ScenarioFilter_ d with
    | Some f =>
        negb (String.eqb (ScenarioFilter_Name f) EmptyString)
        && negb (String.eqb label (ScenarioFilter_Name f))
    | None => false
    end in
  if skip then Returns None
  else Returns (Some
    {| Name := label;
       Block_ := block;
       BlockDecodeTarget := DecodeTarget_ d;
       Matrix_ := None;
       Scenarios := [];
       Diagnostics := verifyBlockLabelsAreValidIdentifiers block |}).

Fixpoint filterScenarioBlocks (d : ScenarioDecoder) (blocks : list Block)
  : Outcome (list DecodedScenarioBlock) :=
  match blocks with
  | [] => Returns []
  | block :: rest =>
      r <-! filterScenarioBlock d block ;
      res <-! filterScenarioBlocks d rest ;
      Returns (match r with Some sb => sb :: res | None => res end)
  end.

(** [decodeScenario].  The decoder is passed in and out: with a vector the
    function assigns [d.EvalContext = matrixCtx]. *)
Definition decodeScenario (d : ScenarioDecoder) (vec : option Vector)
    (block : Block)
  : ScenarioDecoder * (bool * Scenario * list (hcl.Diagnostic Value)) :=
  let scenario := NewScenario in
  let '(scenario, d) :=
    match vec with
    | Some v =>
        let scenario := Scenario_setVariants scenario v in
        let matrixCtx := hcl.NewChild (EvalContext d) in
        let matrixCtx :=
          hcl.withVariables matrixCtx {[ "matrix" := Vector_CtyVal v ]} in
        (scenario, setEvalContext d (Some matrixCtx))
    | None => (scenario, d)
    end in
  let '(scenario, diags) :=
    Scenario_decode scenario block (hcl.NewChild (EvalContext d))
                    (DecodeTarget_ d) in
  (d, (negb (hcl.HasErrors diags), scenario, diags)).

(** The body of the loops of [decodeScenariosSerial]: decode one scenario,
    extend the diagnostics of the block, keep the scenario if it decoded
    without errors. *)
Definition decodeInto (vec : option Vector)
    (st : ScenarioDecoder * DecodedScenarioBlock)
  : ScenarioDecoder * DecodedScenarioBlock :=
  let '(d, sb) := st in
  let '(d, (keep, scenario, diags)) := decodeScenario d vec (Block_ sb) in
  let sb := setDiagnostics sb (Diagnostics sb ++ diags) in
  (d, if keep then setScenarios sb (Scenarios sb ++ [scenario]) else sb).

Definition noVectors (m : option Matrix) : bool :=
  match m with
  | None => true
  | Some m => (length (Vectors m) <? 1)%nat
  end.

(** [decodeScenariosSerial] *)
Definition decodeScenariosSerial (d : ScenarioDecoder) (sb : DecodedScenarioBlock)
  : ScenarioDecoder * DecodedScenarioBlock :=
  match Matrix_ sb with
  | Some m =>
      if (length (Vectors m) <? 1)%nat then decodeInto None (d, sb)
      else foldl (fun st vec => decodeInto (Some vec) st) (d, sb) (Vectors m)
  | None => decodeInto None (d, sb)
  end.

(** The state of the collector of [decodeScenariosConcurrent]: the decoder
    shared by the workers, and the local [scenarios] and [diags]. *)
Definition Collected : Type :=
  (ScenarioDecoder * list Scenario * list (hcl.Diagnostic Value))%type.

(** One worker, run to completion: it decodes its vector, sends the
    diagnostics and, if the scenario is kept, the scenario; the collector
    appends what it receives. *)
Definition worker (block : Block) (st : Collected) (vec : Vector) : Collected :=
  let '(d, scenarios, diags) := st in
  let '(d, (keep, scenario, moreDiags)) := decodeScenario d (Some vec) block in
  (d, if keep then scenarios ++ [scenario] else scenarios, diags ++ moreDiags).

(** [decodeScenariosConcurrent], for the runs in which the workers take
    their turns one after the other in the order [sched] (indices into the
    vectors of the matrix) and the caller's context is not cancelled.  The
    function ends with [sb.Scenarios = append(sb.Scenarios, scenarios...)];
    the collected [diags] are not stored. *)
Definition decodeScenariosConcurrent (sched : list nat) (d : ScenarioDecoder)
    (sb : DecodedScenarioBlock) : ScenarioDecoder * DecodedScenarioBlock :=
  match Matrix_ sb with
  | Some m =>
      if (length (Vectors m) <? 1)%nat then decodeScenariosSerial d sb
      else
        let turns := omap (fun i => Vectors m !! i) sched in
        let '(d, scenarios, diags) := foldl (worker (Block_ sb)) (d, [], []) turns in
        (d, setScenarios sb (Scenarios sb ++ scenarios))
  | None => decodeScenariosSerial d sb
  end.

(** A schedule for [n] workers lets each of them run once. *)
Definition schedule (n : nat) (sched : list nat) : Prop :=
  Permutation sched (seq 0 n).

(** The way a block is decoded. *)
Inductive DecodeMode : Type :=
| Serial
| Concurrent
| UnknownMode.

Definition isNil (m : option Matrix) : bool :=
  match m with None => true | Some _ => false end.

(** [len(m.Vectors)]; it is evaluated only where [m] is not nil. *)
Definition numVectors (m : option Matrix) : Z :=
  match m with Some mtx => Z.of_nat (length (Vectors mtx)) | None => 0 end.

(** The choice of lines 477-506 of [DecodeScenarioBlocks]. *)
Definition decodeMode (target : DecodeTarget) (m : option Matrix) : DecodeMode :=
  if isNil m || (negb (isNil m) || (numVectors m <? 1)) then Serial
  else if target =? DecodeTargetScenariosNamesExpandVariants then
    if numVectors m <? 8000 then Serial else Concurrent
  else if (target =? DecodeTargetScenariosComplete)
          || (target =? DecodeTargetAll) then
    if numVectors m <? 100 then Serial else Concurrent
  else UnknownMode.

Definition unknownModeDiagnostic (sb : DecodedScenarioBlock) (target : DecodeTarget)
  : hcl.Diagnostic Value :=
  {| hcl.Severity := hcl.DiagError;
     hcl.Summary := "unknown scenario decode mode";
     hcl.Detail := unknownModeDetail target;
     hcl.Subject := Some (Block_TypeRange (Block_ sb));
     hcl.Context := Some (Block_DefRange (Block_ sb));
     hcl.Expression := None;
     hcl.EvalContext_ := None |}.

(** Lines 456-471: the matrix of the block and whether the loop moves on to
    the next block ([continue]) because the filtered matrix is empty. *)
Definition decodeBlockMatrix (d : ScenarioDecoder) (sb : DecodedScenarioBlock)
  : DecodedScenarioBlock * bool :=
  if DecodeTargetScenariosMatrixOnly <=? DecodeTarget_ d then
    let '(m, diags) := decodeMatrix (EvalContext d) (Block_ sb) in
    let sb := setMatrix sb m in
    let sb := setDiagnostics sb (Diagnostics sb ++ diags) in
    match Matrix_ sb, ScenarioFilter_ d with
    | Some mtx, Some f =>
        if (1 <? length (Vectors mtx))%nat then
          let sb := setMatrix sb (Matrix_Filter mtx f) in
          (sb, noVectors (Matrix_ sb))
        else (sb, false)
    | _, _ => (sb, false)
    end
  else (sb, false).

(** The body of the loop of [DecodeScenarioBlocks] for one block. *)
Definition decodeBlock (sched : nat -> list nat) (d : ScenarioDecoder)
    (sb : DecodedScenarioBlock) : ScenarioDecoder * DecodedScenarioBlock :=
  let '(sb, continue) := decodeBlockMatrix d sb in
  if continue then (d, sb)
  else if DecodeTarget_ d <? DecodeTargetScenariosNamesExpandVariants then (d, sb)
  else
    let '(d, sb) :=
      match decodeMode (DecodeTarget_ d) (Matrix_ sb) with
      | Serial => decodeScenariosSerial d sb
      | Concurrent =>
          decodeScenariosConcurrent
            (sched (Z.to_nat (numVectors (Matrix_ sb)))) d sb
      | UnknownMode =>
          (d, setDiagnostics sb
                (Diagnostics sb ++ [unknownModeDiagnostic sb (DecodeTarget_ d)]))
      end in
    (d, setScenarios sb (sortStableBy Scenario_String (Scenarios sb))).

(** [DecodeScenarioBlocks] *)
Definition DecodeScenarioBlocks (sched : nat -> list nat) (d : ScenarioDecoder)
    (blocks : list Block)
  : Outcome (ScenarioDecoder * list DecodedScenarioBlock) :=
  match blocks with
  | [] => Returns (d, [])
  | _ =>
      scenarioBlocks <-! filterScenarioBlocks d blocks ;
      let '(d, decoded) :=
        foldl (fun '(d, acc) sb =>
                 let '(d, sb) := decodeBlock sched d sb in (d, acc ++ [sb]))
              (d, []) scenarioBlocks in
      Returns (d, sortStableBy Name decoded)
  end.

(** *** Samples ([sample.go]) *)

Record Sample : Type := mkSample
  { SampleName : string;
    Attributes : option Value;
    Subsets : list SampleSubset }.

(** [*pb.Sample_Filter]: the names that [GetName()] returns for the entries
    of [GetSubsets()] and of [GetExcludeSubsets()]; a nil slice is [None]. *)
Record Sample_Filter : Type := mkSample_Filter
  { FilterSubsets : option (list string);
    FilterExcludeSubsets : option (list string) }.

Definition GetSubsets (f : Sample_Filter) : option (list string) :=
  FilterSubsets f.

Definition GetExcludeSubsets (f : Sample_Filter) : option (list string) :=
  FilterExcludeSubsets f.

(** Slices share their backing arrays.  [filterSubsets] works on two
    arrays: the one behind [s.Subsets] and the one it allocates for
    [newSubs].  A store holds both; a slice names its array and its length
    (all slices of the function start at index 0). *)
Inductive ArrayRef : Type :=
| SampleArray
| NewArray.

Record Store : Type := mkStore
  { sampleArray : list SampleSubset;
    newArray : list SampleSubset }.

Record Slice : Type := mkSlice
  { array : ArrayRef;
    slen : nat }.

Definition arrayOf (st : Store) (r : ArrayRef) : list SampleSubset :=
  match r with
  | SampleArray => sampleArray st
  | NewArray => newArray st
  end.

Definition setArray (st : Store) (r : ArrayRef) (a : list SampleSubset) : Store :=
  match r with
  | SampleArray => {| sampleArray := a; newArray := newArray st |}
  | NewArray => {| sampleArray := sampleArray st; newArray := a |}
  end.

(** The elements of a slice. *)
Definition elems (st : Store) (sl : Slice) : list SampleSubset :=
  take (slen sl) (arrayOf st (array sl)).

(** [append(subsets[:j], subsets[j+1:]...)] for [j < len(subsets)]: the
    result fits the capacity of [subsets[:j]], so the elements after [j] are
    copied one place down inside the array of [subsets]; the cell of the
    former last element keeps its content. *)
Definition removeAt (st : Store) (sl : Slice) (j : nat) : Store * Slice :=
  let a := arrayOf st (array sl) in
  let a' := take j a ++ drop (S j) (take (slen sl) a) ++ drop (slen sl - 1) a in
  (setArray st (array sl) a', {| array := array sl; slen := (slen sl - 1)%nat |}).

(** [for j := range subsets { if name == subsets[j].Name { ...; break } }]:
    the first index whose subset has the name. *)
Fixpoint indexOfName (name : string) (subsets : list SampleSubset) : option nat :=
  match subsets with
  | [] => None
  | x :: rest =>
      if String.eqb name (SampleSubset_Name x) then Some 0%nat
      else S <$> indexOfName name rest
  end.

(** The include loop: [newSubs] after the names [inclSubs]. *)
Fixpoint includeLoop (inclSubs : list string) (subsets newSubs : list SampleSubset)
  : list SampleSubset :=
  match inclSubs with
  | [] => newSubs
  | name :: rest =>
      let newSubs :=
        match indexOfName name subsets with
        | Some j =>
            match subsets !! j with
            | Some x => newSubs ++ [x]
            | None => newSubs
            end
        | None => newSubs
        end in
      includeLoop rest subsets newSubs
  end.

(** The exclude loop. *)
Fixpoint excludeLoop (exclSubs : list string) (st : Store) (subsets : Slice)
  : Store * Slice :=
  match exclSubs with
  | [] => (st, subsets)
  | name :: rest =>
      let '(st, subsets) :=
        match indexOfName name (elems st subsets) with
        | Some j => removeAt st subsets j
        | None => (st, subsets)
        end in
      excludeLoop rest st subsets
  end.

(** [filterSubsets] on the store: the final store and the slice returned
    ([None] is the nil slice).  The receiver is not nil. *)
Definition filterSubsetsIn (s : Sample) (filter : option Sample_Filter)
  : Store * option Slice :=
  let st := {| sampleArray := Subsets s; newArray := [] |} in
  if (length (Subsets s) <? 1)%nat then (st, None)
  else
    let subsets := {| array := SampleArray; slen := length (Subsets s) |} in
    match filter with
    | Some f =>
        let '(st, subsets) :=
          match GetSubsets f with
          | Some inclSubs =>
              let newSubs := includeLoop inclSubs (elems st subsets) [] in
              (setArray st NewArray newSubs,
               {| array := NewArray; slen := length newSubs |})
          | None => (st, subsets)
          end in
        let '(st, subsets) :=
          match GetExcludeSubsets f with
          | Some exclSubs => excludeLoop exclSubs st subsets
          | None => (st, subsets)
          end in
        (st, Some subsets)
    | None => (st, Some subsets)
    end.

(** [s.filterSubsets(filter)]: the subsets returned, and the sample as it
    is afterwards ([s.Subsets] keeps its length and reads the array of the
    final store). *)
Definition filterSubsets (s : Sample) (filter : option Sample_Filter)
  : list SampleSubset * Sample :=
  let '(st, r) := filterSubsetsIn s filter in
  (match r with Some sl => elems st sl | None => [] end,
   {| SampleName := SampleName s;
      Attributes := Attributes s;
      Subsets := take (length (Subsets s)) (sampleArray st) |}).

(** [SampleFrame] *)
Record SampleFrame : Type := mkSampleFrame
  { FrameSample : Sample;
    FrameFilter : option Sample_Filter;
    SubsetFrames : gmap string SampleSubsetFrame }.

(** The loop of [Frame] over the surviving subsets: the map built, or the
    response of the first subset whose [Frame] fails. *)
Fixpoint frameLoop (sampleName : string) (subsets : list SampleSubset)
    (frames : gmap string SampleSubsetFrame)
  : gmap string SampleSubsetFrame + pb.DecodeResponse :=
  match subsets with
  | [] => inl frames
  | subset :: rest =>
      match SampleSubset_Frame subset with
      | (_, Some err) => inr err
      | (None, None) => frameLoop sampleName rest frames
      | (Some frame, None) =>
          let frame := SampleSubsetFrame_setSampleName frame sampleName in
          frameLoop sampleName rest (<[ SampleSubset_Name subset := frame ]> frames)
      end
  end.

(** [Sample.Frame].  [filterString] is the text of [filter.String()]. *)
Definition Frame (filterString : string) (s : Sample)
    (filter : option Sample_Filter)
  : option SampleFrame * option pb.DecodeResponse :=
  let '(subsets, s) := filterSubsets s filter in
  if (length subsets <? 1)%nat then
    (None,
     Some {| pb.Diagnostics :=
               diagnostics.FromErr
                 (Some ("no subsets matched the given filter: " +:+ filterString)) |})
  else
    match frameLoop (SampleName s) subsets ∅ with
    | inl frames =>
        (Some {| FrameSample := s; FrameFilter := filter; SubsetFrames := frames |},
         None)
    | inr err => (None, Some err)
    end.

(** *** [NewScenarioDecoder] and its options *)

Definition ScenarioDecoderOpt : Type := ScenarioDecoder -> ScenarioDecoder.

Definition WithScenarioDecoderEvalContext
    (evctx : option (hcl.EvalContext Value)) : ScenarioDecoderOpt :=
  fun d => setEvalContext d evctx.

Definition WithScenarioDecoderDecodeTarget (t : DecodeTarget) : ScenarioDecoderOpt :=
  fun d =>
    {| EvalContext := EvalContext d;
       DecodeTarget_ := t;
       ScenarioFilter_ := ScenarioFilter_ d |}.

Definition WithScenarioDecoderScenarioFilter (f : option ScenarioFilter)
  : ScenarioDecoderOpt :=
  fun d =>
    {| EvalContext := EvalContext d;
       DecodeTarget_ := DecodeTarget_ d;
       ScenarioFilter_ := f |}.

(** The text of the error of [NewScenarioDecoder]. *)
Definition unsupportedTarget (t : DecodeTarget) : string :=
  "unsupported decode target level: " +:+ pretty t
  +:+ ", expected a level between " +:+ pretty (DecodeTargetUnset + 1)
  +:+ " and " +:+ pretty DecodeTargetAll.

(** [NewScenarioDecoder]: the decoder, or the error. *)
Definition NewScenarioDecoder (opts : list ScenarioDecoderOpt)
  : ScenarioDecoder + string :=
  let d := {| EvalContext := Some (hcl.mkEvalContext None None);
              DecodeTarget_ := DecodeTargetUnset;
              ScenarioFilter_ := None |} in
  let d := foldl (fun d opt => opt d) d opts in
  if (DecodeTarget_ d <=? DecodeTargetUnset) || (DecodeTarget_ d >? DecodeTargetAll)
  then inr (unsupportedTarget (DecodeTarget_ d))
  else if negb (DecodeTarget_ d =? DecodeTargetScenariosNamesExpandVariants)
          && negb (DecodeTarget_ d =? DecodeTargetScenariosMatrixOnly)
          && negb (DecodeTarget_ d =? DecodeTargetScenariosNamesNoVariants)
          && (DecodeTarget_ d <? DecodeTargetScenariosComplete)
  then inr (unsupportedTarget (DecodeTarget_ d))
  else inl d.

(** *** The methods of [DecodedScenarioBlocks] *)

(** [DecodedScenarioBlocks.Diagnostics] *)
Definition DecodedScenarioBlocks_Diagnostics (d : list DecodedScenarioBlock)
  : list (hcl.Diagnostic Value) :=
  foldl (fun diags sb => diags ++ Diagnostics sb) [] d.

(** [DecodedScenarioBlocks.Scenarios] *)
Definition DecodedScenarioBlocks_Scenarios (d : list DecodedScenarioBlock)
  : list Scenario :=
  foldl (fun scenarios sb => scenarios ++ Scenarios sb) [] d.

(** The methods of [*Matrix] that [CombinedMatrix] calls: [m.AddVector(v)],
    which changes the matrix it is called on (the new content is returned
    here), and [m.UniqueValues()]. *)
Class MatrixAlgebra : Type := mkMatrixAlgebra
  { Matrix_AddVector : Matrix -> Vector -> Matrix;
    Matrix_UniqueValues : Matrix -> option Matrix }.

Context `{A : MatrixAlgebra}.

(** The state of the loop of [CombinedMatrix]: [m], as the index of the
    block whose matrix it points to and the content of that matrix. *)
Definition Combined : Type := option (nat * Matrix).

(** One turn of the loop for the block at index [i]; [sm.Vectors] panics on
    a nil matrix. *)
Definition combineBlock (m : Combined) (i : nat) (sb : DecodedScenarioBlock)
  : Outcome Combined :=
  let sm := Matrix_ sb in
  match m with
  | None => Returns ((fun x => (i, x)) <$> sm)
  | Some (owner, content) =>
      smv <-! deref sm ;
      Returns (Some (owner, foldl Matrix_AddVector content (Vectors smv)))
  end.

Fixpoint combineBlocks (m : Combined) (i : nat) (d : list DecodedScenarioBlock)
  : Outcome Combined :=
  match d with
  | [] => Returns m
  | sb :: rest =>
      m' <-! combineBlock m i sb ;
      combineBlocks m' (S i) rest
  end.

(** [DecodedScenarioBlocks.CombinedMatrix]: the matrix returned, and the
    blocks afterwards: [m] points to the matrix of the first block that has
    one, so that block sees the vectors added.  The blocks are taken to
    have matrices of their own. *)
Definition CombinedMatrix (d : list DecodedScenarioBlock)
  : Outcome (option Matrix * list DecodedScenarioBlock) :=
  m <-! combineBlocks None 0%nat d ;
  match m with
  | None => Returns (None, d)
  | Some (owner, content) =>
      Returns (Matrix_UniqueValues content,
               alter (fun sb => setMatrix sb (Some content)) owner d)
  end.

(** *** [Sample.Decode] *)

(** What [Sample.Decode] calls on the parsed body, on values and on
    subsets: [block.Body.Content(sampleSchema)], as the attributes and the
    blocks found with the diagnostics; the type of a block; for an
    attribute, [attr.Expr.Value(ctx)] and its ranges; [ss.decode(block,
    ctx)]. *)
Class SampleDeps : Type := mkSampleDeps
  { Attribute : Type;
    Attribute_Value : Attribute -> option (hcl.EvalContext Value)
                      -> Value * list (hcl.Diagnostic Value);
    Attribute_NameRange : Attribute -> hcl.Range;
    Attribute_Range : Attribute -> hcl.Range;
    Value_IsWhollyKnown : Value -> bool;
    Value_CanIterateElements : Value -> bool;
    cty_UnknownVal : CtyType -> Value;
    Type_GoString : CtyType -> string;
    Block_Type : Block -> string;
    blockTypeSampleSubset : string;
    Block_Content : Block
                    -> (gmap string Attribute * list Block)
                       * list (hcl.Diagnostic Value);
    SampleSubset_decode : Block -> option (hcl.EvalContext Value)
                          -> SampleSubset * list (hcl.Diagnostic Value) }.

Context `{SD : SampleDeps}.

(** [decodeAndValidateSampleAttrs]; [cty.NilVal] is [None]. *)
Definition decodeAndValidateSampleAttrs (attr : option Attribute)
    (ctx : option (hcl.EvalContext Value))
  : option Value * list (hcl.Diagnostic Value) :=
  match attr with
  | None => (None, [])
  | Some attr =>
      let '(val, diags) := Attribute_Value attr ctx in
      if hcl.HasErrors diags then (Some val, diags)
      else if Value_IsNull val then (Some val, diags)
      else if negb (Value_IsWhollyKnown val) then
        (Some (cty_UnknownVal (Value_Type val)),
         diags ++ [ {| hcl.Severity := hcl.DiagError;
                       hcl.Summary := "sample attributes must be knowable";
                       hcl.Detail := "all sample attributes must be knowable when decoding samples";
                       hcl.Subject := Some (Attribute_NameRange attr);
                       hcl.Context := Some (Attribute_Range attr);
                       hcl.Expression := None;
                       hcl.EvalContext_ := None |} ])
      else if negb (Value_CanIterateElements val) then
        (Some val,
         diags ++ [ {| hcl.Severity := hcl.DiagError;
                       hcl.Summary := "sample attributes must be an object or map";
                       hcl.Detail := "cannot iterate elements of type "
                                     +:+ Type_GoString (Value_Type val);
                       hcl.Subject := Some (Attribute_NameRange attr);
                       hcl.Context := Some (Attribute_Range attr);
                       hcl.Expression := None;
                       hcl.EvalContext_ := None |} ])
      else (Some val, diags)
  end.

Definition duplicateSubset (block : Block) (name : string)
  : hcl.Diagnostic Value :=
  {| hcl.Severity := hcl.DiagError;
     hcl.Summary := "a subset with the same name has already been declared";
     hcl.Detail := "A subset with the name " +:+ name +:+ " has already been defined";
     hcl.Subject := Some (Block_DefRange block);
     hcl.Context := Some (Block_TypeRange block);
     hcl.Expression := None;
     hcl.EvalContext_ := None |}.

(** The loop of [Decode] over the subset blocks: the subsets of the sample
    and the diagnostics when the function returns, from inside the loop or
    after it. *)
Fixpoint decodeSubsets (ctx : option (hcl.EvalContext Value))
    (blocks : list Block) (names : gset string)
    (subsets : list SampleSubset) (diags : list (hcl.Diagnostic Value))
  : list SampleSubset * list (hcl.Diagnostic Value) :=
  match blocks with
  | [] => (subsets, diags)
  | block :: rest =>
      let moreDiags := verifyBlockLabelsAreValidIdentifiers block in
      let diags := diags ++ moreDiags in
      if hcl.HasErrors moreDiags then decodeSubsets ctx rest names subsets diags
      else
        let '(ss, moreDiags) := SampleSubset_decode block ctx in
        let diags := diags ++ moreDiags in
        if hcl.HasErrors moreDiags then (subsets, diags)
        else if bool_decide (SampleSubset_Name ss ∈ names) then
          (subsets, diags ++ [duplicateSubset block (SampleSubset_Name ss)])
        else
          decodeSubsets ctx rest ({[ SampleSubset_Name ss ]} ∪ names)
                        (subsets ++ [ss]) diags
  end.

Definition noSubsets (block : Block) : hcl.Diagnostic Value :=
  {| hcl.Severity := hcl.DiagError;
     hcl.Summary := "sample does not contain any defined subsets";
     hcl.Detail := "a sample must contain one-or-more subsets";
     hcl.Subject := Some (Block_TypeRange block);
     hcl.Context := Some (Block_DefRange block);
     hcl.Expression := None;
     hcl.EvalContext_ := None |}.

(** [Sample.Decode]: the sample afterwards and the diagnostics returned;
    [block.Labels[0]] panics on a block without labels. *)
Definition Sample_Decode (s : Sample) (block : Block)
    (ctx : option (hcl.EvalContext Value))
  : Outcome (Sample * list (hcl.Diagnostic Value)) :=
  name <-! deref (head (Block_Labels block)) ;
  let s := {| SampleName := name; Attributes := Attributes s;
              Subsets := Subsets s |} in
  let '((attributes, blocks), moreDiags) := Block_Content block in
  let diags := moreDiags in
  if hcl.HasErrors moreDiags then Returns (s, diags)
  else
    let '(attrs, moreDiags) :=
      decodeAndValidateSampleAttrs (attributes !! "attributes") ctx in
    let s := {| SampleName := SampleName s; Attributes := attrs;
                Subsets := Subsets s |} in
    let diags := diags ++ moreDiags in
    if hcl.HasErrors moreDiags then Returns (s, diags)
    else
      let subsets :=
        List.filter (fun b => String.eqb (Block_Type b) blockTypeSampleSubset)
                    blocks in
      if (length subsets <? 1)%nat then Returns (s, diags ++ [noSubsets block])
      else
        let '(subs, diags) := decodeSubsets ctx subsets ∅ (Subsets s) diags in
        Returns ({| SampleName := SampleName s; Attributes := Attributes s;
                    Subsets := subs |}, diags).

End Package.

End flightplan.

(** ** A small implementation of the interfaces, to run the code on inputs *)

Module tiny.

(** Values: strings, and objects as chains of attributes. *)
Inductive Val : Type :=
| VString (s : string)
| VEmptyObject
| VAttr (name : string) (v : Val) (rest : Val).

Inductive Ty : Type :=
| TyString
| TyObject
| TyBool
| TyNumber
| TyDynamic.

Definition typeOf (v : Val) : Ty :=
  match v with
  | VString _ => TyString
  | _ => TyObject
  end.

Definition ty_eqb (a b : Ty) : bool :=
  match a, b with
  | TyString, TyString | TyObject, TyObject | TyBool, TyBool
  | TyNumber, TyNumber | TyDynamic, TyDynamic => true
  | _, _ => false
  end.

Fixpoint attrNames (v : Val) : list string :=
  match v with
  | VAttr name _ rest => name :: attrNames rest
  | _ => []
  end.

Fixpoint getAttr (v : Val) (name : string) : option Val :=
  match v with
  | VAttr n x rest => if String.eqb n name then Some x else getAttr rest name
  | _ => None
  end.

(** A variable is looked up in a context and then in its ancestors. *)
Fixpoint lookupVariable (c : hcl.EvalContext Val) (name : string) : option Val :=
  match c with
  | hcl.mkEvalContext vars p =>
      match vars ≫= (fun m => m !! name) with
      | Some v => Some v
      | None =>
          match p with
          | Some c' => lookupVariable c' name
          | None => None
          end
      end
  end.

Fixpoint applySteps (v : Val) (steps : hcl.Traversal Val) : option Val :=
  match steps with
  | [] => Some v
  | hcl.TraverseAttr name :: rest => getAttr v name ≫= (fun x => applySteps x rest)
  | _ :: _ => None
  end.

(** An absolute traversal: the root names a variable, the other steps are
    attribute accesses; anything that cannot be resolved is an error. *)
Definition traverseAbs (t : hcl.Traversal Val) (ctx : option (hcl.EvalContext Val))
  : Val * bool :=
  match t, ctx with
  | hcl.TraverseRoot name :: rest, Some c =>
      match lookupVariable c name ≫= (fun v => applySteps v rest) with
      | Some v => (v, false)
      | None => (VEmptyObject, true)
      end
  | _, _ => (VEmptyObject, true)
  end.

(** The lines of a buffer of ASCII text: [startByte] and [line] are the
    position at which the current line starts, [n] the number of its bytes
    read so far. *)
Fixpoint linesFrom (filename : string) (s : string) (startByte line n : Z)
  : list hcl.Range :=
  let range :=
    {| hcl.Filename := filename;
       hcl.Start := {| hcl.Line := line; hcl.Column := 1; hcl.Byte := startByte |};
       hcl.End_ := {| hcl.Line := line; hcl.Column := 1 + n;
                      hcl.Byte := startByte + n |} |} in
  match s with
  | EmptyString => if 0 <? n then [range] else []
  | String c rest =>
      if Ascii.eqb c (ascii_of_nat 10)
      then range :: linesFrom filename rest (startByte + n + 1) (line + 1) 0
      else linesFrom filename rest startByte line (n + 1)
  end.

Definition dquote : string := String (ascii_of_nat 34) EmptyString.

Definition quote (s : string) : string := dquote +:+ s +:+ dquote.

#[global] Instance lib : Lib :=
  {| Value := Val;
     CtyType := Ty;
     Value_Type := typeOf;
     Value_IsNull := fun _ => false;
     Value_IsKnown := fun _ => true;
     Value_True := fun _ => false;
     Value_AsString := fun v => match v with VString s => s | _ => EmptyString end;
     Value_LengthInt := fun v => Z.of_nat (length (attrNames v));
     Value_BigFloatText := fun _ => "0";
     Type_eqb := ty_eqb;
     cty_Bool := TyBool;
     cty_Number := TyNumber;
     cty_String := TyString;
     cty_DynamicPseudoType := TyDynamic;
     Type_FriendlyName := fun t =>
       match t with
       | TyString => "string" | TyObject => "object" | TyBool => "bool"
       | TyNumber => "number" | TyDynamic => "dynamic"
       end;
     Type_IsPrimitiveType := fun t =>
       match t with TyString | TyBool | TyNumber => true | _ => false end;
     Type_IsCollectionType := fun _ => false;
     Type_IsTupleType := fun _ => false;
     Type_IsObjectType := fun t => match t with TyObject => true | _ => false end;
     Type_AttributeNames := fun _ => [];
     fmt_quote := quote;
     fmt_decimal := fun z => pretty z;
     TraverseAbs := traverseAbs;
     scanLines := fun bytes filename => linesFrom filename bytes 0 1 0;
     ContextString := fun _ _ => EmptyString |}.

(** Blocks, vectors, filters and scenarios. *)
Record TBlock : Type := mkTBlock
  { labels : list string;
    (* the variable that the body of the scenario refers to, if any *)
    uses : option string }.

Definition TVector : Type := list (string * string).

Fixpoint ctyVal (v : TVector) : Val :=
  match v with
  | [] => VEmptyObject
  | (k, x) :: rest => VAttr k (VString x) (ctyVal rest)
  end.

Record TFilter : Type := mkTFilter
  { filterName : string;
    filterInclude : list (string * string) }.

Record TScenario : Type := mkTScenario
  { scenarioName : string;
    scenarioVariants : option TVector }.

Definition noRange : hcl.Range :=
  {| hcl.Filename := "enos.hcl";
     hcl.Start := {| hcl.Line := 1; hcl.Column := 1; hcl.Byte := 0 |};
     hcl.End_ := {| hcl.Line := 1; hcl.Column := 9; hcl.Byte := 8 |} |}.

(** Decoding a scenario: the name is the label of the block; a body that
    uses [matrix.<name>] needs that attribute in the context. *)
Definition scenarioDecode (s : TScenario) (b : TBlock)
    (ctx : hcl.EvalContext Val) (target : Z)
  : TScenario * list (hcl.Diagnostic Val) :=
  let s := {| scenarioName := default EmptyString (head (labels b));
              scenarioVariants := scenarioVariants s |} in
  match uses b with
  | Some name =>
      let t := [hcl.TraverseRoot "matrix"; hcl.TraverseAttr name] in
      if snd (traverseAbs t (Some ctx)) then
        (s, [ {| hcl.Severity := hcl.DiagError;
                 hcl.Summary := "Unsupported attribute";
                 hcl.Detail := EmptyString;
                 hcl.Subject := Some noRange;
                 hcl.Context := None;
                 hcl.Expression := Some [t];
                 hcl.EvalContext_ := Some ctx |} ])
      else (s, [])
  | None => (s, [])
  end.

Definition variantsString (v : TVector) : string :=
  String.concat " " (map (fun '(k, x) => k +:+ ":" +:+ x) v).

Definition scenarioString (s : TScenario) : string :=
  match scenarioVariants s with
  | Some v => scenarioName s +:+ " [" +:+ variantsString v +:+ "]"
  | None => scenarioName s
  end.

(** Subsets of samples: a subset without a scenario filter cannot be
    framed; one whose filter matches nothing has no frame. *)
Record TSubset : Type := mkTSubset
  { subsetName : string;
    subsetScenario : option string }.

Record TSubsetFrame : Type := mkTSubsetFrame
  { frameSampleName : string;
    frameScenario : string }.

Definition subsetFrame (x : TSubset)
  : option TSubsetFrame * option pb.DecodeResponse :=
  match subsetScenario x with
  | None =>
      (None, Some {| pb.Diagnostics :=
                       diagnostics.FromErr (Some "subset has no scenario filter") |})
  | Some sc =>
      if String.eqb sc EmptyString then (None, None)
      else (Some {| frameSampleName := EmptyString; frameScenario := sc |}, None)
  end.

#[global] Instance pkg : flightplan.Pkg :=
  {| flightplan.Block := TBlock;
     flightplan.Block_Labels := labels;
     flightplan.Block_TypeRange := fun _ => noRange;
     flightplan.Block_DefRange := fun _ => noRange;
     flightplan.verifyBlockLabelsAreValidIdentifiers := fun _ => [];
     flightplan.Vector := TVector;
     flightplan.Vector_CtyVal := ctyVal;
     flightplan.ScenarioFilter := TFilter;
     flightplan.ScenarioFilter_Name := filterName;
     flightplan.Scenario := TScenario;
     flightplan.NewScenario := {| scenarioName := EmptyString; scenarioVariants := None |};
     flightplan.Scenario_setVariants := fun s v =>
       {| scenarioName := scenarioName s; scenarioVariants := Some v |};
     flightplan.Scenario_decode := scenarioDecode;
     flightplan.Scenario_String := scenarioString;
     flightplan.unknownModeDetail := fun t => pretty t +:+ " is not a known decode mode";
     flightplan.SampleSubset := TSubset;
     flightplan.SampleSubset_Name := subsetName;
     flightplan.SampleSubsetFrame := TSubsetFrame;
     flightplan.SampleSubsetFrame_setSampleName := fun f n =>
       {| frameSampleName := n; frameScenario := frameScenario f |};
     flightplan.SampleSubset_Frame := subsetFrame |}.

(** The matrix of a block is fixed by a table from labels to vectors; a
    filter keeps the vectors that have all of its elements. *)
Definition hasElement (v : TVector) (e : string * string) : bool :=
  existsb (fun e' => String.eqb e.1 e'.1 && String.eqb e.2 e'.2) v.

Definition filterMatrix (m : flightplan.Matrix) (f : TFilter)
  : option flightplan.Matrix :=
  Some (flightplan.mkMatrix
          (List.filter (fun v => forallb (hasElement v) (filterInclude f))
                       (flightplan.Vectors m))).

Definition matrixOps (table : list (string * list TVector)) : flightplan.MatrixOps :=
  {| flightplan.decodeMatrix := fun _ b =>
       (match head (labels b) with
        | Some l =>
            flightplan.mkMatrix <$>
              (snd <$> List.find (fun e => String.eqb l e.1) table)
        | None => None
        end, []);
     flightplan.Matrix_Filter := filterMatrix |}.

(** Vectors are added at the end; the unique vectors are the first
    occurrences. *)
#[global] Instance matrixAlgebra : flightplan.MatrixAlgebra :=
  {| flightplan.Matrix_AddVector := fun m v =>
       flightplan.mkMatrix (flightplan.Vectors m ++ [v]);
     flightplan.Matrix_UniqueValues := fun m =>
       Some (flightplan.mkMatrix
               (remove_dups (flightplan.Vectors m : list TVector))) |}.

(** Attributes evaluate to a value or fail; values are always known, and
    objects are the values that can be iterated.  The body of a sample
    block is fixed by a table from labels to attributes and subset
    blocks. *)
Record TAttribute : Type := mkTAttribute
  { attrValue : Val;
    attrFails : bool }.

Definition evalError : hcl.Diagnostic Val :=
  {| hcl.Severity := hcl.DiagError;
     hcl.Summary := "Invalid expression";
     hcl.Detail := EmptyString;
     hcl.Subject := Some noRange;
     hcl.Context := None;
     hcl.Expression := None;
     hcl.EvalContext_ := None |}.

Definition sampleDeps
    (table : list (string * (list (string * TAttribute) * list TBlock)))
  : flightplan.SampleDeps :=
  {| flightplan.Attribute := TAttribute;
     flightplan.Attribute_Value := fun a _ =>
       (attrValue a, if attrFails a then [evalError] else []);
     flightplan.Attribute_NameRange := fun _ => noRange;
     flightplan.Attribute_Range := fun _ => noRange;
     flightplan.Value_IsWhollyKnown := fun _ => true;
     flightplan.Value_CanIterateElements := fun v =>
       match v with VString _ => false | _ => true end;
     flightplan.cty_UnknownVal := fun _ => VEmptyObject;
     flightplan.Type_GoString := fun t =>
       match t with TyString => "cty.String" | _ => "cty.Object" end;
     flightplan.Block_Type := fun _ => "subset";
     flightplan.blockTypeSampleSubset := "subset";
     flightplan.Block_Content := fun b =>
       match head (labels b) ≫= (fun l =>
               List.find (fun e => String.eqb l e.1) table) with
       | Some (_, (attrs, blocks)) => ((list_to_map attrs, blocks), [])
       | None => ((∅, []), [])
       end;
     flightplan.SampleSubset_decode := fun b _ =>
       ({| subsetName := default EmptyString (head (labels b));
           subsetScenario := uses b |}, []) |}.

End tiny.

(** ** Inputs on which the code is run below *)

Module examples.

(** An error of the engine that has no source range, as the engine reports
    errors that do not come from the configuration. *)
Definition tfDiagnosticWithoutRange : tfjson.Diagnostic :=
  {| tfjson.Severity := "error";
     tfjson.Summary := "Error acquiring the state lock";
     tfjson.Detail := EmptyString;
     tfjson.Range_ := None;
     tfjson.Snippet := None |}.

Definition pos (line column byte : Z) : hcl.Pos :=
  {| hcl.Line := line; hcl.Column := column; hcl.Byte := byte |}.

(** A file of three lines. *)
Definition source : string :=
  "a = 1" +:+ diagnostics.LF +:+ "b = foo.bar" +:+ diagnostics.LF
  +:+ "c = 3" +:+ diagnostics.LF.

Definition files : gmap string hcl.File :=
  {[ "enos.hcl" := {| hcl.Bytes := Some source |} ]}.

(** A context in which [foo] is an object with the attribute [baz]. *)
Definition ctx : hcl.EvalContext tiny.Val :=
  hcl.mkEvalContext
    (Some {[ "foo" := tiny.VAttr "baz" (tiny.VString "x") tiny.VEmptyObject ]})
    None.

(** [foo.bar] on line 2, bytes 10 to 17. *)
Definition subject : hcl.Range :=
  {| hcl.Filename := "enos.hcl";
     hcl.Start := pos 2 5 10;
     hcl.End_ := pos 2 12 17 |}.

Definition diag : hcl.Diagnostic tiny.Val :=
  {| hcl.Severity := hcl.DiagError;
     hcl.Summary := "Unsupported attribute";
     hcl.Detail := "This object does not have an attribute named bar.";
     hcl.Subject := Some subject;
     hcl.Context := None;
     hcl.Expression := Some [[hcl.TraverseRoot "foo"; hcl.TraverseAttr "bar"]];
     hcl.EvalContext_ := Some ctx |}.

Definition snippet : pb.Diagnostic_Snippet :=
  {| pb.Context := EmptyString;
     pb.Code := "b = foo.bar";
     pb.StartLine := 2;
     pb.HighlightStartOffset := 4;
     pb.HighlightEndOffset := 11;
     pb.Values := [] |}.

(** The same diagnostic with a subject that ends, at byte 8, before it
    starts. *)
Definition invertedSubject : hcl.Range :=
  {| hcl.Filename := "enos.hcl";
     hcl.Start := pos 2 5 10;
     hcl.End_ := pos 2 3 8 |}.

Definition invertedDiag : hcl.Diagnostic tiny.Val :=
  {| hcl.Severity := hcl.DiagError;
     hcl.Summary := "Unsupported attribute";
     hcl.Detail := EmptyString;
     hcl.Subject := Some invertedSubject;
     hcl.Context := None;
     hcl.Expression := None;
     hcl.EvalContext_ := None |}.

(** A diagnostic whose expression refers to the variable [foo] alone. *)
Definition rootOnlyDiag : hcl.Diagnostic tiny.Val :=
  {| hcl.Severity := hcl.DiagError;
     hcl.Summary := "Invalid operand";
     hcl.Detail := EmptyString;
     hcl.Subject := Some subject;
     hcl.Context := None;
     hcl.Expression := Some [[hcl.TraverseRoot "foo"]];
     hcl.EvalContext_ := Some ctx |}.

(** A scenario block [test] whose body uses [matrix.foo], with a matrix of
    two vectors, and a filter for one of them and for none of them. *)
Definition block : tiny.TBlock :=
  {| tiny.labels := ["test"]; tiny.uses := Some "foo" |}.

Definition table : list (string * list tiny.TVector) :=
  [("test", [[("foo", "matrixfoo")]; [("foo", "matrixbar")]]);
   ("other", [[("arch", "arm64")]])].

#[global] Instance ops : flightplan.MatrixOps := tiny.matrixOps table.

Definition matrix : flightplan.Matrix :=
  {| flightplan.Vectors := [[("foo", "matrixfoo")]; [("foo", "matrixbar")]] |}.

Definition emptyMatrix : flightplan.Matrix :=
  {| flightplan.Vectors := [] |}.

Definition filterBar : tiny.TFilter :=
  {| tiny.filterName := "test"; tiny.filterInclude := [("foo", "matrixbar")] |}.

Definition filterNone : tiny.TFilter :=
  {| tiny.filterName := "test"; tiny.filterInclude := [("foo", "matrixbaz")] |}.

Definition decoder (target : Z) (f : option tiny.TFilter)
  : flightplan.ScenarioDecoder :=
  {| flightplan.EvalContext := Some (hcl.mkEvalContext None None);
     flightplan.DecodeTarget_ := target;
     flightplan.ScenarioFilter_ := f |}.

Definition scenarioBlock (b : tiny.TBlock) (target : Z)
  : flightplan.DecodedScenarioBlock :=
  {| flightplan.Name := default EmptyString (head (tiny.labels b));
     flightplan.Block_ := b;
     flightplan.BlockDecodeTarget := target;
     flightplan.Matrix_ := None;
     flightplan.Scenarios := [];
     flightplan.Diagnostics := [] |}.

(** A block [other] whose body uses [matrix.foo], which its only vector
    [arch:arm64] does not have: its scenario decodes with an error. *)
Definition failingBlock : flightplan.DecodedScenarioBlock :=
  {| flightplan.Name := "other";
     flightplan.Block_ := {| tiny.labels := ["other"]; tiny.uses := Some "foo" |};
     flightplan.BlockDecodeTarget := flightplan.DecodeTargetScenariosComplete;
     flightplan.Matrix_ := Some (flightplan.mkMatrix [[("arch", "arm64")]]);
     flightplan.Scenarios := [];
     flightplan.Diagnostics := [] |}.

(** A sample with three subsets; the third cannot be framed. *)
Definition subsetA : tiny.TSubset :=
  {| tiny.subsetName := "a"; tiny.subsetScenario := Some "smoke" |}.
Definition subsetB : tiny.TSubset :=
  {| tiny.subsetName := "b"; tiny.subsetScenario := Some "upgrade" |}.
Definition subsetC : tiny.TSubset :=
  {| tiny.subsetName := "c"; tiny.subsetScenario := None |}.

Definition sample : flightplan.Sample :=
  {| flightplan.SampleName := "nightly";
     flightplan.Attributes := None;
     flightplan.Subsets := [subsetA; subsetB; subsetC] |}.

Definition sampleFilter (incl excl : option (list string))
  : option flightplan.Sample_Filter :=
  Some {| flightplan.FilterSubsets := incl;
          flightplan.FilterExcludeSubsets := excl |}.

(** A warning of the engine with range and snippet. *)
Definition tfWarning : tfjson.Diagnostic :=
  {| tfjson.Severity := "warning";
     tfjson.Summary := "Deprecated attribute";
     tfjson.Detail := "The attribute is deprecated.";
     tfjson.Range_ :=
       Some {| tfjson.Filename := "main.tf";
               tfjson.Start := {| tfjson.Line := 3; tfjson.Column := 3; tfjson.Byte := 20 |};
               tfjson.End_ := {| tfjson.Line := 3; tfjson.Column := 9; tfjson.Byte := 26 |} |};
     tfjson.Snippet :=
       Some {| tfjson.Context := Some "resource";
               tfjson.Code := "  region = var.region";
               tfjson.StartLine := 3;
               tfjson.HighlightStartOffset := 2;
               tfjson.HighlightEndOffset := 8;
               tfjson.Values :=
                 [ {| tfjson.Traversal := "var.region";
                      tfjson.Statement := "is a string" |} ] |} |}.

(** The body of the sample block [nightly]: attributes and two subsets. *)
Definition sampleBlock : tiny.TBlock :=
  {| tiny.labels := ["nightly"]; tiny.uses := None |}.

Definition sampleTable
  : list (string * (list (string * tiny.TAttribute) * list tiny.TBlock)) :=
  [("nightly",
    ([("attributes",
       {| tiny.attrValue := tiny.VAttr "aws_region" (tiny.VString "us-east-1")
                                       tiny.VEmptyObject;
          tiny.attrFails := false |})],
     [ {| tiny.labels := ["a"]; tiny.uses := Some "smoke" |};
       {| tiny.labels := ["b"]; tiny.uses := Some "upgrade" |} ]))].

#[global] Instance sampleDeps : flightplan.SampleDeps := tiny.sampleDeps sampleTable.

Definition newSample : flightplan.Sample :=
  {| flightplan.SampleName := EmptyString;
     flightplan.Attributes := None;
     flightplan.Subsets := [] |}.

End examples.

(** ** Notions used to state the properties *)

Module spec.

(** [x] is not above [y]. *)
Definition notAbove {A} (key : A -> string) (x y : A) : Prop :=
  String.ltb (key y) (key x) = false.

(** The decoder that [NewScenarioDecoder] starts from, with the options
    applied in order. *)
Definition configured `{P : flightplan.Pkg}
    (opts : list flightplan.ScenarioDecoderOpt) : flightplan.ScenarioDecoder :=
  foldl (fun d opt => opt d)
        {| flightplan.EvalContext := Some (hcl.mkEvalContext None None);
           flightplan.DecodeTarget_ := flightplan.DecodeTargetUnset;
           flightplan.ScenarioFilter_ := None |}
        opts.

(** The vectors of the matrices of blocks, in order. *)
Definition allVectors `{P : flightplan.Pkg}
    (d : list flightplan.DecodedScenarioBlock) : list flightplan.Vector :=
  concat (map (fun sb => match flightplan.Matrix_ sb with
                         | Some m => flightplan.Vectors m
                         | None => []
                         end) d).

(** The number of scenarios that a block asks for: one for each vector, or
    one without vectors. *)
Definition wanted `{P : flightplan.Pkg} (m : option flightplan.Matrix) : nat :=
  if flightplan.noVectors m then 1%nat
  else match m with Some mtx => length (flightplan.Vectors mtx) | None => 1%nat end.

(** A diagnostic of the engine with all three pointers set. *)
Definition complete (din : tfjson.Diagnostic) : Prop :=
  exists rng snip context,
    tfjson.Range_ din = Some rng /\ tfjson.Snippet din = Some snip /\
    tfjson.Context snip = Some context.

(** A diagnostic of the engine with a nil pointer among the three. *)
Definition incomplete (din : tfjson.Diagnostic) : Prop :=
  tfjson.Range_ din = None \/ tfjson.Snippet din = None \/
  (exists snip, tfjson.Snippet din = Some snip /\ tfjson.Context snip = None).

(** [d] carries the fields of [din] as they are. *)
Definition translated (din : tfjson.Diagnostic) (d : pb.Diagnostic) : Prop :=
  exists rng snip context,
    tfjson.Range_ din = Some rng /\ tfjson.Snippet din = Some snip /\
    tfjson.Context snip = Some context /\
    pb.Severity d = diagnostics.severityFromTFJSON (tfjson.Severity din) /\
    pb.Summary d = tfjson.Summary din /\
    pb.Detail d = tfjson.Detail din /\
    pb.Range_ d
    = Some {| pb.Filename := tfjson.Filename rng;
              pb.Start := Some {| pb.Line := tfjson.Line (tfjson.Start rng);
                                  pb.Column := tfjson.Column (tfjson.Start rng);
                                  pb.Byte := tfjson.Byte (tfjson.Start rng) |};
              pb.End_ := Some {| pb.Line := tfjson.Line (tfjson.End_ rng);
                                 pb.Column := tfjson.Column (tfjson.End_ rng);
                                 pb.Byte := tfjson.Byte (tfjson.End_ rng) |} |} /\
    pb.Snippet d
    = Some {| pb.Context := context;
              pb.Code := tfjson.Code snip;
              pb.StartLine := tfjson.StartLine snip;
              pb.HighlightStartOffset := tfjson.HighlightStartOffset snip;
              pb.HighlightEndOffset := tfjson.HighlightEndOffset snip;
              pb.Values :=
                map (fun e => {| pb.Traversal := tfjson.Traversal e;
                                 pb.Statement := tfjson.Statement e |})
                    (tfjson.Values snip) |}.

Section Diagnostics.

Context `{L : Lib}.

(** The longest prefix of a traversal, among those of length [k + 1] down
    to 2, that evaluates without errors, with its value. *)
Fixpoint longestGoodPrefix (ctx : option (hcl.EvalContext Value)) (k : nat)
    (t : hcl.Traversal Value) : option (hcl.Traversal Value * Value) :=
  match k with
  | O => None
  | S k' =>
      let p := take (S k) t in
      let '(val, hasErrors) := TraverseAbs p ctx in
      if hasErrors then longestGoodPrefix ctx k' t else Some (p, val)
  end.

(** What the walk adds for a traversal: nothing, or one annotation for the
    longest good prefix if its string has not been seen. *)
Definition annotate (ctx : option (hcl.EvalContext Value))
    (t : hcl.Traversal Value) (st : diagnostics.WalkState) : diagnostics.WalkState :=
  match longestGoodPrefix ctx (length t - 1) t with
  | None => st
  | Some (p, val) =>
      let s := diagnostics.traversalStr p in
      if bool_decide (s ∈ st.2) then st
      else (st.1 ++ [ {| pb.Traversal := s;
                         pb.Statement := diagnostics.statementOf val |} ],
            {[ s ]} ∪ st.2)
  end.

(** The subject of a diagnostic does not end before it starts (an unset end
    counts as the start), and its offsets leave room for one more byte. *)
Definition subjectInOrder (subject : hcl.Range) : Prop :=
  0 <= hcl.Byte (hcl.Start subject) < 2 ^ 63 - 1 /\
  (hcl.Pos_isZero (hcl.End_ subject) = true \/
   hcl.Byte (hcl.Start subject) <= hcl.Byte (hcl.End_ subject) < 2 ^ 63 - 1).

(** The scanner reports lines that start at offsets of an [int]. *)
Definition startInRange (r : hcl.Range) : bool :=
  (0 <=? hcl.Byte (hcl.Start r)) && (hcl.Byte (hcl.Start r) <? 2 ^ 63).

Definition linesInRange (bytes filename : string) : Prop :=
  forallb startInRange (scanLines bytes filename) = true.

Definition diagnosticInOrder (files : gmap string hcl.File)
    (diag : hcl.Diagnostic Value) : Prop :=
  forall subject, hcl.Subject diag = Some subject ->
    subjectInOrder subject /\
    forall file bytes,
      files !! hcl.Filename subject = Some file ->
      hcl.Bytes file = Some bytes ->
      linesInRange bytes (hcl.Filename subject).

(** An annotation of a list of traversals: it renders a prefix, of two
    steps or more, of one of them, and that prefix evaluates without
    errors to the value the statement is about. *)
Definition annotates (ctx : option (hcl.EvalContext Value))
    (vars : list (hcl.Traversal Value)) (v : pb.Diagnostic_ExpressionValue)
  : Prop :=
  exists t n val,
    In t vars /\ (2 <= n <= length t)%nat /\
    TraverseAbs (take n t) ctx = (val, false) /\
    pb.Traversal v = diagnostics.traversalStr (take n t) /\
    pb.Statement v = diagnostics.statementOf val.

(** What the loop over the traversals keeps true. *)
Definition walkInvariant (ctx : option (hcl.EvalContext Value))
    (vars : list (hcl.Traversal Value)) (n : nat) (st : diagnostics.WalkState)
  : Prop :=
  NoDup (map pb.Traversal st.1) /\
  (forall s, s ∈ st.2 <-> In s (map pb.Traversal st.1)) /\
  Forall (annotates ctx vars) st.1 /\
  (length st.1 <= n)%nat.

End Diagnostics.

Section Samples.

Context `{P : flightplan.Pkg}.

Definition named (names : list string) (x : flightplan.SampleSubset) : bool :=
  existsb (String.eqb (flightplan.SampleSubset_Name x)) names.

(** The reduction as the specification words it: the subsets of the sample
    that the include list names, in the order of the sample, without those
    that the exclude list names. *)
Definition filterSubsetsAsStated (s : flightplan.Sample)
    (filter : option flightplan.Sample_Filter) : list flightplan.SampleSubset :=
  let included :=
    match filter ≫= flightplan.GetSubsets with
    | Some incl => List.filter (named incl) (flightplan.Subsets s)
    | None => flightplan.Subsets s
    end in
  match filter ≫= flightplan.GetExcludeSubsets with
  | Some excl => List.filter (fun x => negb (named excl x)) included
  | None => included
  end.

(** The first subset with a name. *)
Definition firstNamed (subsets : list flightplan.SampleSubset) (name : string)
  : option flightplan.SampleSubset :=
  List.find (fun x => String.eqb name (flightplan.SampleSubset_Name x)) subsets.

(** For each name of the include list, in the order of that list, the first
    subset of the sample with the name; all subsets without an include
    list. *)
Definition included (s : flightplan.Sample)
    (filter : option flightplan.Sample_Filter) : list flightplan.SampleSubset :=
  match filter ≫= flightplan.GetSubsets with
  | Some incl => omap (firstNamed (flightplan.Subsets s)) incl
  | None => flightplan.Subsets s
  end.

(** A list without its first subset with a name. *)
Fixpoint removeFirstNamed (name : string) (l : list flightplan.SampleSubset)
  : list flightplan.SampleSubset :=
  match l with
  | [] => []
  | x :: rest =>
      if String.eqb name (flightplan.SampleSubset_Name x) then rest
      else x :: removeFirstNamed name rest
  end.

(** The included subsets after removing, for each name of the exclude list
    in turn, the first subset with that name. *)
Definition reduced (s : flightplan.Sample)
    (filter : option flightplan.Sample_Filter) : list flightplan.SampleSubset :=
  foldl (fun l name => removeFirstNamed name l) (included s filter)
        (default [] (filter ≫= flightplan.GetExcludeSubsets)).

(** The names of the subsets that have a frame. *)
Definition framedName (subsets : list flightplan.SampleSubset) (name : string)
  : Prop :=
  exists x, In x subsets /\ flightplan.SampleSubset_Name x = name /\
            is_Some (flightplan.SampleSubset_Frame x).1.

End Samples.

Section Decoder.

Context `{P : flightplan.Pkg}.

(** The block that a scenario block starts as. *)
Definition initialBlock (d : flightplan.ScenarioDecoder) (b : flightplan.Block)
    (sb : flightplan.DecodedScenarioBlock) : Prop :=
  head (flightplan.Block_Labels b) = Some (flightplan.Name sb) /\
  flightplan.Block_ sb = b /\
  flightplan.BlockDecodeTarget sb = flightplan.DecodeTarget_ d /\
  flightplan.Matrix_ sb = None /\
  flightplan.Scenarios sb = [] /\
  flightplan.Diagnostics sb = flightplan.verifyBlockLabelsAreValidIdentifiers b.

(** [sb'] is [sb] after [k] scenarios have been decoded for it: the
    scenarios kept and the diagnostics are added at the end, at most [k]
    scenarios are added, and exactly [k] when the diagnostics added have
    no errors. *)
Definition decodedFrom (k : nat) (sb sb' : flightplan.DecodedScenarioBlock)
  : Prop :=
  flightplan.Name sb' = flightplan.Name sb /\
  flightplan.Block_ sb' = flightplan.Block_ sb /\
  flightplan.Matrix_ sb' = flightplan.Matrix_ sb /\
  exists added more,
    flightplan.Scenarios sb' = flightplan.Scenarios sb ++ added /\
    flightplan.Diagnostics sb' = flightplan.Diagnostics sb ++ more /\
    (length added <= k)%nat /\
    (hcl.HasErrors more = false -> length added = k).

(** The target and the filter of a decoder are those of another. *)
Definition sameConfig (d d' : flightplan.ScenarioDecoder) : Prop :=
  flightplan.DecodeTarget_ d' = flightplan.DecodeTarget_ d /\
  flightplan.ScenarioFilter_ d' = flightplan.ScenarioFilter_ d.

(** The number of ancestors of the context of a decoder, counting the
    context itself. *)
Definition chain (c : option (hcl.EvalContext Value)) : nat :=
  match c with
  | Some c => S (hcl.depth c)
  | None => 0%nat
  end.

End Decoder.

End spec.

(** ** Properties of the diagnostics package *)

(** C9.  [FromErr] of a non-nil error is exactly one diagnostic: severity
    error, summary the message of the error, no range (and no detail or
    snippet); [FromErr] of the nil error is no diagnostics. *)
Theorem FromErr_one_error_diagnostic :
  (forall msg : string,
      exists d, diagnostics.FromErr (Some msg) = [d] /\
                pb.Severity d = pb.Diagnostic_SEVERITY_ERROR /\
                pb.Summary d = msg /\
                pb.Range_ d = None) /\
  diagnostics.FromErr None = [].
Proof.
  split; [| reflexivity].
  intros msg. eexists. split; [reflexivity |]. repeat split.
Qed.

(** *** [FromTFJSON] *)

Lemma mapO_returns {A B} (f : A -> Outcome B) (g : A -> B) (l : list A) :
  Forall (fun x => f x = Returns (g x)) l -> mapO f l = Returns (map g l).
Proof.
  induction 1 as [| x l Hx _ IH]; simpl; [reflexivity |].
  rewrite Hx. simpl. rewrite IH. reflexivity.
Qed.

Lemma mapO_panics {A B} (f : A -> Outcome B) (l : list A) (x : A) :
  In x l -> f x = Panics -> mapO f l = Panics.
Proof.
  induction l as [| y l IH]; simpl; [tauto |].
  intros [-> | Hin] Hx.
  - rewrite Hx. reflexivity.
  - destruct (f y); simpl; [| reflexivity]. rewrite (IH Hin Hx). reflexivity.
Qed.

Lemma translateTFJSON_complete din :
  spec.complete din ->
  exists d, diagnostics.translateTFJSON din = Returns d /\
            pb.Severity d = diagnostics.severityFromTFJSON (tfjson.Severity din) /\
            pb.Summary d = tfjson.Summary din /\
            pb.Detail d = tfjson.Detail din.
Proof.
  intros (rng & snip & context & Hr & Hs & Hc).
  unfold diagnostics.translateTFJSON. rewrite Hr, Hs. simpl. rewrite Hc. simpl.
  eexists. split; [reflexivity |]. repeat split.
Qed.

Lemma translateTFJSON_incomplete din :
  tfjson.Range_ din = None \/ tfjson.Snippet din = None \/
  (exists snip, tfjson.Snippet din = Some snip /\ tfjson.Context snip = None) ->
  diagnostics.translateTFJSON din = Panics.
Proof.
  unfold diagnostics.translateTFJSON.
  intros [Hr | [Hs | (snip & Hs & Hc)]].
  - rewrite Hr. reflexivity.
  - rewrite Hs. destruct (tfjson.Range_ din); reflexivity.
  - rewrite Hs. destruct (tfjson.Range_ din); simpl; [| reflexivity].
    rewrite Hc. reflexivity.
Qed.

(** On inputs with all pointers set, [FromTFJSON] returns one diagnostic
    per input, in order. *)
Lemma FromTFJSON_complete (input : list tfjson.Diagnostic) :
  Forall spec.complete input ->
  exists out, diagnostics.FromTFJSON input = Returns out /\
              length out = length input.
Proof.
  intros Hall.
  assert (exists out, mapO diagnostics.translateTFJSON input = Returns out /\
                      length out = length input) as (out & Hout & Hlen).
  { induction Hall as [| din l Hd _ (out & Hout & Hlen)]; simpl.
    - exists []. split; reflexivity.
    - destruct (translateTFJSON_complete din Hd) as (d & Hd' & _).
      rewrite Hd'. simpl. rewrite Hout. simpl.
      exists (d :: out). split; [reflexivity |]. simpl. congruence. }
  exists out. split; [| exact Hlen].
  unfold diagnostics.FromTFJSON. destruct input; [| exact Hout].
  simpl in Hout. exact Hout.
Qed.

(** A diagnostic with a nil pointer anywhere in the input makes
    [FromTFJSON] panic. *)
Lemma FromTFJSON_incomplete (input : list tfjson.Diagnostic) din :
  In din input ->
  tfjson.Range_ din = None \/ tfjson.Snippet din = None \/
  (exists snip, tfjson.Snippet din = Some snip /\ tfjson.Context snip = None) ->
  diagnostics.FromTFJSON input = Panics.
Proof.
  intros Hin Hnil. unfold diagnostics.FromTFJSON.
  destruct input as [| x l]; [destruct Hin |].
  eapply mapO_panics; [exact Hin |].
  apply translateTFJSON_incomplete. exact Hnil.
Qed.

(** C10.  [FromTFJSON] is not total: on a diagnostic without range it
    panics instead of returning a translated diagnostic; so it does on a
    diagnostic with a range but no snippet, and on one with a snippet
    without context. *)
Theorem FromTFJSON_panics_without_range :
  diagnostics.FromTFJSON [examples.tfDiagnosticWithoutRange] = Panics /\
  (forall rng,
      diagnostics.FromTFJSON
        [ {| tfjson.Severity := "error"; tfjson.Summary := "s";
             tfjson.Detail := EmptyString; tfjson.Range_ := Some rng;
             tfjson.Snippet := None |} ] = Panics) /\
  (forall rng code,
      diagnostics.FromTFJSON
        [ {| tfjson.Severity := "warning"; tfjson.Summary := "s";
             tfjson.Detail := EmptyString; tfjson.Range_ := Some rng;
             tfjson.Snippet :=
               Some {| tfjson.Context := None; tfjson.Code := code;
                       tfjson.StartLine := 1;
                       tfjson.HighlightStartOffset := 0;
                       tfjson.HighlightEndOffset := 0;
                       tfjson.Values := [] |} |} ] = Panics).
Proof.
  repeat split; reflexivity.
Qed.

(** *** [FromHCL]: highlight offsets *)

Lemma wrap64_id (z : Z) : int64_range z -> wrap64 z = z.
Proof.
  unfold int64_range, wrap64. intros H.
  rewrite Z.mod_small; lia.
Qed.

Section FromHCLProperties.

Context `{L : Lib}.

Lemma capOffset_bounds (x : Z) (code : string) :
  0 <= diagnostics.capOffset x code <= len code.
Proof.
  unfold diagnostics.capOffset, len.
  destruct (Z.ltb_spec x 0); [lia |].
  destruct (Z.gtb_spec x (Z.of_nat (String.length code))); lia.
Qed.

Lemma capOffset_mono (x y : Z) (code : string) :
  x <= y -> diagnostics.capOffset x code <= diagnostics.capOffset y code.
Proof.
  unfold diagnostics.capOffset, len. intros Hxy.
  destruct (Z.ltb_spec x 0), (Z.ltb_spec y 0),
    (Z.gtb_spec x (Z.of_nat (String.length code))),
    (Z.gtb_spec y (Z.of_nat (String.length code))); lia.
Qed.

(** The start byte of the code is 0 or the start of a scanned line. *)
Lemma scanCode_start bytes snippetRange lines c code :
  forallb spec.startInRange lines = true ->
  0 <= c < 2 ^ 63 ->
  0 <= (diagnostics.scanCode bytes snippetRange lines c code).1 < 2 ^ 63.
Proof.
  revert c code.
  induction lines as [| r lines IH]; intros c code Hall Hc; simpl; [exact Hc |].
  simpl in Hall. apply andb_prop in Hall as [Hr Hall].
  unfold spec.startInRange in Hr. apply andb_prop in Hr as [Hr1 Hr2].
  apply Z.leb_le in Hr1. apply Z.ltb_lt in Hr2.
  destruct (hcl.Overlaps r snippetRange); [| apply IH; assumption].
  apply IH; [exact Hall |].
  destruct ((c =? 0) && (len code =? 0)); [split |]; assumption.
Qed.

(** The highlighted range keeps the start of the subject and, for a subject
    in order, ends at or after it. *)
Lemma highlightRangeOf_start subject :
  hcl.Byte (hcl.Start (diagnostics.highlightRangeOf subject))
  = hcl.Byte (hcl.Start subject).
Proof.
  unfold diagnostics.highlightRangeOf.
  destruct (hcl.Pos_isZero (hcl.End_ subject));
    match goal with |- context [if ?b then _ else _] => destruct b end;
    reflexivity.
Qed.

Lemma highlightRangeOf_end subject :
  spec.subjectInOrder subject ->
  hcl.Byte (hcl.Start subject)
  <= hcl.Byte (hcl.End_ (diagnostics.highlightRangeOf subject)) < 2 ^ 63.
Proof.
  intros [Hs He]. unfold diagnostics.highlightRangeOf.
  destruct (hcl.Pos_isZero (hcl.End_ subject)) eqn:Hz.
  - unfold hcl.Range_Empty. simpl. rewrite Z.eqb_refl. simpl.
    rewrite wrap64_id; unfold int64_range; lia.
  - destruct He as [He | He]; [discriminate |].
    unfold hcl.Range_Empty.
    destruct (Z.eqb_spec (hcl.Byte (hcl.Start subject))
                         (hcl.Byte (hcl.End_ subject))) as [Heq | Hne]; simpl.
    + rewrite wrap64_id; unfold int64_range; lia.
    + lia.
Qed.

Lemma snippetOf_bounds bytes diag subject :
  let sn := diagnostics.snippetOf bytes diag subject in
  0 <= pb.HighlightStartOffset sn <= len (pb.Code sn) /\
  0 <= pb.HighlightEndOffset sn <= len (pb.Code sn).
Proof.
  unfold diagnostics.snippetOf.
  destruct (diagnostics.scanCode _ _ _ _ _) as [c code]. simpl.
  split; apply capOffset_bounds.
Qed.

Lemma snippetOf_ordered bytes diag subject :
  spec.subjectInOrder subject ->
  spec.linesInRange bytes (hcl.Filename subject) ->
  let sn := diagnostics.snippetOf bytes diag subject in
  pb.HighlightStartOffset sn <= pb.HighlightEndOffset sn.
Proof.
  intros Hord Hlines. unfold diagnostics.snippetOf.
  assert (Hname : hcl.Filename (diagnostics.highlightRangeOf subject)
                  = hcl.Filename subject).
  { unfold diagnostics.highlightRangeOf.
    destruct (hcl.Pos_isZero (hcl.End_ subject));
      match goal with |- context [if ?b then _ else _] => destruct b end;
      reflexivity. }
  rewrite Hname.
  pose proof (scanCode_start bytes
                (diagnostics.snippetRangeOf subject (hcl.Context diag))
                (scanLines bytes (hcl.Filename subject)) 0 EmptyString
                Hlines ltac:(lia)) as Hc.
  destruct (diagnostics.scanCode _ _ _ _ _) as [c code]. simpl in Hc |- *.
  pose proof (highlightRangeOf_end subject Hord) as He.
  rewrite highlightRangeOf_start.
  destruct Hord as [Hs _].
  set (hs := hcl.Byte (hcl.Start subject)) in *.
  set (he := hcl.Byte (hcl.End_ (diagnostics.highlightRangeOf subject))) in *.
  apply capOffset_mono.
  rewrite (wrap64_id (hs - c)) by (unfold int64_range; lia).
  rewrite (wrap64_id (he - hs)) by (unfold int64_range; lia).
  rewrite wrap64_id by (unfold int64_range; lia).
  lia.
Qed.

(** C6, amended.  The snippet of every diagnostic that [FromHCL] produces
    has both highlight offsets within [0, len(code)]; the end offset is not
    before the start offset when the subject of the diagnostic does not end
    before it starts. *)
Theorem FromHCL_highlight_offsets (files : gmap string hcl.File)
    (diags : list (hcl.Diagnostic Value)) (diag : hcl.Diagnostic Value)
    (sn : pb.Diagnostic_Snippet) :
  In diag diags ->
  pb.Snippet (diagnostics.fromHCLDiagnostic files diag) = Some sn ->
  In (diagnostics.fromHCLDiagnostic files diag) (diagnostics.FromHCL files diags) /\
  (0 <= pb.HighlightStartOffset sn <= len (pb.Code sn) /\
   0 <= pb.HighlightEndOffset sn <= len (pb.Code sn)) /\
  (spec.diagnosticInOrder files diag ->
   pb.HighlightStartOffset sn <= pb.HighlightEndOffset sn).
Proof.
  intros Hin Hsn.
  split; [apply in_map; exact Hin |].
  unfold diagnostics.fromHCLDiagnostic in Hsn. simpl in Hsn.
  destruct (hcl.Subject diag) as [subject |] eqn:Hsub; [| discriminate].
  destruct (files !! hcl.Filename subject) as [file |] eqn:Hfile; [| discriminate].
  destruct (hcl.Bytes file) as [bytes |] eqn:Hbytes; [| discriminate].
  injection Hsn as <-.
  split; [apply snippetOf_bounds |].
  intros Hord. destruct (Hord subject Hsub) as [Hsubj Hlines].
  apply snippetOf_ordered; [exact Hsubj | exact (Hlines file bytes Hfile Hbytes)].
Qed.

End FromHCLProperties.

(** The diagnostic for [foo.bar] on line 2 of the example file: offsets 4
    and 11 in the code [b = foo.bar]. *)
Lemma FromHCL_highlight_offsets_witness :
  In examples.diag [examples.diag] /\
  pb.Snippet (diagnostics.fromHCLDiagnostic examples.files examples.diag)
  = Some examples.snippet /\
  spec.diagnosticInOrder examples.files examples.diag /\
  In (diagnostics.fromHCLDiagnostic examples.files examples.diag)
     (diagnostics.FromHCL examples.files [examples.diag]) /\
  (0 <= pb.HighlightStartOffset examples.snippet <= len (pb.Code examples.snippet) /\
   0 <= pb.HighlightEndOffset examples.snippet <= len (pb.Code examples.snippet)) /\
  pb.HighlightStartOffset examples.snippet <= pb.HighlightEndOffset examples.snippet.
Proof.
  assert (Hin : In examples.diag [examples.diag]) by (left; reflexivity).
  assert (Hsn : pb.Snippet (diagnostics.fromHCLDiagnostic examples.files examples.diag)
                = Some examples.snippet) by (vm_compute; reflexivity).
  assert (Hord : spec.diagnosticInOrder examples.files examples.diag).
  { intros subject [= <-]. split.
    - unfold spec.subjectInOrder. simpl. lia.
    - intros file bytes Hfile Hbytes.
      assert (Hf : examples.files !! hcl.Filename examples.subject
                   = Some {| hcl.Bytes := Some examples.source |})
        by (vm_compute; reflexivity).
      rewrite Hf in Hfile.
      injection Hfile as <-. injection Hbytes as <-.
      vm_compute. reflexivity. }
  destruct (FromHCL_highlight_offsets (L := tiny.lib) examples.files [examples.diag]
              examples.diag examples.snippet Hin Hsn) as (H1 & H2 & H3).
  exact (conj Hin (conj Hsn (conj Hord (conj H1 (conj H2 (H3 Hord)))))).
Defined.

(** C6 as stated fails: for a subject that ends before it starts the end
    offset of the snippet is before its start offset. *)
Lemma FromHCL_highlight_offsets_counterexample :
  exists d sn,
    In d (diagnostics.FromHCL examples.files [examples.invertedDiag]) /\
    pb.Snippet d = Some sn /\
    pb.HighlightStartOffset sn = 4 /\
    pb.HighlightEndOffset sn = 2 /\
    pb.HighlightEndOffset sn < pb.HighlightStartOffset sn.
Proof.
  eexists. eexists. split; [left; reflexivity |].
  split; [vm_compute; reflexivity |].
  repeat split.
Qed.

(** *** [FromHCL]: the annotation walk *)

Section WalkProperties.

Context `{L : Lib}.

Lemma longestGoodPrefix_take ctx k m (t : hcl.Traversal Value) :
  (S k <= m)%nat ->
  spec.longestGoodPrefix ctx k (take m t) = spec.longestGoodPrefix ctx k t.
Proof.
  induction k as [| k IH]; intros Hm; simpl; [reflexivity |].
  rewrite take_take. replace (S (S k) `min` m)%nat with (S (S k)) by lia.
  destruct (TraverseAbs (take (S (S k)) t) ctx) as [val err].
  destruct err; [apply IH; lia | reflexivity].
Qed.

Lemma removelast_take {A} (l : list A) : removelast l = take (length l - 1) l.
Proof.
  rewrite removelast_firstn_len. f_equal. lia.
Qed.

Lemma walkFuel_S fuel ctx (t : hcl.Traversal Value) st :
  diagnostics.walkFuel (S fuel) ctx t st
  = match diagnostics.walkStep ctx t st with
    | inl (t', st') => diagnostics.walkFuel fuel ctx t' st'
    | inr st' => Some st'
    end.
Proof. reflexivity. Qed.

(** The inner loop ends within [S (length t)] turns and does what
    [spec.annotate] says. *)
Lemma walkFuel_enough ctx (n : nat) :
  forall (t : hcl.Traversal Value) (st : diagnostics.WalkState) (extra : nat),
    length t = n ->
    diagnostics.walkFuel (S (n + extra)) ctx t st = Some (spec.annotate ctx t st).
Proof.
  induction n as [| n IH]; intros t st extra Hlen; rewrite walkFuel_S.
  - destruct t; [| discriminate]. reflexivity.
  - unfold diagnostics.walkStep, spec.annotate. rewrite Hlen.
    destruct n as [| n'].
    + reflexivity.
    + replace (1 <? S (S n'))%nat with true by (symmetry; apply Nat.ltb_lt; lia).
      replace (S (S n') - 1)%nat with (S n') by lia.
      cbn [spec.longestGoodPrefix].
      rewrite (take_ge t (S (S n'))) by lia.
      destruct (TraverseAbs t ctx) as [val err] eqn:Heval.
      change (S (S n') + extra)%nat with (S (S n' + extra)).
      destruct err.
      * rewrite (IH (removelast t) st extra).
        2:{ rewrite removelast_take, length_take. lia. }
        unfold spec.annotate. rewrite removelast_take, Hlen.
        replace (S (S n') - 1)%nat with (S n') by lia.
        rewrite length_take, Hlen.
        replace (S n' `min` S (S n') - 1)%nat with n' by lia.
        rewrite longestGoodPrefix_take by lia. reflexivity.
      * destruct (bool_decide (diagnostics.traversalStr t ∈ st.2)) eqn:Hseen;
          [reflexivity |].
        rewrite walkFuel_S. unfold diagnostics.walkStep. rewrite Hlen.
        replace (1 <? S (S n'))%nat with true by (symmetry; apply Nat.ltb_lt; lia).
        rewrite Heval. cbn [snd].
        rewrite bool_decide_eq_true_2 by set_solver. reflexivity.
Qed.

(** C5, amended.  For every traversal the walk tries the prefixes from the
    full length down to length 2, never the one of length 1; it ends, and
    it records one annotation, for the longest prefix that evaluates
    without errors, unless one with the same traversal string is already
    recorded; a traversal of length 1 or less adds nothing. *)
Theorem walk_annotates_longest_good_prefix
    (ctx : option (hcl.EvalContext Value)) (t : hcl.Traversal Value)
    (st : diagnostics.WalkState) :
  (forall extra,
      diagnostics.walkFuel (S (length t + extra)) ctx t st
      = Some (spec.annotate ctx t st)) /\
  diagnostics.walk ctx t st = spec.annotate ctx t st /\
  ((length t <= 1)%nat -> diagnostics.walk ctx t st = st).
Proof.
  assert (Hwalk : diagnostics.walk ctx t st = spec.annotate ctx t st).
  { unfold diagnostics.walk.
    pose proof (walkFuel_enough ctx (length t) t st 0 eq_refl) as H.
    rewrite Nat.add_0_r in H. rewrite H. reflexivity. }
  split; [| split].
  - intros extra. apply walkFuel_enough. reflexivity.
  - exact Hwalk.
  - intros Hlen. rewrite Hwalk. unfold spec.annotate.
    replace (length t - 1)%nat with 0%nat by lia. reflexivity.
Qed.

End WalkProperties.

(** In a context where [foo] has the attribute [baz] only, the traversal
    [foo.baz.qux] is annotated at [foo.baz], and [foo] alone is not
    annotated. *)
Lemma walk_annotates_longest_good_prefix_witness :
  let t := [hcl.TraverseRoot "foo"; hcl.TraverseAttr "baz"; hcl.TraverseAttr "qux"] in
  let root := [@hcl.TraverseRoot tiny.Val "foo"] in
  (diagnostics.walk (Some examples.ctx) t ([], ∅)).1
  = [ {| pb.Traversal := "foo.baz";
         pb.Statement := "is " +:+ tiny.quote "x" |} ] /\
  (length root <= 1)%nat /\
  diagnostics.walk (Some examples.ctx) root ([], ∅) = ([], ∅).
Proof.
  intros t root.
  destruct (walk_annotates_longest_good_prefix (L := tiny.lib)
              (Some examples.ctx) t ([], ∅)) as (_ & Ht & _).
  destruct (walk_annotates_longest_good_prefix (L := tiny.lib)
              (Some examples.ctx) root ([], ∅)) as (_ & _ & Hroot).
  assert (Hlen : (length root <= 1)%nat) by (simpl; lia).
  assert (Hann : (spec.annotate (Some examples.ctx) t ([], ∅)).1
                 = [ {| pb.Traversal := "foo.baz";
                        pb.Statement := "is " +:+ tiny.quote "x" |} ])
    by (vm_compute; reflexivity).
  rewrite <- Ht in Hann.
  exact (conj Hann (conj Hlen (Hroot Hlen))).
Defined.

(** C5 as stated fails: the traversal [foo] evaluates without errors at its
    only prefix, of length 1, and yields no annotation. *)
Lemma walk_counterexample :
  snd (TraverseAbs [hcl.TraverseRoot "foo"] (Some examples.ctx)) = false /\
  diagnostics.expressionValues (Some examples.ctx) [[hcl.TraverseRoot "foo"]] = [] /\
  pb.Values <$>
    (diagnostics.FromHCL examples.files [examples.rootOnlyDiag] !! 0%nat
       ≫= pb.Snippet) = Some [].
Proof.
  repeat split; vm_compute; reflexivity.
Qed.

(** ** Properties of the scenario decoder *)

Section DecoderProperties.

Context `{P : flightplan.Pkg} `{M : !flightplan.MatrixOps}.

(** The test of line 478 holds for every matrix, nil or not: the switch on
    the target below it is never reached. *)
Lemma decodeMode_always_serial (target : flightplan.DecodeTarget)
    (m : option flightplan.Matrix) :
  flightplan.decodeMode target m = flightplan.Serial.
Proof.
  unfold flightplan.decodeMode. destruct m; reflexivity.
Qed.

(** C2.  At target [ScenariosComplete] a matrix of 100 vectors, and at
    target [ScenariosNamesExpandVariants] a matrix of 8,000 vectors, is
    decoded serially, not concurrently; the same holds at target [All]. *)
Theorem decodeMode_serial_above_thresholds (v : flightplan.Vector) :
  flightplan.decodeMode flightplan.DecodeTargetScenariosComplete
    (Some (flightplan.mkMatrix (replicate 100 v))) = flightplan.Serial /\
  flightplan.decodeMode flightplan.DecodeTargetAll
    (Some (flightplan.mkMatrix (replicate 100 v))) = flightplan.Serial /\
  flightplan.decodeMode flightplan.DecodeTargetScenariosNamesExpandVariants
    (Some (flightplan.mkMatrix (replicate (Z.to_nat 8000) v))) = flightplan.Serial /\
  flightplan.numVectors (Some (flightplan.mkMatrix (replicate 100 v))) = 100 /\
  flightplan.numVectors
    (Some (flightplan.mkMatrix (replicate (Z.to_nat 8000) v))) = 8000.
Proof.
  repeat apply conj; try apply decodeMode_always_serial.
  - unfold flightplan.numVectors. cbn [flightplan.Vectors].
    rewrite length_replicate. reflexivity.
  - unfold flightplan.numVectors. cbn [flightplan.Vectors].
    rewrite length_replicate. apply Z2Nat.id. lia.
Qed.

(** A context is not its own child. *)
Lemma NewChild_fresh {V} (c : option (hcl.EvalContext V))
    (vars : gmap string V) :
  Some (hcl.withVariables (hcl.NewChild c) vars) <> c.
Proof.
  destruct c as [c |]; [| discriminate].
  intros [= H]. apply (f_equal hcl.depth) in H. simpl in H.
  destruct c as [vs [p |]]; simpl in H; lia.
Qed.

(** C4.  With a vector, [decodeScenario] does build a child context whose
    only variable is [matrix], bound to the value of the vector, and leaves
    the target and the filter of the decoder alone; but it stores that
    child in the [EvalContext] field of the decoder, which therefore is not
    the value it was before the call. *)
Theorem decodeScenario_replaces_EvalContext (d : flightplan.ScenarioDecoder)
    (vec : flightplan.Vector) (block : flightplan.Block) :
  let d' := (flightplan.decodeScenario d (Some vec) block).1 in
  flightplan.EvalContext d'
  = Some (hcl.mkEvalContext
            (Some {[ "matrix" := flightplan.Vector_CtyVal vec ]})
            (flightplan.EvalContext d)) /\
  flightplan.EvalContext d' <> flightplan.EvalContext d /\
  flightplan.DecodeTarget_ d' = flightplan.DecodeTarget_ d /\
  flightplan.ScenarioFilter_ d' = flightplan.ScenarioFilter_ d.
Proof.
  unfold flightplan.decodeScenario. cbn zeta.
  destruct (flightplan.Scenario_decode _ _ _ _) as [scenario diags].
  cbn. repeat split.
  apply (NewChild_fresh (flightplan.EvalContext d)).
Qed.

(** Without a vector the decoder is left as it is. *)
Lemma decodeScenario_nil_keeps_decoder (d : flightplan.ScenarioDecoder)
    (block : flightplan.Block) :
  (flightplan.decodeScenario d None block).1 = d.
Proof.
  unfold flightplan.decodeScenario. cbn zeta.
  destruct (flightplan.Scenario_decode _ _ _ _) as [scenario diags].
  reflexivity.
Qed.

(** Decoding scenarios does not touch the matrix of the block. *)
Lemma decodeInto_Matrix vec st :
  flightplan.Matrix_ (flightplan.decodeInto vec st).2 = flightplan.Matrix_ st.2.
Proof.
  unfold flightplan.decodeInto. destruct st as [d sb].
  destruct (flightplan.decodeScenario d vec (flightplan.Block_ sb))
    as [d' [[keep scenario] diags]].
  destruct keep; reflexivity.
Qed.

Lemma foldl_decodeInto_Matrix vs st :
  flightplan.Matrix_
    (foldl (fun st vec => flightplan.decodeInto (Some vec) st) st vs).2
  = flightplan.Matrix_ st.2.
Proof.
  revert st. induction vs as [| v vs IH]; intros st; simpl; [reflexivity |].
  rewrite IH. apply decodeInto_Matrix.
Qed.

Lemma decodeScenariosSerial_Matrix d sb :
  flightplan.Matrix_ (flightplan.decodeScenariosSerial d sb).2
  = flightplan.Matrix_ sb.
Proof.
  unfold flightplan.decodeScenariosSerial.
  destruct (flightplan.Matrix_ sb) as [m |] eqn:Hm.
  - destruct (length (flightplan.Vectors m) <? 1)%nat.
    + rewrite decodeInto_Matrix. exact Hm.
    + rewrite foldl_decodeInto_Matrix. exact Hm.
  - rewrite decodeInto_Matrix. exact Hm.
Qed.

Lemma decodeScenariosConcurrent_Matrix sched d sb :
  flightplan.Matrix_ (flightplan.decodeScenariosConcurrent sched d sb).2
  = flightplan.Matrix_ sb.
Proof.
  unfold flightplan.decodeScenariosConcurrent.
  destruct (flightplan.Matrix_ sb) as [m |] eqn:Hm.
  - destruct (length (flightplan.Vectors m) <? 1)%nat.
    + rewrite decodeScenariosSerial_Matrix. exact Hm.
    + destruct (foldl _ _ _) as [[d' scenarios] diags]. exact Hm.
  - rewrite decodeScenariosSerial_Matrix. exact Hm.
Qed.

(** C3.  At target [ScenariosMatrixOnly] or deeper and with a scenario
    filter, a decoded matrix of more than one vector is replaced by the
    result of filtering it; if that result is nil or has no vectors, the
    block is left with it: no scenario is decoded, the decoder is not
    touched, and the only diagnostics added are those of the matrix. *)
Theorem decodeBlock_filters_matrix (sched : nat -> list nat)
    (d : flightplan.ScenarioDecoder) (sb : flightplan.DecodedScenarioBlock)
    (f : flightplan.ScenarioFilter) (m : flightplan.Matrix)
    (diags : list (hcl.Diagnostic Value)) :
  flightplan.DecodeTargetScenariosMatrixOnly <= flightplan.DecodeTarget_ d ->
  flightplan.ScenarioFilter_ d = Some f ->
  flightplan.decodeMatrix (flightplan.EvalContext d) (flightplan.Block_ sb)
  = (Some m, diags) ->
  (1 < length (flightplan.Vectors m))%nat ->
  let r := flightplan.decodeBlock sched d sb in
  flightplan.Matrix_ r.2 = flightplan.Matrix_Filter m f /\
  (flightplan.noVectors (flightplan.Matrix_Filter m f) = true ->
   r.1 = d /\
   flightplan.Scenarios r.2 = flightplan.Scenarios sb /\
   flightplan.Diagnostics r.2 = flightplan.Diagnostics sb ++ diags).
Proof.
  intros Htarget Hfilter Hmatrix Hlen r. subst r.
  unfold flightplan.decodeBlock, flightplan.decodeBlockMatrix.
  apply Z.leb_le in Htarget. rewrite Htarget, Hmatrix. cbn [flightplan.Matrix_
    flightplan.setMatrix flightplan.setDiagnostics]. rewrite Hfilter.
  apply Nat.ltb_lt in Hlen. rewrite Hlen. cbn [flightplan.Matrix_ flightplan.setMatrix].
  destruct (flightplan.noVectors (flightplan.Matrix_Filter m f)) eqn:Hnone.
  - split; [reflexivity |]. intros _. repeat split.
  - split; [| discriminate].
    destruct (flightplan.DecodeTarget_ d
              <? flightplan.DecodeTargetScenariosNamesExpandVariants);
      [reflexivity |].
    rewrite decodeMode_always_serial.
    match goal with
    | |- context [flightplan.decodeScenariosSerial ?d0 ?sb0] =>
        pose proof (decodeScenariosSerial_Matrix d0 sb0) as Hkeep;
        destruct (flightplan.decodeScenariosSerial d0 sb0) as [d' sb']
    end.
    exact Hkeep.
Qed.

End DecoderProperties.

(** A block with two vectors and a filter that matches neither. *)
Lemma decodeBlock_filters_matrix_witness :
  let d := examples.decoder 4 (Some examples.filterNone) in
  let sb := examples.scenarioBlock examples.block 4 in
  let r := flightplan.decodeBlock (fun n => seq 0 n) d sb in
  flightplan.Matrix_ r.2 = Some examples.emptyMatrix /\
  r.1 = d /\
  flightplan.Scenarios r.2 = [] /\
  flightplan.Diagnostics r.2 = [].
Proof.
  intros d sb r.
  assert (Hf : flightplan.Matrix_Filter examples.matrix examples.filterNone
               = Some examples.emptyMatrix) by reflexivity.
  destruct (decodeBlock_filters_matrix (P := tiny.pkg) (M := examples.ops)
              (fun n => seq 0 n) d sb examples.filterNone examples.matrix [])
    as [Hm Hrest].
  - unfold flightplan.DecodeTargetScenariosMatrixOnly. simpl. lia.
  - reflexivity.
  - reflexivity.
  - simpl. lia.
  - rewrite Hf in Hm, Hrest. destruct (Hrest eq_refl) as (Hd & Hs & Hdiags).
    exact (conj Hm (conj Hd (conj Hs Hdiags))).
Defined.

Section ConcurrentProperties.

Context `{P : flightplan.Pkg} `{M : !flightplan.MatrixOps}.

(** Whatever the schedule, [decodeScenariosConcurrent] leaves the
    diagnostics of a block with vectors as they were. *)
Lemma decodeScenariosConcurrent_keeps_Diagnostics sched d sb m :
  flightplan.Matrix_ sb = Some m ->
  (1 <= length (flightplan.Vectors m))%nat ->
  flightplan.Diagnostics (flightplan.decodeScenariosConcurrent sched d sb).2
  = flightplan.Diagnostics sb.
Proof.
  intros Hm Hlen. unfold flightplan.decodeScenariosConcurrent. rewrite Hm.
  replace (length (flightplan.Vectors m) <? 1)%nat with false
    by (symmetry; apply Nat.ltb_ge; lia).
  destruct (foldl _ _ _) as [[d' scenarios] diags]. reflexivity.
Qed.

(** [decodeScenariosSerial] stores the diagnostics of each scenario. *)
Lemma decodeScenariosSerial_one_vector d sb v :
  flightplan.Matrix_ sb = Some (flightplan.mkMatrix [v]) ->
  flightplan.Diagnostics (flightplan.decodeScenariosSerial d sb).2
  = flightplan.Diagnostics sb
    ++ (flightplan.decodeScenario d (Some v) (flightplan.Block_ sb)).2.2.
Proof.
  intros Hm. unfold flightplan.decodeScenariosSerial. rewrite Hm. simpl.
  destruct (flightplan.decodeScenario d (Some v) (flightplan.Block_ sb))
    as [d' [[keep scenario] diags]].
  destruct keep; reflexivity.
Qed.

End ConcurrentProperties.

(** C1.  On a block whose only vector decodes with an error the two paths
    differ: the serial one stores the error in the diagnostics of the
    block, the concurrent one, under its only schedule, stores nothing, so
    that the block has errors after the one and none after the other. *)
Theorem decodeScenariosConcurrent_loses_diagnostics :
  let d := examples.decoder 4 None in
  let serial := (flightplan.decodeScenariosSerial d examples.failingBlock).2 in
  let concurrent :=
    (flightplan.decodeScenariosConcurrent [0%nat] d examples.failingBlock).2 in
  flightplan.schedule 1 [0%nat] /\
  flightplan.Scenarios serial = [] /\
  flightplan.Scenarios concurrent = [] /\
  hcl.HasErrors (flightplan.Diagnostics serial) = true /\
  flightplan.Diagnostics concurrent = [] /\
  hcl.HasErrors (flightplan.Diagnostics concurrent) = false.
Proof.
  repeat apply conj; vm_compute; reflexivity.
Qed.

(** ** Properties of the sample framer *)

Section SampleProperties.

Context `{P : flightplan.Pkg}.

Lemma indexOfName_lt name (l : list flightplan.SampleSubset) j :
  flightplan.indexOfName name l = Some j -> (j < length l)%nat.
Proof.
  revert j. induction l as [| x l IH]; intros j; simpl; [discriminate |].
  destruct (String.eqb name (flightplan.SampleSubset_Name x)).
  - intros [= <-]. lia.
  - destruct (flightplan.indexOfName name l) as [k |]; [| discriminate].
    intros [= <-]. specialize (IH k eq_refl). lia.
Qed.

Lemma indexOfName_lookup name (l : list flightplan.SampleSubset) :
  match flightplan.indexOfName name l with
  | Some j => l !! j
  | None => None
  end = spec.firstNamed l name.
Proof.
  unfold spec.firstNamed.
  induction l as [| x l IH]; simpl; [reflexivity |].
  destruct (String.eqb name (flightplan.SampleSubset_Name x)); [reflexivity |].
  rewrite <- IH. destruct (flightplan.indexOfName name l); reflexivity.
Qed.

Lemma indexOfName_delete name (l : list flightplan.SampleSubset) :
  match flightplan.indexOfName name l with
  | Some j => delete j l
  | None => l
  end = spec.removeFirstNamed name l.
Proof.
  induction l as [| x l IH]; simpl; [reflexivity |].
  destruct (String.eqb name (flightplan.SampleSubset_Name x)); [reflexivity |].
  rewrite <- IH. destruct (flightplan.indexOfName name l); reflexivity.
Qed.

Lemma includeLoop_selects incl (subsets newSubs : list flightplan.SampleSubset) :
  flightplan.includeLoop incl subsets newSubs
  = newSubs ++ omap (spec.firstNamed subsets) incl.
Proof.
  revert newSubs. induction incl as [| name incl IH]; intros newSubs; simpl.
  - rewrite app_nil_r. reflexivity.
  - rewrite IH. rewrite <- (indexOfName_lookup name subsets).
    destruct (flightplan.indexOfName name subsets) as [j |]; [| reflexivity].
    destruct (subsets !! j); [| reflexivity].
    rewrite <- app_assoc. reflexivity.
Qed.

Lemma arrayOf_setArray st r a :
  flightplan.arrayOf (flightplan.setArray st r a) r = a.
Proof. destruct r; reflexivity. Qed.

(** Removing in place deletes the element from the slice and keeps the
    length of the array. *)
Lemma removeAt_elems st sl j :
  (j < flightplan.slen sl)%nat ->
  (flightplan.slen sl <= length (flightplan.arrayOf st (flightplan.array sl)))%nat ->
  let r := flightplan.removeAt st sl j in
  flightplan.elems r.1 r.2 = delete j (flightplan.elems st sl) /\
  flightplan.array r.2 = flightplan.array sl /\
  (flightplan.slen r.2 <= length (flightplan.arrayOf r.1 (flightplan.array r.2)))%nat.
Proof.
  intros Hj Hlen. unfold flightplan.removeAt, flightplan.elems. cbn.
  rewrite arrayOf_setArray.
  set (a := flightplan.arrayOf st (flightplan.array sl)) in *.
  set (n := flightplan.slen sl) in *.
  assert (Hpre : length (take j a ++ drop (S j) (take n a)) = (n - 1)%nat).
  { rewrite length_app, length_take, length_drop, length_take. lia. }
  repeat split.
  - rewrite app_assoc, take_app_length' by (symmetry; exact Hpre).
    rewrite delete_take_drop, take_take.
    replace (j `min` n)%nat with j by lia. reflexivity.
  - rewrite app_assoc, length_app, Hpre. lia.
Qed.

Lemma removeAt_sampleArray st sl j :
  flightplan.array sl = flightplan.NewArray ->
  flightplan.sampleArray (flightplan.removeAt st sl j).1 = flightplan.sampleArray st.
Proof.
  intros Hnew. unfold flightplan.removeAt. rewrite Hnew. reflexivity.
Qed.

Lemma excludeLoop_removes excl :
  forall st sl,
    (flightplan.slen sl <= length (flightplan.arrayOf st (flightplan.array sl)))%nat ->
    let r := flightplan.excludeLoop excl st sl in
    flightplan.elems r.1 r.2
    = foldl (fun l name => spec.removeFirstNamed name l) (flightplan.elems st sl) excl /\
    (flightplan.array sl = flightplan.NewArray ->
     flightplan.sampleArray r.1 = flightplan.sampleArray st).
Proof.
  induction excl as [| name excl IH]; intros st sl Hlen; simpl.
  - split; [reflexivity | intros _; reflexivity].
  - rewrite <- (indexOfName_delete name (flightplan.elems st sl)).
    destruct (flightplan.indexOfName name (flightplan.elems st sl)) as [j |] eqn:Hj.
    + apply indexOfName_lt in Hj.
      assert (Hj' : (j < flightplan.slen sl)%nat).
      { unfold flightplan.elems in Hj. rewrite length_take in Hj. lia. }
      destruct (removeAt_elems st sl j Hj' Hlen) as (Helems & Harr & Hlen').
      pose proof (removeAt_sampleArray st sl j) as Hsample.
      destruct (flightplan.removeAt st sl j) as [st' sl']. cbn [fst snd] in *.
      destruct (IH st' sl' Hlen') as [IH1 IH2].
      split.
      * rewrite IH1, Helems. reflexivity.
      * intros Hnew. rewrite IH2 by congruence. apply Hsample. exact Hnew.
    + apply IH. exact Hlen.
Qed.

Lemma foldl_removeFirstNamed_nil excl :
  foldl (fun l name => spec.removeFirstNamed name l) [] excl = [].
Proof. induction excl as [| name excl IH]; simpl; [reflexivity | exact IH]. Qed.

Lemma elems_all (l : list flightplan.SampleSubset) st r :
  flightplan.arrayOf st r = l ->
  flightplan.elems st {| flightplan.array := r; flightplan.slen := length l |} = l.
Proof.
  intros Harr. unfold flightplan.elems. cbn [flightplan.array flightplan.slen].
  rewrite Harr. apply take_ge. lia.
Qed.

Lemma omap_firstNamed_nil incl :
  omap (spec.firstNamed []) incl = [].
Proof. induction incl as [| n incl IH]; simpl; [reflexivity | exact IH]. Qed.

(** [filterSubsets] on the store: the elements of the slice returned, and
    the array of the sample where the exclude loop does not work on it. *)
Lemma filterSubsetsIn_reduces (s : flightplan.Sample)
    (filter : option flightplan.Sample_Filter) :
  let r := flightplan.filterSubsetsIn s filter in
  match r.2 with
  | Some sl => flightplan.elems r.1 sl
  | None => []
  end = spec.reduced s filter /\
  (is_Some (filter ≫= flightplan.GetSubsets) \/
   filter ≫= flightplan.GetExcludeSubsets = None ->
   flightplan.sampleArray r.1 = flightplan.Subsets s).
Proof.
  unfold flightplan.filterSubsetsIn, spec.reduced, spec.included.
  set (st0 := {| flightplan.sampleArray := flightplan.Subsets s;
                 flightplan.newArray := [] |}).
  set (all := {| flightplan.array := flightplan.SampleArray;
                 flightplan.slen := length (flightplan.Subsets s) |}).
  assert (Hall : flightplan.elems st0 all = flightplan.Subsets s)
    by (apply elems_all; reflexivity).
  destruct (length (flightplan.Subsets s) <? 1)%nat eqn:Hempty.
  { apply Nat.ltb_lt in Hempty.
    destruct (flightplan.Subsets s) as [| x xs]; [| simpl in Hempty; lia].
    cbn [fst snd]. split; [| intros _; reflexivity].
    destruct (filter ≫= flightplan.GetSubsets).
    - rewrite omap_firstNamed_nil, foldl_removeFirstNamed_nil. reflexivity.
    - rewrite foldl_removeFirstNamed_nil. reflexivity. }
  destruct filter as [f |]; cbn [mbind option_bind];
    [| cbn [fst snd default foldl]; split; [exact Hall | intros _; reflexivity]].
  destruct (flightplan.GetSubsets f) as [incl |].
  - rewrite Hall, includeLoop_selects. cbn [app].
    set (newSubs := omap (spec.firstNamed (flightplan.Subsets s)) incl).
    set (st1 := flightplan.setArray st0 flightplan.NewArray newSubs).
    set (sl1 := {| flightplan.array := flightplan.NewArray;
                   flightplan.slen := length newSubs |}).
    assert (Hnew : flightplan.elems st1 sl1 = newSubs)
      by (apply elems_all; reflexivity).
    destruct (flightplan.GetExcludeSubsets f) as [excl |]; cbn [default].
    + destruct (excludeLoop_removes excl st1 sl1) as [Hr Hs].
      { cbn. lia. }
      destruct (flightplan.excludeLoop excl st1 sl1) as [st' sl'].
      cbn [fst snd] in *. rewrite Hr, Hnew.
      split; [reflexivity |]. intros _. rewrite Hs by reflexivity. reflexivity.
    + cbn [fst snd foldl]. split; [exact Hnew | intros _; reflexivity].
  - destruct (flightplan.GetExcludeSubsets f) as [excl |]; cbn [default].
    + destruct (excludeLoop_removes excl st0 all) as [Hr _].
      { cbn. lia. }
      destruct (flightplan.excludeLoop excl st0 all) as [st' sl'].
      cbn [fst snd] in *. rewrite Hr, Hall.
      split; [reflexivity |]. intros [[? [=]] | [=]].
    + cbn [fst snd foldl]. split; [exact Hall | intros _; reflexivity].
Qed.

(** C7, amended.  [filterSubsets] takes, for each name of the include list
    and in the order of that list, the first subset of the sample with
    that name (all subsets of the sample when the filter is nil or has no
    include list), and then removes, for each name of the exclude list, the
    first remaining subset with that name; with an include list, or
    without an exclude list, the subset list of the sample is unchanged. *)
Theorem filterSubsets_reduces (s : flightplan.Sample)
    (filter : option flightplan.Sample_Filter) :
  (flightplan.filterSubsets s filter).1 = spec.reduced s filter /\
  (filter ≫= flightplan.GetSubsets = None ->
   spec.included s filter = flightplan.Subsets s) /\
  (is_Some (filter ≫= flightplan.GetSubsets) \/
   filter ≫= flightplan.GetExcludeSubsets = None ->
   flightplan.Subsets (flightplan.filterSubsets s filter).2 = flightplan.Subsets s).
Proof.
  pose proof (filterSubsetsIn_reduces s filter) as [Hr Hs].
  unfold flightplan.filterSubsets.
  destruct (flightplan.filterSubsetsIn s filter) as [st r]. cbn [fst snd] in *.
  split; [exact Hr | split].
  - intros Hnone. unfold spec.included. rewrite Hnone. reflexivity.
  - intros Hcase. cbn [flightplan.Subsets]. rewrite (Hs Hcase).
    apply take_ge. lia.
Qed.

End SampleProperties.

(** Include [b, a], then exclude [a]. *)
Lemma filterSubsets_reduces_witness :
  let filter := examples.sampleFilter (Some ["b"; "a"]) (Some ["a"]) in
  is_Some (filter ≫= flightplan.GetSubsets) /\
  (flightplan.filterSubsets examples.sample filter).1 = [examples.subsetB] /\
  flightplan.Subsets (flightplan.filterSubsets examples.sample filter).2
  = [examples.subsetA; examples.subsetB; examples.subsetC].
Proof.
  intros filter.
  assert (Hincl : is_Some (filter ≫= flightplan.GetSubsets))
    by (eexists; reflexivity).
  destruct (filterSubsets_reduces (P := tiny.pkg) examples.sample filter)
    as (Hr & _ & Hs).
  assert (Hred : spec.reduced examples.sample filter = [examples.subsetB])
    by reflexivity.
  rewrite Hred in Hr.
  exact (conj Hincl (conj Hr (Hs (or_introl Hincl)))).
Defined.

(** C7 as stated fails: with the include list [b, a] the subsets come back
    in the order of that list, not in the order of the sample; and without
    an include list, excluding [a] from the subsets [a, b, c] leaves the
    sample itself with the subsets [b, c, c]. *)
Lemma filterSubsets_counterexample :
  let filter := examples.sampleFilter (Some ["b"; "a"]) None in
  let exclude := examples.sampleFilter None (Some ["a"]) in
  ((flightplan.filterSubsets examples.sample filter).1
   = [examples.subsetB; examples.subsetA] /\
   spec.filterSubsetsAsStated examples.sample filter
   = [examples.subsetA; examples.subsetB] /\
   (flightplan.filterSubsets examples.sample filter).1
   <> spec.filterSubsetsAsStated examples.sample filter) /\
  (flightplan.Subsets examples.sample
   = [examples.subsetA; examples.subsetB; examples.subsetC] /\
   flightplan.Subsets (flightplan.filterSubsets examples.sample exclude).2
   = [examples.subsetB; examples.subsetC; examples.subsetC] /\
   flightplan.Subsets (flightplan.filterSubsets examples.sample exclude).2
   <> flightplan.Subsets examples.sample).
Proof.
  repeat apply conj; try reflexivity; discriminate.
Qed.

(** An include list that names a subset twice selects it twice, and an
    exclude list then removes it once. *)
Lemma filterSubsets_exclude_once :
  (flightplan.filterSubsets examples.sample
     (examples.sampleFilter (Some ["a"; "a"]) (Some ["a"]))).1
  = [examples.subsetA].
Proof. reflexivity. Qed.

Section FrameProperties.

Context `{P : flightplan.Pkg}.

Lemma framedName_cons x subsets k :
  spec.framedName (x :: subsets) k <->
  (flightplan.SampleSubset_Name x = k /\ is_Some (flightplan.SampleSubset_Frame x).1)
  \/ spec.framedName subsets k.
Proof.
  unfold spec.framedName. split.
  - intros (y & [-> | Hin] & Hname & Hframe); [left; auto | right; eauto].
  - intros [[Hname Hframe] | (y & Hin & Hname & Hframe)].
    + exists x. split; [left; reflexivity | auto].
    + exists y. split; [right; exact Hin | auto].
Qed.

(** When no subset fails, the loop returns a map whose keys are the old
    keys and the names of the subsets that have a frame. *)
Lemma frameLoop_frames name subsets :
  forall frames : gmap string flightplan.SampleSubsetFrame,
    (forall x, In x subsets -> (flightplan.SampleSubset_Frame x).2 = None) ->
    exists frames',
      flightplan.frameLoop name subsets frames = inl frames' /\
      forall k, k ∈ dom frames' <-> k ∈ dom frames \/ spec.framedName subsets k.
Proof.
  induction subsets as [| x subsets IH]; intros frames Hok; simpl.
  - exists frames. split; [reflexivity |]. intros k. split; [auto |].
    intros [Hk | (y & [] & _)]. exact Hk.
  - pose proof (Hok x (or_introl eq_refl)) as Hx.
    assert (Hrest : forall y, In y subsets ->
                              (flightplan.SampleSubset_Frame y).2 = None)
      by (intros y Hy; apply Hok; right; exact Hy).
    pose proof (framedName_cons x subsets) as Hcons.
    destruct (flightplan.SampleSubset_Frame x) as [[frame |] [err |]];
      simpl in Hx; try discriminate.
    + destruct (IH (<[flightplan.SampleSubset_Name x :=
                       flightplan.SampleSubsetFrame_setSampleName frame name]> frames)
                   Hrest) as (frames' & Hloop & Hdom).
      exists frames'. split; [exact Hloop |]. intros k.
      rewrite Hdom, Hcons, dom_insert_L, elem_of_union, elem_of_singleton.
      simpl. split.
      * intros [[-> | Hk] | Hk]; [right; left; split; [reflexivity | eauto] | auto | auto].
      * intros [Hk | [[<- _] | Hk]]; auto.
    + destruct (IH frames Hrest) as (frames' & Hloop & Hdom).
      exists frames'. split; [exact Hloop |]. intros k.
      rewrite Hdom, Hcons. simpl. split.
      * intros [Hk | Hk]; auto.
      * intros [Hk | [[_ [? [=]]] | Hk]]; auto.
Qed.

(** When a subset fails, the loop returns a response and no map. *)
Lemma frameLoop_fails name subsets :
  forall frames : gmap string flightplan.SampleSubsetFrame,
    (exists x, In x subsets /\ is_Some (flightplan.SampleSubset_Frame x).2) ->
    exists err, flightplan.frameLoop name subsets frames = inr err.
Proof.
  induction subsets as [| x subsets IH]; intros frames (y & Hin & Herr).
  - destruct Hin.
  - simpl.
    destruct (flightplan.SampleSubset_Frame x) as [[frame |] [err |]] eqn:Hx;
      try (eexists; reflexivity).
    + apply IH. destruct Hin as [-> | Hin]; [| eauto].
      rewrite Hx in Herr. destruct Herr as [? [=]].
    + apply IH. destruct Hin as [-> | Hin]; [| eauto].
      rewrite Hx in Herr. destruct Herr as [? [=]].
Qed.

(** C8, amended.  If the reduction leaves no subsets, [Frame] returns no
    frame and exactly one diagnostic, of error severity.  Otherwise, if the
    framing of some surviving subset fails, it returns no frame and a
    response; and if none fails, it returns a frame whose [SubsetFrames]
    has as keys the names of the surviving subsets that have a frame. *)
Theorem Frame_outcomes (filterString : string) (s : flightplan.Sample)
    (filter : option flightplan.Sample_Filter) :
  let subsets := (flightplan.filterSubsets s filter).1 in
  let r := flightplan.Frame filterString s filter in
  (subsets = [] ->
   exists d, r = (None, Some {| pb.Diagnostics := [d] |}) /\
             pb.Severity d = pb.Diagnostic_SEVERITY_ERROR) /\
  (subsets <> [] ->
   (exists x, In x subsets /\ is_Some (flightplan.SampleSubset_Frame x).2) ->
   exists err, r = (None, Some err)) /\
  (subsets <> [] ->
   (forall x, In x subsets -> (flightplan.SampleSubset_Frame x).2 = None) ->
   exists f, r = (Some f, None) /\
             forall k, k ∈ dom (flightplan.SubsetFrames f)
                       <-> spec.framedName subsets k).
Proof.
  intros subsets r. subst subsets r. unfold flightplan.Frame.
  destruct (flightplan.filterSubsets s filter) as [subsets s']. cbn [fst].
  split; [| split].
  - intros ->. simpl. eexists. split; reflexivity.
  - intros Hne Herr. destruct subsets as [| x xs]; [congruence |].
    replace (length (x :: xs) <? 1)%nat with false by reflexivity.
    destruct (frameLoop_fails (flightplan.SampleName s') (x :: xs) ∅ Herr)
      as [err Hloop].
    rewrite Hloop. exists err. reflexivity.
  - intros Hne Hok. destruct subsets as [| x xs]; [congruence |].
    replace (length (x :: xs) <? 1)%nat with false by reflexivity.
    destruct (frameLoop_frames (flightplan.SampleName s') (x :: xs) ∅ Hok)
      as (frames & Hloop & Hdom).
    rewrite Hloop. eexists. split; [reflexivity |].
    intros k. cbn [flightplan.SubsetFrames]. rewrite Hdom, dom_empty_L.
    split; [intros [Hk | Hk]; [set_solver | exact Hk] | auto].
Qed.

End FrameProperties.

(** Excluding the subset that cannot be framed gives a frame for [a] and
    [b]. *)
Lemma Frame_outcomes_witness :
  let filter := examples.sampleFilter None (Some ["c"]) in
  let subsets := (flightplan.filterSubsets examples.sample filter).1 in
  subsets = [examples.subsetA; examples.subsetB] /\
  exists f, flightplan.Frame "exclude c" examples.sample filter = (Some f, None) /\
            forall k, k ∈ dom (flightplan.SubsetFrames f)
                      <-> spec.framedName subsets k.
Proof.
  intros filter subsets.
  assert (Hsubsets : subsets = [examples.subsetA; examples.subsetB])
    by reflexivity.
  split; [exact Hsubsets |].
  apply (Frame_outcomes (P := tiny.pkg) "exclude c" examples.sample filter).
  - fold subsets. rewrite Hsubsets. discriminate.
  - fold subsets. rewrite Hsubsets.
    intros x [<- | [<- | []]]; reflexivity.
Defined.

(** C8 as stated fails: the reduction leaves the three subsets of the
    sample, the third cannot be framed, and [Frame] returns no frame. *)
Lemma Frame_counterexample :
  let filter := examples.sampleFilter None None in
  (flightplan.filterSubsets examples.sample filter).1
  = [examples.subsetA; examples.subsetB; examples.subsetC] /\
  (flightplan.Frame "all" examples.sample filter).1 = None.
Proof. split; reflexivity. Qed.

(** ** Further properties *)

(** *** The order of strings and the stable sort *)

Lemma ltb_lts (a b : string) :
  String.ltb a b = true <-> OrderedTypeEx.String_as_OT.lt a b.
Proof.
  unfold String.ltb. rewrite <- OrderedTypeEx.String_as_OT.cmp_lt.
  unfold OrderedTypeEx.String_as_OT.cmp.
  destruct (String.compare a b); split; intros H; congruence.
Qed.

Lemma ltb_trans (a b c : string) :
  String.ltb a b = true -> String.ltb b c = true -> String.ltb a c = true.
Proof.
  rewrite !ltb_lts. apply OrderedTypeEx.String_as_OT.lt_trans.
Qed.

Lemma ltb_irrefl (a : string) : String.ltb a a = false.
Proof.
  destruct (String.ltb a a) eqn:H; [| reflexivity].
  apply ltb_lts in H. apply OrderedTypeEx.String_as_OT.lt_not_eq in H.
  exfalso. apply H. reflexivity.
Qed.

Lemma ltb_asym (a b : string) :
  String.ltb a b = true -> String.ltb b a = false.
Proof.
  intros Hab. destruct (String.ltb b a) eqn:Hba; [| reflexivity].
  pose proof (ltb_trans a b a Hab Hba) as H. rewrite ltb_irrefl in H.
  discriminate.
Qed.

(** Of two different strings one is below the other. *)
Lemma ltb_total (a b : string) :
  String.ltb a b = false -> String.ltb b a = false -> a = b.
Proof.
  unfold String.ltb. rewrite (String.compare_antisym b a).
  destruct (String.compare a b) eqn:Hc; simpl; try discriminate.
  intros _ _. apply String.compare_eq_iff. exact Hc.
Qed.

Lemma ltb_le_trans (a b c : string) :
  String.ltb a b = true -> String.ltb c b = false -> String.ltb a c = true.
Proof.
  intros Hab Hcb. destruct (String.ltb b c) eqn:Hbc.
  - exact (ltb_trans a b c Hab Hbc).
  - rewrite (ltb_total b c Hbc Hcb) in Hab. exact Hab.
Qed.

Section SortProperties.

Context {A : Type} (key : A -> string).

Lemma insertBy_Permutation (x : A) (l : list A) :
  Permutation (flightplan.insertBy key x l) (x :: l).
Proof.
  induction l as [| y l IH]; simpl; [reflexivity |].
  destruct (String.ltb (key y) (key x)); [| reflexivity].
  rewrite IH. apply perm_swap.
Qed.

Lemma insertBy_sorted (x : A) (l : list A) :
  StronglySorted (spec.notAbove key) l ->
  StronglySorted (spec.notAbove key) (flightplan.insertBy key x l).
Proof.
  induction 1 as [| y l Hsorted IH Hy]; simpl.
  - constructor; [constructor | constructor].
  - destruct (String.ltb (key y) (key x)) eqn:Hyx.
    + constructor; [exact IH |].
      rewrite (insertBy_Permutation x l). constructor; [| exact Hy].
      unfold spec.notAbove. apply ltb_asym. exact Hyx.
    + constructor; [constructor; assumption |].
      constructor; [exact Hyx |].
      rewrite Forall_forall in Hy |- *. intros z Hz. specialize (Hy z Hz).
      unfold spec.notAbove in *.
      destruct (String.ltb (key z) (key x)) eqn:Hzx; [| reflexivity].
      rewrite (ltb_le_trans (key z) (key x) (key y) Hzx Hyx) in Hy.
      discriminate.
Qed.

(** The stable sort returns the elements of its input, in ascending order
    of their keys. *)
Lemma sortStableBy_sorted (l : list A) :
  Permutation (flightplan.sortStableBy key l) l /\
  StronglySorted (spec.notAbove key) (flightplan.sortStableBy key l).
Proof.
  unfold flightplan.sortStableBy.
  induction l as [| x l [IHp IHs]]; simpl.
  - split; [reflexivity | constructor].
  - split; [| apply insertBy_sorted; exact IHs].
    rewrite insertBy_Permutation, IHp. reflexivity.
Qed.

(** Elements with the same key keep the order they had. *)
Lemma insertBy_filter (k : string) (x : A) (l : list A) :
  List.filter (fun y => String.eqb (key y) k) (flightplan.insertBy key x l)
  = List.filter (fun y => String.eqb (key y) k) (x :: l).
Proof.
  induction l as [| y l IH]; [reflexivity |].
  cbn [flightplan.insertBy].
  destruct (String.ltb (key y) (key x)) eqn:Hyx; [| reflexivity].
  cbn [List.filter] in *. rewrite IH.
  destruct (String.eqb (key x) k) eqn:Hx; [| reflexivity].
  destruct (String.eqb (key y) k) eqn:Hy; [| reflexivity].
  apply String.eqb_eq in Hx, Hy. rewrite Hx, Hy, ltb_irrefl in Hyx.
  discriminate.
Qed.

Lemma sortStableBy_stable (k : string) (l : list A) :
  List.filter (fun y => String.eqb (key y) k) (flightplan.sortStableBy key l)
  = List.filter (fun y => String.eqb (key y) k) l.
Proof.
  unfold flightplan.sortStableBy.
  induction l as [| x l IH]; [reflexivity |].
  cbn [foldr]. rewrite insertBy_filter. cbn [List.filter]. rewrite IH.
  reflexivity.
Qed.

(** With keys that are all different the order is strict. *)
Lemma sorted_strict (l : list A) :
  StronglySorted (spec.notAbove key) l ->
  NoDup (map key l) ->
  StronglySorted (fun x y => String.ltb (key x) (key y) = true) l.
Proof.
  induction 1 as [| x l Hsorted IH Hx]; intros Hnodup; [constructor |].
  cbn [map] in Hnodup. apply NoDup_cons in Hnodup as [Hnotin Hnodup].
  constructor; [apply IH; exact Hnodup |].
  rewrite Forall_forall in Hx |- *. intros y Hy. specialize (Hx y Hy).
  unfold spec.notAbove in Hx.
  destruct (String.ltb (key x) (key y)) eqn:Hxy; [reflexivity |].
  exfalso. apply Hnotin. rewrite (ltb_total (key x) (key y) Hxy Hx).
  apply list_elem_of_fmap. exists y. split; [reflexivity | exact Hy].
Qed.

End SortProperties.

(** *** Diagnostics: [HasErrors], [HasWarnings], [Concat] *)

Lemma Concat_concat (dss : list (list pb.Diagnostic)) (acc : list pb.Diagnostic) :
  foldl (fun combined diag => combined ++ diag) acc dss = acc ++ concat dss.
Proof.
  revert acc. induction dss as [| ds dss IH]; intros acc; simpl.
  - rewrite app_nil_r. reflexivity.
  - rewrite IH, app_assoc. reflexivity.
Qed.

(** X1.  The diagnostics combined by [Concat] have errors exactly when one
    of the sets combined has, and warnings exactly when one of them has;
    with the diagnostic of a non-nil error among them they have errors. *)
Theorem Concat_HasErrors (dss : list (list pb.Diagnostic)) :
  diagnostics.HasErrors (diagnostics.Concat dss)
  = existsb diagnostics.HasErrors dss /\
  diagnostics.HasWarnings (diagnostics.Concat dss)
  = existsb diagnostics.HasWarnings dss /\
  (forall msg,
      diagnostics.HasErrors
        (diagnostics.Concat (dss ++ [diagnostics.FromErr (Some msg)])) = true).
Proof.
  unfold diagnostics.Concat, diagnostics.HasErrors, diagnostics.HasWarnings.
  assert (Hex : forall (f : pb.Diagnostic -> bool) (l : list (list pb.Diagnostic)),
             existsb f (concat l) = existsb (existsb f) l).
  { intros f l. induction l as [| ds l IH]; simpl; [reflexivity |].
    rewrite existsb_app, IH. reflexivity. }
  repeat apply conj.
  - rewrite Concat_concat. apply Hex.
  - rewrite Concat_concat. apply Hex.
  - intros msg. rewrite Concat_concat. cbn [app]. rewrite Hex, existsb_app.
    simpl. apply orb_true_r.
Qed.

(** *** [FromHCL]: severities and expression values *)

Section FromHCLMore.

Context `{L : Lib}.

(** X2.  [FromHCL] returns one diagnostic per diagnostic given, and the
    result has errors, or warnings, exactly when the diagnostics given
    have. *)
Theorem FromHCL_preserves_severity (files : gmap string hcl.File)
    (diags : list (hcl.Diagnostic Value)) :
  length (diagnostics.FromHCL files diags) = length diags /\
  diagnostics.HasErrors (diagnostics.FromHCL files diags) = hcl.HasErrors diags /\
  diagnostics.HasWarnings (diagnostics.FromHCL files diags)
  = existsb (fun d => match hcl.Severity d with
                      | hcl.DiagWarning => true | _ => false end) diags.
Proof.
  unfold diagnostics.FromHCL, diagnostics.HasErrors, diagnostics.HasWarnings,
    hcl.HasErrors.
  repeat apply conj.
  - apply length_map.
  - induction diags as [| d diags IH]; simpl; [reflexivity |].
    rewrite IH. f_equal. unfold diagnostics.isError. simpl.
    destruct (hcl.Severity d); reflexivity.
  - induction diags as [| d diags IH]; simpl; [reflexivity |].
    rewrite IH. f_equal. unfold diagnostics.isWarning. simpl.
    destruct (hcl.Severity d); reflexivity.
Qed.

Lemma walk_annotate ctx (t : hcl.Traversal Value) st :
  diagnostics.walk ctx t st = spec.annotate ctx t st.
Proof.
  unfold diagnostics.walk.
  pose proof (walkFuel_enough ctx (length t) t st 0 eq_refl) as H.
  rewrite Nat.add_0_r in H. rewrite H. reflexivity.
Qed.

(** The prefix found evaluates without errors and has at least two steps. *)
Lemma longestGoodPrefix_good ctx k (t : hcl.Traversal Value) p val :
  (S k <= length t)%nat ->
  spec.longestGoodPrefix ctx k t = Some (p, val) ->
  exists n, (2 <= n <= S k)%nat /\ p = take n t /\ length p = n /\
            TraverseAbs p ctx = (val, false).
Proof.
  induction k as [| k IH]; intros Hlen; simpl; [discriminate |].
  destruct (TraverseAbs (take (S (S k)) t) ctx) as [v err] eqn:Heval.
  destruct err.
  - intros Hfound. destruct (IH ltac:(lia) Hfound) as (n & Hn & Hp & Hl & He).
    exists n. repeat split; try assumption; lia.
  - intros [= <- <-]. exists (S (S k)).
    repeat split; try lia; [| exact Heval].
    rewrite length_take. lia.
Qed.

Lemma annotate_invariant ctx vars n (t : hcl.Traversal Value) st :
  In t vars ->
  spec.walkInvariant ctx vars n st ->
  spec.walkInvariant ctx vars (S n) (spec.annotate ctx t st).
Proof.
  intros Hin (Hnodup & Hseen & Hsound & Hlen). unfold spec.annotate.
  destruct (spec.longestGoodPrefix ctx (length t - 1) t) as [[p val] |] eqn:Hfound.
  2:{ repeat split; try assumption; try apply Hseen; lia. }
  destruct (bool_decide (diagnostics.traversalStr p ∈ st.2)) eqn:Hmem.
  { repeat split; try assumption; try apply Hseen; lia. }
  apply bool_decide_eq_false in Hmem.
  assert (Hlt : (S (length t - 1) <= length t)%nat).
  { destruct t; [discriminate Hfound | simpl; lia]. }
  destruct (longestGoodPrefix_good ctx _ t p val Hlt Hfound)
    as (k & Hk & Hp & _ & Heval).
  unfold spec.walkInvariant. cbn [fst snd]. repeat split.
  - rewrite List.map_app. cbn [map]. apply NoDup_app. repeat split.
    + exact Hnodup.
    + intros s Hs Hs'. apply list_elem_of_In in Hs.
      apply list_elem_of_singleton in Hs'. subst s.
      apply Hmem. apply Hseen. exact Hs.
    + apply NoDup_singleton.
  - intros Hs. rewrite List.map_app, in_app_iff. cbn.
    apply elem_of_union in Hs as [Hs | Hs].
    + apply elem_of_singleton in Hs. right. left. symmetry. exact Hs.
    + left. apply Hseen. exact Hs.
  - rewrite List.map_app, in_app_iff. cbn. intros [Hs | [Hs | []]].
    + apply elem_of_union. right. apply Hseen. exact Hs.
    + apply elem_of_union. left. apply elem_of_singleton. symmetry. exact Hs.
  - apply Forall_app. split; [exact Hsound |].
    constructor; [| constructor].
    exists t, k, val. subst p. repeat split; try assumption; try lia.
  - rewrite length_app. simpl. lia.
Qed.

Lemma walkAll_invariant ctx (vars : list (hcl.Traversal Value)) :
  spec.walkInvariant ctx vars (length vars) (diagnostics.walkAll ctx vars).
Proof.
  unfold diagnostics.walkAll.
  assert (Hgen : forall done todo st,
             (forall t, In t todo -> In t vars) ->
             spec.walkInvariant ctx vars done st ->
             spec.walkInvariant ctx vars (done + length todo)
               (foldl (fun st t => diagnostics.walk ctx t st) st todo)).
  { intros done todo. revert done.
    induction todo as [| t todo IH]; intros done st Hsub Hinv; simpl.
    - rewrite Nat.add_0_r. exact Hinv.
    - replace (done + S (length todo))%nat with (S done + length todo)%nat by lia.
      apply IH; [intros u Hu; apply Hsub; right; exact Hu |].
      rewrite walk_annotate. apply annotate_invariant; [| exact Hinv].
      apply Hsub. left. reflexivity. }
  apply (Hgen 0%nat vars ([], ∅)); [auto |].
  repeat split; simpl; try constructor; try lia.
  intros Hs. apply elem_of_empty in Hs. destruct Hs.
Qed.

Lemma insertValue_insertBy v l :
  diagnostics.insertValue v l = flightplan.insertBy pb.Traversal v l.
Proof.
  induction l as [| w l IH]; simpl; [reflexivity |]. rewrite IH. reflexivity.
Qed.

Lemma sortValues_sortStableBy l :
  diagnostics.sortValues l = flightplan.sortStableBy pb.Traversal l.
Proof.
  unfold diagnostics.sortValues, flightplan.sortStableBy.
  induction l as [| v l IH]; simpl; [reflexivity |].
  rewrite IH. apply insertValue_insertBy.
Qed.

(** X3.  Every expression value that [FromHCL] attaches renders a prefix,
    of two steps or more, of one of the traversals of the expression; that
    prefix evaluates without errors, and the statement is the one for its
    value. *)
Theorem expressionValues_sound (ctx : option (hcl.EvalContext Value))
    (vars : list (hcl.Traversal Value)) (v : pb.Diagnostic_ExpressionValue) :
  In v (diagnostics.expressionValues ctx vars) -> spec.annotates ctx vars v.
Proof.
  unfold diagnostics.expressionValues. rewrite sortValues_sortStableBy.
  intros Hin.
  destruct (sortStableBy_sorted pb.Traversal (diagnostics.walkAll ctx vars).1)
    as [Hperm _].
  apply (Permutation_in _ Hperm) in Hin.
  destruct (walkAll_invariant ctx vars) as (_ & _ & Hsound & _).
  rewrite List.Forall_forall in Hsound. apply Hsound. exact Hin.
Qed.

(** X4.  The expression values of a diagnostic are in strictly ascending
    order of their traversal strings, so no traversal is shown twice, and
    there are at most as many as the expression has traversals. *)
Theorem expressionValues_sorted (ctx : option (hcl.EvalContext Value))
    (vars : list (hcl.Traversal Value)) :
  StronglySorted
    (fun a b => String.ltb (pb.Traversal a) (pb.Traversal b) = true)
    (diagnostics.expressionValues ctx vars) /\
  NoDup (map pb.Traversal (diagnostics.expressionValues ctx vars)) /\
  (length (diagnostics.expressionValues ctx vars) <= length vars)%nat.
Proof.
  unfold diagnostics.expressionValues. rewrite sortValues_sortStableBy.
  destruct (sortStableBy_sorted pb.Traversal (diagnostics.walkAll ctx vars).1)
    as [Hperm Hsorted].
  destruct (walkAll_invariant ctx vars) as (Hnodup & _ & _ & Hlen).
  assert (Hnodup' : NoDup (map pb.Traversal
             (flightplan.sortStableBy pb.Traversal (diagnostics.walkAll ctx vars).1))).
  { rewrite (Permutation_map pb.Traversal Hperm). exact Hnodup. }
  repeat apply conj.
  - apply sorted_strict; assumption.
  - exact Hnodup'.
  - rewrite (Permutation_length Hperm). exact Hlen.
Qed.

End FromHCLMore.

(** In a context where [foo] has the attribute [baz] only, the annotation
    of [foo.baz.qux] is the one for [foo.baz]. *)
Lemma expressionValues_sound_witness :
  let vars := [[hcl.TraverseRoot "foo"; hcl.TraverseAttr "baz";
                hcl.TraverseAttr "qux"]] in
  let v := {| pb.Traversal := "foo.baz";
              pb.Statement := "is " +:+ tiny.quote "x" |} in
  In v (diagnostics.expressionValues (Some examples.ctx) vars) /\
  spec.annotates (Some examples.ctx) vars v.
Proof.
  intros vars v.
  assert (Hev : diagnostics.expressionValues (Some examples.ctx) vars = [v])
    by (vm_compute; reflexivity).
  assert (Hin : In v (diagnostics.expressionValues (Some examples.ctx) vars))
    by (rewrite Hev; left; reflexivity).
  exact (conj Hin (expressionValues_sound (L := tiny.lib)
                     (Some examples.ctx) vars v Hin)).
Defined.

(** *** [FromTFJSON]: when it returns and what *)

Lemma complete_or_incomplete (din : tfjson.Diagnostic) :
  spec.complete din \/ spec.incomplete din.
Proof.
  unfold spec.complete, spec.incomplete.
  destruct (tfjson.Range_ din) as [rng |]; [| right; left; reflexivity].
  destruct (tfjson.Snippet din) as [snip |]; [| right; right; left; reflexivity].
  destruct (tfjson.Context snip) as [context |] eqn:Hc.
  - left. exists rng, snip, context. repeat split. exact Hc.
  - right. right. right. exists snip. split; [reflexivity | exact Hc].
Qed.

Lemma complete_not_incomplete (din : tfjson.Diagnostic) :
  spec.complete din -> spec.incomplete din -> False.
Proof.
  intros (rng & snip & context & Hr & Hs & Hc) [H | [H | (snip' & Hs' & Hc')]];
    try congruence.
Qed.

(** X5.  [FromTFJSON] panics exactly when one of the diagnostics given has
    no range, no snippet, or a snippet without context; otherwise it
    returns as many diagnostics as it is given. *)
Theorem FromTFJSON_panics_iff (input : list tfjson.Diagnostic) :
  (diagnostics.FromTFJSON input = Panics
   <-> exists din, In din input /\ spec.incomplete din) /\
  (forall out, diagnostics.FromTFJSON input = Returns out ->
               length out = length input).
Proof.
  assert (Hdec : Forall spec.complete input
                 \/ exists din, In din input /\ spec.incomplete din).
  { induction input as [| din input [IH | (x & Hx & Hinc)]].
    - left. constructor.
    - destruct (complete_or_incomplete din) as [Hc | Hi].
      + left. constructor; assumption.
      + right. exists din. split; [left; reflexivity | exact Hi].
    - right. exists x. split; [right; exact Hx | exact Hinc]. }
  destruct Hdec as [Hall | (din & Hin & Hinc)].
  - destruct (FromTFJSON_complete input Hall) as (out & Hout & Hlen).
    split.
    + split; [rewrite Hout; discriminate |].
      intros (din & Hin & Hinc). exfalso.
      rewrite List.Forall_forall in Hall.
      exact (complete_not_incomplete din (Hall din Hin) Hinc).
    + intros out' Hout'. rewrite Hout in Hout'. injection Hout' as <-. exact Hlen.
  - pose proof (FromTFJSON_incomplete input din Hin Hinc) as Hp.
    split.
    + split; [intros _; exists din; split; assumption | intros _; exact Hp].
    + intros out Hout. rewrite Hp in Hout. discriminate.
Qed.

Lemma translateTFJSON_translated (din : tfjson.Diagnostic) :
  spec.complete din ->
  exists d, diagnostics.translateTFJSON din = Returns d /\ spec.translated din d.
Proof.
  intros (rng & snip & context & Hr & Hs & Hc).
  unfold diagnostics.translateTFJSON. rewrite Hr, Hs. simpl. rewrite Hc. simpl.
  eexists. split; [reflexivity |].
  exists rng, snip, context. repeat split; assumption.
Qed.

(** X6.  On diagnostics that all have range, snippet and context,
    [FromTFJSON] returns, in order, one diagnostic for each, with summary,
    detail, range, code, start line, highlight offsets and expression
    values as given; the severity is error for [error], warning for
    [warning] and unknown for anything else. *)
Theorem FromTFJSON_verbatim (input : list tfjson.Diagnostic) :
  Forall spec.complete input ->
  (exists out, diagnostics.FromTFJSON input = Returns out /\
               Forall2 spec.translated input out) /\
  diagnostics.severityFromTFJSON "error" = pb.Diagnostic_SEVERITY_ERROR /\
  diagnostics.severityFromTFJSON "warning" = pb.Diagnostic_SEVERITY_WARNING /\
  (forall s, s <> "error" -> s <> "warning" ->
             diagnostics.severityFromTFJSON s = pb.Diagnostic_SEVERITY_UNKNOWN).
Proof.
  intros Hall. repeat apply conj; try reflexivity.
  - assert (exists out, mapO diagnostics.translateTFJSON input = Returns out /\
                        Forall2 spec.translated input out) as (out & Hout & Htr).
    { induction Hall as [| din l Hd _ (out & Hout & Htr)]; simpl.
      - exists []. split; [reflexivity | constructor].
      - destruct (translateTFJSON_translated din Hd) as (d & Hd' & Htd).
        rewrite Hd'. simpl. rewrite Hout. simpl.
        exists (d :: out). split; [reflexivity | constructor; assumption]. }
    exists out. split; [| exact Htr].
    unfold diagnostics.FromTFJSON. destruct input; [| exact Hout].
    simpl in Hout. exact Hout.
  - intros s He Hw. unfold diagnostics.severityFromTFJSON.
    apply String.eqb_neq in He, Hw.
    unfold tfjson.DiagnosticSeverityError, tfjson.DiagnosticSeverityWarning.
    rewrite He, Hw. reflexivity.
Qed.

Lemma FromTFJSON_verbatim_witness :
  Forall spec.complete [examples.tfWarning] /\
  exists out, diagnostics.FromTFJSON [examples.tfWarning] = Returns out /\
              Forall2 spec.translated [examples.tfWarning] out.
Proof.
  assert (Hall : Forall spec.complete [examples.tfWarning]).
  { constructor; [| constructor]. eexists _, _, _. repeat split. }
  exact (conj Hall (proj1 (FromTFJSON_verbatim [examples.tfWarning] Hall))).
Defined.

(** *** [appendSourceSnippets]: the split of the code *)

Lemma substring_append (s : string) :
  forall n m k,
    substring n m s +:+ substring (n + m) k s = substring n (m + k) s.
Proof.
  induction s as [| c s IH]; intros n m k.
  - destruct n, m, k; reflexivity.
  - destruct n as [| n].
    + destruct m as [| m]; [reflexivity |].
      cbn [Nat.add substring].
      change (String c (substring 0 m s +:+ substring m k s)
              = String c (substring 0 (m + k) s)).
      f_equal. apply (IH 0%nat m k).
    + cbn [Nat.add substring]. apply IH.
Qed.

Lemma substring_all (s : string) : substring 0 (String.length s) s = s.
Proof.
  induction s as [| c s IH]; [reflexivity |]. simpl. rewrite IH. reflexivity.
Qed.

Lemma sliceString_returns (s : string) (lo hi : Z) :
  0 <= lo <= hi -> hi <= len s ->
  diagnostics.sliceString s lo hi
  = Returns (substring (Z.to_nat lo) (Z.to_nat (hi - lo)) s).
Proof.
  intros [Hlo Hhi] Hlen. unfold diagnostics.sliceString.
  rewrite (proj2 (Z.leb_le 0 lo) Hlo), (proj2 (Z.leb_le lo hi) Hhi),
    (proj2 (Z.leb_le hi (len s)) Hlen).
  reflexivity.
Qed.

(** The offsets used for slicing are in order and within the code, unless
    the start offset is the largest [int] and the end offset is before
    it. *)
Lemma renderOffsets_in_code (code : string) (hs he : Z) :
  int64_range hs ->
  hs < 2 ^ 63 - 1 \/ hs <= he ->
  let r := diagnostics.renderOffsets code hs he in
  0 <= r.1 <= r.2 /\ r.2 <= len code.
Proof.
  intros Hrange Hcase. unfold diagnostics.renderOffsets.
  assert (Hlen : 0 <= len code) by (unfold len; lia).
  assert (Hwrap : hs < 2 ^ 63 - 1 -> wrap64 (hs + 1) = hs + 1).
  { intros H. apply wrap64_id. unfold int64_range in *. lia. }
  cbn [fst snd].
  destruct (Z.ltb_spec he hs) as [Hlt | Hge].
  - destruct Hcase as [Hmax | Hle]; [| lia]. rewrite (Hwrap Hmax).
    destruct (Z.gtb_spec (hs + 1) (len code));
      destruct (Z.ltb_spec hs 0); destruct (Z.gtb_spec hs (len code));
      repeat match goal with
             | |- context [?a <? ?b] => destruct (Z.ltb_spec a b)
             | |- context [?a >? ?b] => destruct (Z.gtb_spec a b)
             end; lia.
  - repeat match goal with
           | |- context [?a <? ?b] => destruct (Z.ltb_spec a b)
           | |- context [?a >? ?b] => destruct (Z.gtb_spec a b)
           end; lia.
Qed.

(** X7.  Unless the start offset of a snippet is the largest [int] with the
    end offset before it, the slicing of the code in [appendSourceSnippets]
    does not panic, whatever the offsets, and the three pieces, put
    together again, are the code. *)
Theorem splitHighlight_partitions (snippet : pb.Diagnostic_Snippet) :
  int64_range (pb.HighlightStartOffset snippet) ->
  pb.HighlightStartOffset snippet < 2 ^ 63 - 1
  \/ pb.HighlightStartOffset snippet <= pb.HighlightEndOffset snippet ->
  exists before highlight after,
    diagnostics.splitHighlight snippet = Returns (before, highlight, after) /\
    before +:+ highlight +:+ after = pb.Code snippet.
Proof.
  intros Hrange Hcase. unfold diagnostics.splitHighlight.
  pose proof (renderOffsets_in_code (pb.Code snippet) _ _ Hrange Hcase) as Hb.
  destruct (diagnostics.renderOffsets _ _ _) as [start end_].
  cbn [fst snd] in Hb. destruct Hb as [[Hs Hse] He].
  rewrite (sliceString_returns _ 0 start) by lia.
  rewrite (sliceString_returns _ start end_) by lia.
  rewrite (sliceString_returns _ end_ (len (pb.Code snippet))) by lia.
  cbn [bindO]. eexists _, _, _. split; [reflexivity |].
  rewrite Z.sub_0_r. change (Z.to_nat 0) with 0%nat.
  pose proof (substring_append (pb.Code snippet) (Z.to_nat start)
                (Z.to_nat (end_ - start))
                (Z.to_nat (len (pb.Code snippet) - end_))) as H1.
  replace (Z.to_nat start + Z.to_nat (end_ - start))%nat with (Z.to_nat end_)
    in H1 by lia.
  rewrite H1.
  pose proof (substring_append (pb.Code snippet) 0 (Z.to_nat start)
                (Z.to_nat (end_ - start)
                 + Z.to_nat (len (pb.Code snippet) - end_))) as H2.
  cbn [Nat.add] in H2. rewrite H2.
  replace (Z.to_nat start
           + (Z.to_nat (end_ - start) + Z.to_nat (len (pb.Code snippet) - end_)))%nat
    with (String.length (pb.Code snippet)) by (unfold len in *; lia).
  apply substring_all.
Qed.

(** A snippet of the engine whose end offset is before its start offset. *)
Lemma splitHighlight_partitions_witness :
  let snippet := {| pb.Context := EmptyString; pb.Code := "b = foo.bar";
                    pb.StartLine := 2; pb.HighlightStartOffset := 4;
                    pb.HighlightEndOffset := 2; pb.Values := [] |} in
  int64_range 4 /\ (4 < 2 ^ 63 - 1 \/ 4 <= 2) /\
  exists before highlight after,
    diagnostics.splitHighlight snippet = Returns (before, highlight, after) /\
    before +:+ highlight +:+ after = "b = foo.bar".
Proof.
  intros snippet.
  assert (Hrange : int64_range 4) by (unfold int64_range; lia).
  assert (Hcase : 4 < 2 ^ 63 - 1 \/ 4 <= 2) by (left; lia).
  exact (conj Hrange (conj Hcase
           (splitHighlight_partitions snippet Hrange Hcase))).
Defined.

(** X8.  For a snippet whose start offset is the largest [int], whose end
    offset is before it and whose code is not empty, the slicing of the
    code panics: the end offset wraps around to a negative number and is
    set to 0, while the start offset is capped at the length of the
    code. *)
Theorem splitHighlight_panics_at_max (snippet : pb.Diagnostic_Snippet) :
  pb.HighlightStartOffset snippet = 2 ^ 63 - 1 ->
  pb.HighlightEndOffset snippet < 2 ^ 63 - 1 ->
  0 < len (pb.Code snippet) < 2 ^ 63 - 1 ->
  diagnostics.renderOffsets (pb.Code snippet) (pb.HighlightStartOffset snippet)
                            (pb.HighlightEndOffset snippet)
  = (len (pb.Code snippet), 0) /\
  diagnostics.splitHighlight snippet = Panics.
Proof.
  intros Hs He Hlen.
  assert (Hr : diagnostics.renderOffsets (pb.Code snippet)
                 (pb.HighlightStartOffset snippet) (pb.HighlightEndOffset snippet)
               = (len (pb.Code snippet), 0)).
  { unfold diagnostics.renderOffsets. rewrite Hs.
    replace (pb.HighlightEndOffset snippet <? 2 ^ 63 - 1) with true
      by (symmetry; apply Z.ltb_lt; exact He).
    replace (wrap64 (2 ^ 63 - 1 + 1)) with (- 2 ^ 63) by reflexivity.
    destruct (Z.gtb_spec (- 2 ^ 63) (len (pb.Code snippet))); [lia |].
    destruct (Z.ltb_spec (2 ^ 63 - 1) 0); [lia |].
    destruct (Z.gtb_spec (2 ^ 63 - 1) (len (pb.Code snippet))); [| lia].
    destruct (Z.ltb_spec (- 2 ^ 63) 0); [reflexivity | lia]. }
  split; [exact Hr |].
  unfold diagnostics.splitHighlight. rewrite Hr.
  rewrite (sliceString_returns _ 0 (len (pb.Code snippet))) by lia.
  cbn [bindO]. unfold diagnostics.sliceString.
  replace (len (pb.Code snippet) <=? 0) with false
    by (symmetry; apply Z.leb_gt; lia).
  rewrite andb_false_r. reflexivity.
Qed.

(** A snippet of the engine with the start offset 9223372036854775807. *)
Lemma splitHighlight_panics_at_max_witness :
  let snippet := {| pb.Context := EmptyString; pb.Code := "b = foo.bar";
                    pb.StartLine := 2;
                    pb.HighlightStartOffset := 9223372036854775807;
                    pb.HighlightEndOffset := 0; pb.Values := [] |} in
  (0 < len (pb.Code snippet) < 2 ^ 63 - 1) /\
  (diagnostics.renderOffsets (pb.Code snippet) (pb.HighlightStartOffset snippet)
                             (pb.HighlightEndOffset snippet)
   = (len (pb.Code snippet), 0)) /\
  (diagnostics.splitHighlight snippet = Panics).
Proof.
  intros snippet.
  assert (Hlen : 0 < len (pb.Code snippet) < 2 ^ 63 - 1)
    by (unfold len; simpl; lia).
  exact (conj Hlen (splitHighlight_panics_at_max snippet eq_refl
                      ltac:(simpl; lia) Hlen)).
Defined.

(** *** [filterSubsets]: what is returned *)

Section FilterSubsetsMore.

Context `{P : flightplan.Pkg}.

Lemma filterSubsets_reduced (s : flightplan.Sample)
    (filter : option flightplan.Sample_Filter) :
  (flightplan.filterSubsets s filter).1 = spec.reduced s filter.
Proof.
  pose proof (filterSubsetsIn_reduces s filter) as [Hr _].
  unfold flightplan.filterSubsets.
  destruct (flightplan.filterSubsetsIn s filter) as [st r]. exact Hr.
Qed.

Lemma firstNamed_found subsets name x :
  spec.firstNamed subsets name = Some x ->
  In x subsets /\ flightplan.SampleSubset_Name x = name.
Proof.
  unfold spec.firstNamed. intros H. apply find_some in H as [Hin Hname].
  split; [exact Hin |]. apply String.eqb_eq in Hname. symmetry. exact Hname.
Qed.

Lemma selected_In subsets incl x :
  In x (omap (spec.firstNamed subsets) incl) ->
  In x subsets /\ In (flightplan.SampleSubset_Name x) incl.
Proof.
  induction incl as [| name incl IH]; simpl; [intros [] |].
  destruct (spec.firstNamed subsets name) as [y |] eqn:Hy.
  - intros [<- | Hin].
    + apply firstNamed_found in Hy as [Hy1 Hy2].
      split; [exact Hy1 | left; symmetry; exact Hy2].
    + destruct (IH Hin). split; [assumption | right; assumption].
  - intros Hin. destruct (IH Hin). split; [assumption | right; assumption].
Qed.

Lemma selected_length subsets incl :
  (length (omap (spec.firstNamed subsets) incl) <= length incl)%nat.
Proof.
  induction incl as [| name incl IH]; [simpl; lia |].
  change (omap (spec.firstNamed subsets) (name :: incl))
    with (match spec.firstNamed subsets name with
          | Some y => y :: omap (spec.firstNamed subsets) incl
          | None => omap (spec.firstNamed subsets) incl
          end).
  destruct (spec.firstNamed subsets name); simpl; lia.
Qed.

Lemma removeFirstNamed_In name l x :
  In x (spec.removeFirstNamed name l) -> In x l.
Proof.
  induction l as [| y l IH]; simpl; [auto |].
  destruct (String.eqb name (flightplan.SampleSubset_Name y)).
  - intros H. right. exact H.
  - intros [<- | H]; [left; reflexivity | right; apply IH; exact H].
Qed.

Lemma removeFirstNamed_length name l :
  (length (spec.removeFirstNamed name l) <= length l)%nat.
Proof.
  induction l as [| y l IH]; simpl; [lia |].
  destruct (String.eqb name (flightplan.SampleSubset_Name y)); simpl; lia.
Qed.

Lemma removeAll_In excl l x :
  In x (foldl (fun l name => spec.removeFirstNamed name l) l excl) -> In x l.
Proof.
  revert l. induction excl as [| name excl IH]; intros l; simpl; [auto |].
  intros H. apply IH in H. apply (removeFirstNamed_In name l x H).
Qed.

Lemma removeAll_length excl l :
  (length (foldl (fun l name => spec.removeFirstNamed name l) l excl)
   <= length l)%nat.
Proof.
  revert l. induction excl as [| name excl IH]; intros l; simpl; [lia |].
  pose proof (IH (spec.removeFirstNamed name l)).
  pose proof (removeFirstNamed_length name l). lia.
Qed.

(** X9.  Every subset that [filterSubsets] returns is a subset of the
    sample; with an include list its name is in that list and no more
    subsets are returned than the list has names; without one no more are
    returned than the sample has. *)
Theorem filterSubsets_selects (s : flightplan.Sample)
    (filter : option flightplan.Sample_Filter) :
  let r := (flightplan.filterSubsets s filter).1 in
  (forall x, In x r -> In x (flightplan.Subsets s)) /\
  (forall incl, filter ≫= flightplan.GetSubsets = Some incl ->
     (forall x, In x r -> In (flightplan.SampleSubset_Name x) incl) /\
     (length r <= length incl)%nat) /\
  (filter ≫= flightplan.GetSubsets = None ->
   (length r <= length (flightplan.Subsets s))%nat).
Proof.
  intros r. subst r. rewrite filterSubsets_reduced.
  unfold spec.reduced, spec.included. repeat apply conj.
  - intros x Hx. apply removeAll_In in Hx.
    destruct (filter ≫= flightplan.GetSubsets); [| exact Hx].
    apply selected_In in Hx as [Hx _]. exact Hx.
  - intros incl Hincl. rewrite Hincl. split.
    + intros x Hx. apply removeAll_In in Hx.
      apply selected_In in Hx as [_ Hx]. exact Hx.
    + pose proof (removeAll_length
                    (default [] (filter ≫= flightplan.GetExcludeSubsets))
                    (omap (spec.firstNamed (flightplan.Subsets s)) incl)).
      pose proof (selected_length (flightplan.Subsets s) incl). lia.
  - intros Hnone. rewrite Hnone. apply removeAll_length.
Qed.

(** With names that are all different, removing the first subset with a
    name removes every subset with it. *)
Lemma removeFirstNamed_filter name (l : list flightplan.SampleSubset) :
  NoDup (map flightplan.SampleSubset_Name l) ->
  spec.removeFirstNamed name l
  = List.filter (fun x => negb (String.eqb name (flightplan.SampleSubset_Name x))) l.
Proof.
  induction l as [| y l IH]; intros Hnodup; [reflexivity |].
  cbn [map] in Hnodup. apply NoDup_cons in Hnodup as [Hnotin Hnodup].
  cbn [spec.removeFirstNamed List.filter].
  destruct (String.eqb name (flightplan.SampleSubset_Name y)) eqn:Hy; cbn [negb].
  - apply String.eqb_eq in Hy. subst name.
    symmetry. apply forallb_filter_id. apply forallb_forall.
    intros x Hx. apply negb_true_iff, String.eqb_neq. intros Heq.
    apply Hnotin. rewrite Heq. apply list_elem_of_fmap.
    exists x. split; [reflexivity | apply list_elem_of_In; exact Hx].
  - rewrite IH by exact Hnodup. reflexivity.
Qed.

Lemma filter_names_NoDup (f : flightplan.SampleSubset -> bool)
    (l : list flightplan.SampleSubset) :
  NoDup (map flightplan.SampleSubset_Name l) ->
  NoDup (map flightplan.SampleSubset_Name (List.filter f l)).
Proof.
  induction l as [| y l IH]; intros Hnodup; [constructor |].
  cbn [map] in Hnodup. apply NoDup_cons in Hnodup as [Hnotin Hnodup].
  cbn [List.filter]. destruct (f y); [| apply IH; exact Hnodup].
  cbn [map]. apply NoDup_cons. split; [| apply IH; exact Hnodup].
  intros Hin. apply Hnotin. apply list_elem_of_fmap in Hin as (x & Hx & Hin).
  apply list_elem_of_fmap. exists x. split; [exact Hx |].
  apply list_elem_of_In. apply list_elem_of_In in Hin.
  apply filter_In in Hin. apply Hin.
Qed.

Lemma filter_twice {B} (f g : B -> bool) (l : list B) :
  List.filter g (List.filter f l) = List.filter (fun x => f x && g x) l.
Proof.
  induction l as [| x l IH]; [reflexivity |]. cbn [List.filter].
  destruct (f x); cbn [List.filter andb]; [| exact IH].
  destruct (g x); rewrite IH; reflexivity.
Qed.

Lemma removeAll_filter excl (l : list flightplan.SampleSubset) :
  NoDup (map flightplan.SampleSubset_Name l) ->
  foldl (fun l name => spec.removeFirstNamed name l) l excl
  = List.filter (fun x => negb (spec.named excl x)) l.
Proof.
  revert l. induction excl as [| name excl IH]; intros l Hnodup.
  - cbn [foldl]. symmetry. apply forallb_filter_id. apply forallb_forall.
    intros x _. reflexivity.
  - cbn [foldl]. rewrite removeFirstNamed_filter by exact Hnodup.
    rewrite IH by (apply filter_names_NoDup; exact Hnodup).
    rewrite filter_twice. apply filter_ext. intros x.
    unfold spec.named. cbn [existsb].
    rewrite negb_orb, (String.eqb_sym name). reflexivity.
Qed.

(** The subsets selected by an include list without repetitions have
    names that are all different. *)
Lemma selected_NoDup subsets incl :
  NoDup incl ->
  NoDup (map flightplan.SampleSubset_Name (omap (spec.firstNamed subsets) incl)).
Proof.
  induction incl as [| name incl IH]; intros Hnodup; [constructor |].
  apply NoDup_cons in Hnodup as [Hnotin Hnodup]. cbn [omap list_omap].
  destruct (spec.firstNamed subsets name) as [y |] eqn:Hy;
    [| apply IH; exact Hnodup].
  cbn [map]. apply NoDup_cons. split; [| apply IH; exact Hnodup].
  apply firstNamed_found in Hy as [_ Hname]. rewrite Hname.
  intros Hin. apply Hnotin. apply list_elem_of_fmap in Hin as (x & Hx & Hin).
  apply list_elem_of_In in Hin. apply selected_In in Hin as [_ Hin].
  rewrite Hx. apply list_elem_of_In. exact Hin.
Qed.

(** X10.  When the subsets of the sample have names that are all
    different and the include list names nothing twice, [filterSubsets]
    returns the included subsets without every subset that the exclude
    list names; without an include list that is the reduction in the order
    of the sample. *)
Theorem filterSubsets_excludes_all (s : flightplan.Sample)
    (filter : option flightplan.Sample_Filter) :
  NoDup (map flightplan.SampleSubset_Name (flightplan.Subsets s)) ->
  (forall incl, filter ≫= flightplan.GetSubsets = Some incl -> NoDup incl) ->
  let excl := default [] (filter ≫= flightplan.GetExcludeSubsets) in
  (flightplan.filterSubsets s filter).1
  = List.filter (fun x => negb (spec.named excl x)) (spec.included s filter) /\
  (forall x, In x (flightplan.filterSubsets s filter).1 ->
             ~ In (flightplan.SampleSubset_Name x) excl) /\
  (filter ≫= flightplan.GetSubsets = None ->
   (flightplan.filterSubsets s filter).1 = spec.filterSubsetsAsStated s filter).
Proof.
  intros Hnames Hincl excl.
  assert (Hnodup : NoDup (map flightplan.SampleSubset_Name (spec.included s filter))).
  { unfold spec.included.
    destruct (filter ≫= flightplan.GetSubsets) as [incl |] eqn:Hi; [| exact Hnames].
    apply selected_NoDup. apply Hincl. reflexivity. }
  assert (Heq : (flightplan.filterSubsets s filter).1
                = List.filter (fun x => negb (spec.named excl x))
                              (spec.included s filter)).
  { rewrite filterSubsets_reduced. unfold spec.reduced.
    apply removeAll_filter. exact Hnodup. }
  repeat apply conj.
  - exact Heq.
  - intros x Hx Hin. rewrite Heq in Hx. apply filter_In in Hx as [_ Hx].
    apply negb_true_iff in Hx. unfold spec.named in Hx.
    assert (Hex : existsb (String.eqb (flightplan.SampleSubset_Name x)) excl = true).
    { apply existsb_exists. exists (flightplan.SampleSubset_Name x).
      split; [exact Hin | apply String.eqb_refl]. }
    congruence.
  - intros Hnone. rewrite Heq. unfold spec.filterSubsetsAsStated, spec.included.
    rewrite Hnone. subst excl.
    destruct (filter ≫= flightplan.GetExcludeSubsets) as [e |]; [reflexivity |].
    cbn [default]. apply forallb_filter_id. apply forallb_forall.
    intros x _. reflexivity.
Qed.

End FilterSubsetsMore.

(** Include [b, a], exclude [a], on the sample with the subsets [a, b, c]. *)
Lemma filterSubsets_excludes_all_witness :
  let filter := examples.sampleFilter (Some ["b"; "a"]) (Some ["a"]) in
  NoDup (map flightplan.SampleSubset_Name (flightplan.Subsets examples.sample)) /\
  (forall incl, filter ≫= flightplan.GetSubsets = Some incl -> NoDup incl) /\
  (forall x, In x (flightplan.filterSubsets examples.sample filter).1 ->
             ~ In (flightplan.SampleSubset_Name x) ["a"]).
Proof.
  intros filter.
  assert (Hnames : NoDup (map flightplan.SampleSubset_Name
                            (flightplan.Subsets examples.sample))).
  { apply (bool_decide_unpack _). vm_compute. exact I. }
  assert (Hincl : forall incl, filter ≫= flightplan.GetSubsets = Some incl ->
                               NoDup incl).
  { intros incl [= <-]. apply (bool_decide_unpack _). vm_compute. exact I. }
  exact (conj Hnames (conj Hincl
           (proj1 (proj2 (filterSubsets_excludes_all (P := tiny.pkg)
                            examples.sample filter Hnames Hincl))))).
Defined.

(** *** [filterSubsets]: what happens to the sample *)

Section FilterSubsetsAliasing.

Context `{P : flightplan.Pkg}.

Lemma removeAt_length st sl j :
  (j < flightplan.slen sl)%nat ->
  (flightplan.slen sl <= length (flightplan.arrayOf st (flightplan.array sl)))%nat ->
  forall r,
    length (flightplan.arrayOf (flightplan.removeAt st sl j).1 r)
    = length (flightplan.arrayOf st r).
Proof.
  intros Hj Hlen r. unfold flightplan.removeAt. cbn [fst].
  destruct (flightplan.array sl) eqn:Harr, r; cbn in *; try reflexivity;
    rewrite !length_app, length_take, !length_drop, length_take; lia.
Qed.

(** The exclude loop keeps the array of its slice and the lengths of both
    arrays, and does not make the slice longer. *)
Lemma excludeLoop_shape excl :
  forall st sl,
    (flightplan.slen sl <= length (flightplan.arrayOf st (flightplan.array sl)))%nat ->
    let r := flightplan.excludeLoop excl st sl in
    flightplan.array r.2 = flightplan.array sl /\
    (flightplan.slen r.2 <= flightplan.slen sl)%nat /\
    (forall a, length (flightplan.arrayOf r.1 a) = length (flightplan.arrayOf st a)).
Proof.
  induction excl as [| name excl IH]; intros st sl Hlen; simpl.
  - repeat split. lia.
  - destruct (flightplan.indexOfName name (flightplan.elems st sl)) as [j |] eqn:Hj.
    + apply indexOfName_lt in Hj.
      assert (Hj' : (j < flightplan.slen sl)%nat).
      { unfold flightplan.elems in Hj. rewrite length_take in Hj. lia. }
      destruct (removeAt_elems st sl j Hj' Hlen) as (_ & Harr & Hlen').
      pose proof (removeAt_length st sl j Hj' Hlen) as Hkeep.
      assert (Hslen : flightplan.slen (flightplan.removeAt st sl j).2
                      = (flightplan.slen sl - 1)%nat) by reflexivity.
      destruct (flightplan.removeAt st sl j) as [st' sl']. cbn [fst snd] in *.
      destruct (IH st' sl' Hlen') as (IH1 & IH2 & IH3).
      repeat split.
      * congruence.
      * lia.
      * intros a. rewrite IH3. apply Hkeep.
    + apply IH. exact Hlen.
Qed.

Lemma filterSubsetsIn_shape (s : flightplan.Sample)
    (filter : option flightplan.Sample_Filter) :
  let r := flightplan.filterSubsetsIn s filter in
  length (flightplan.sampleArray r.1) = length (flightplan.Subsets s) /\
  (filter ≫= flightplan.GetSubsets = None ->
   forall sl, r.2 = Some sl ->
              flightplan.array sl = flightplan.SampleArray /\
              (flightplan.slen sl <= length (flightplan.Subsets s))%nat).
Proof.
  unfold flightplan.filterSubsetsIn.
  set (st0 := {| flightplan.sampleArray := flightplan.Subsets s;
                 flightplan.newArray := [] |}).
  set (all := {| flightplan.array := flightplan.SampleArray;
                 flightplan.slen := length (flightplan.Subsets s) |}).
  destruct (length (flightplan.Subsets s) <? 1)%nat.
  { cbn [fst snd]. split; [reflexivity | intros _ sl [=]]. }
  destruct filter as [f |]; cbn [mbind option_bind].
  2:{ cbn [fst snd]. split; [reflexivity |].
      intros _ sl [= <-]. split; [reflexivity | cbn; lia]. }
  destruct (flightplan.GetSubsets f) as [incl |].
  - set (newSubs := flightplan.includeLoop incl (flightplan.elems st0 all) []).
    set (st1 := flightplan.setArray st0 flightplan.NewArray newSubs).
    set (sl1 := {| flightplan.array := flightplan.NewArray;
                   flightplan.slen := length newSubs |}).
    destruct (flightplan.GetExcludeSubsets f) as [excl |].
    + destruct (excludeLoop_shape excl st1 sl1) as (_ & _ & Hkeep); [cbn; lia |].
      specialize (Hkeep flightplan.SampleArray).
      destruct (flightplan.excludeLoop excl st1 sl1) as [st' sl'].
      cbn [fst snd] in *. split; [exact Hkeep | intros [=]].
    + cbn [fst snd]. split; [reflexivity | intros [=]].
  - destruct (flightplan.GetExcludeSubsets f) as [excl |].
    + destruct (excludeLoop_shape excl st0 all) as (Harr & Hslen & Hkeep);
        [cbn; lia |].
      specialize (Hkeep flightplan.SampleArray).
      destruct (flightplan.excludeLoop excl st0 all) as [st' sl'].
      cbn [fst snd] in *. split; [exact Hkeep |].
      intros _ sl [= <-]. split; [exact Harr | exact Hslen].
    + cbn [fst snd]. split; [reflexivity |].
      intros _ sl [= <-]. split; [reflexivity | cbn; lia].
Qed.

(** X11.  [filterSubsets] never changes the number of subsets of the
    sample.  Without an include list the slice it returns lies in the
    array of the sample: the subsets returned are the first subsets of the
    sample as it is afterwards. *)
Theorem filterSubsets_shares_array (s : flightplan.Sample)
    (filter : option flightplan.Sample_Filter) :
  let r := flightplan.filterSubsets s filter in
  length (flightplan.Subsets r.2) = length (flightplan.Subsets s) /\
  flightplan.SampleName r.2 = flightplan.SampleName s /\
  (filter ≫= flightplan.GetSubsets = None ->
   r.1 = take (length r.1) (flightplan.Subsets r.2)).
Proof.
  pose proof (filterSubsetsIn_shape s filter) as [Hlen Hshape].
  unfold flightplan.filterSubsets.
  destruct (flightplan.filterSubsetsIn s filter) as [st r].
  cbn [fst snd flightplan.Subsets flightplan.SampleName] in *.
  repeat apply conj.
  - rewrite length_take. lia.
  - reflexivity.
  - intros Hnone. destruct r as [sl |]; [| reflexivity].
    destruct (Hshape Hnone sl eq_refl) as [Harr Hslen].
    unfold flightplan.elems. rewrite Harr. cbn [flightplan.arrayOf].
    rewrite length_take, take_take. f_equal. lia.
Qed.

End FilterSubsetsAliasing.

(** Excluding [a] from the sample with the subsets [a, b, c]. *)
Lemma filterSubsets_shares_array_witness :
  let filter := examples.sampleFilter None (Some ["a"]) in
  let r := flightplan.filterSubsets examples.sample filter in
  filter ≫= flightplan.GetSubsets = None /\
  r.1 = take (length r.1) (flightplan.Subsets r.2) /\
  length (flightplan.Subsets r.2) = 3%nat.
Proof.
  intros filter r.
  destruct (filterSubsets_shares_array (P := tiny.pkg) examples.sample filter)
    as (Hlen & _ & Hprefix).
  exact (conj eq_refl (conj (Hprefix eq_refl) Hlen)).
Defined.

(** *** [Frame]: the frames in the map and the first failure *)

Section FrameMore.

Context `{P : flightplan.Pkg}.

Lemma filterSubsets_shares_array_name (s : flightplan.Sample)
    (filter : option flightplan.Sample_Filter) :
  flightplan.SampleName (flightplan.filterSubsets s filter).2
  = flightplan.SampleName s.
Proof.
  unfold flightplan.filterSubsets.
  destruct (flightplan.filterSubsetsIn s filter) as [st r]. reflexivity.
Qed.

(** A frame under a key comes from the old map or from a subset with that
    name, with the name of the sample set. *)
Lemma frameLoop_values name subsets :
  forall (frames frames' : gmap string flightplan.SampleSubsetFrame) k fr,
    flightplan.frameLoop name subsets frames = inl frames' ->
    frames' !! k = Some fr ->
    frames !! k = Some fr \/
    exists x fr0,
      In x subsets /\ flightplan.SampleSubset_Name x = k /\
      flightplan.SampleSubset_Frame x = (Some fr0, None) /\
      fr = flightplan.SampleSubsetFrame_setSampleName fr0 name.
Proof.
  induction subsets as [| x subsets IH]; intros frames frames' k fr; simpl.
  - intros [= <-] Hk. left. exact Hk.
  - destruct (flightplan.SampleSubset_Frame x) as [[fr0 |] [err |]] eqn:Hx;
      try discriminate.
    + intros Hloop Hk. destruct (IH _ _ _ _ Hloop Hk) as [Hold | Hnew].
      * destruct (decide (flightplan.SampleSubset_Name x = k)) as [Heq | Hne].
        -- rewrite <- Heq, lookup_insert_eq in Hold. injection Hold as <-.
           right. exists x, fr0. repeat split; auto.
        -- rewrite lookup_insert_ne in Hold by exact Hne. left. exact Hold.
      * destruct Hnew as (y & fr1 & Hin & Hrest).
        right. exists y, fr1. split; [right; exact Hin | exact Hrest].
    + intros Hloop Hk. destruct (IH _ _ _ _ Hloop Hk) as [Hold | Hnew].
      * left. exact Hold.
      * destruct Hnew as (y & fr1 & Hin & Hrest).
        right. exists y, fr1. split; [right; exact Hin | exact Hrest].
Qed.

(** The loop stops at the first subset that fails. *)
Lemma frameLoop_first_failure name pre x post err :
  forall frames : gmap string flightplan.SampleSubsetFrame,
    (forall y, In y pre -> (flightplan.SampleSubset_Frame y).2 = None) ->
    (flightplan.SampleSubset_Frame x).2 = Some err ->
    flightplan.frameLoop name (pre ++ x :: post) frames = inr err.
Proof.
  induction pre as [| y pre IH]; intros frames Hpre Hx; simpl.
  - destruct (flightplan.SampleSubset_Frame x) as [[fr |] [e |]];
      simpl in Hx; congruence.
  - pose proof (Hpre y (or_introl eq_refl)) as Hy.
    assert (Hpre' : forall z, In z pre -> (flightplan.SampleSubset_Frame z).2 = None)
      by (intros z Hz; apply Hpre; right; exact Hz).
    destruct (flightplan.SampleSubset_Frame y) as [[fr |] [e |]];
      simpl in Hy; try discriminate; apply IH; assumption.
Qed.

(** X12.  In a frame that [Frame] returns the filter is the one given and
    the sample has the name of the sample framed; every frame in
    [SubsetFrames] is the frame of a surviving subset whose name is its
    key, with the name of the sample set on it. *)
Theorem Frame_frames_of_subsets (filterString : string) (s : flightplan.Sample)
    (filter : option flightplan.Sample_Filter) (f : flightplan.SampleFrame)
    (resp : option pb.DecodeResponse) :
  flightplan.Frame filterString s filter = (Some f, resp) ->
  resp = None /\
  flightplan.FrameFilter f = filter /\
  flightplan.SampleName (flightplan.FrameSample f) = flightplan.SampleName s /\
  forall k fr,
    flightplan.SubsetFrames f !! k = Some fr ->
    exists x fr0,
      In x (flightplan.filterSubsets s filter).1 /\
      flightplan.SampleSubset_Name x = k /\
      flightplan.SampleSubset_Frame x = (Some fr0, None) /\
      fr = flightplan.SampleSubsetFrame_setSampleName fr0 (flightplan.SampleName s).
Proof.
  unfold flightplan.Frame.
  pose proof (filterSubsets_shares_array_name s filter) as Hname.
  destruct (flightplan.filterSubsets s filter) as [subsets s']. cbn [fst snd] in *.
  destruct (length subsets <? 1)%nat; [discriminate |].
  destruct (flightplan.frameLoop (flightplan.SampleName s') subsets ∅)
    as [frames | err] eqn:Hloop; [| discriminate].
  intros [= <- <-]. cbn. repeat split; [exact Hname |].
  intros k fr Hk.
  destruct (frameLoop_values _ _ _ _ _ _ Hloop Hk) as [Hold | Hnew].
  - rewrite lookup_empty in Hold. discriminate.
  - rewrite Hname in Hnew. exact Hnew.
Qed.

(** X13.  When the framing of a surviving subset fails and that of the
    subsets before it does not, [Frame] returns no frame and the response
    of that subset: the subsets after it are not framed. *)
Theorem Frame_first_failure (filterString : string) (s : flightplan.Sample)
    (filter : option flightplan.Sample_Filter)
    (pre post : list flightplan.SampleSubset) (x : flightplan.SampleSubset)
    (err : pb.DecodeResponse) :
  (flightplan.filterSubsets s filter).1 = pre ++ x :: post ->
  (forall y, In y pre -> (flightplan.SampleSubset_Frame y).2 = None) ->
  (flightplan.SampleSubset_Frame x).2 = Some err ->
  flightplan.Frame filterString s filter = (None, Some err).
Proof.
  intros Hsubsets Hpre Hx. unfold flightplan.Frame.
  destruct (flightplan.filterSubsets s filter) as [subsets s']. cbn [fst] in *.
  subst subsets.
  replace (length (pre ++ x :: post) <? 1)%nat with false
    by (symmetry; apply Nat.ltb_ge; rewrite length_app; simpl; lia).
  rewrite (frameLoop_first_failure _ pre x post err ∅ Hpre Hx). reflexivity.
Qed.

(** When no surviving subset fails, [Frame] returns a frame. *)
Lemma Frame_returns_frame (filterString : string) (s : flightplan.Sample)
    (filter : option flightplan.Sample_Filter) :
  (flightplan.filterSubsets s filter).1 <> [] ->
  (forall x, In x (flightplan.filterSubsets s filter).1 ->
             (flightplan.SampleSubset_Frame x).2 = None) ->
  exists f, flightplan.Frame filterString s filter = (Some f, None).
Proof.
  intros Hne Hok. unfold flightplan.Frame.
  destruct (flightplan.filterSubsets s filter) as [subsets s']. cbn [fst] in *.
  destruct subsets as [| x xs]; [congruence |].
  replace (length (x :: xs) <? 1)%nat with false by reflexivity.
  destruct (frameLoop_frames (flightplan.SampleName s') (x :: xs) ∅ Hok)
    as (frames & Hloop & _).
  rewrite Hloop. eexists. reflexivity.
Qed.

End FrameMore.

(** Framing the sample without the subset that cannot be framed. *)
Lemma Frame_frames_of_subsets_witness :
  let filter := examples.sampleFilter None (Some ["c"]) in
  exists f,
    flightplan.Frame "exclude c" examples.sample filter = (Some f, None) /\
    flightplan.FrameFilter f = filter /\
    forall k fr,
      flightplan.SubsetFrames f !! k = Some fr ->
      exists x fr0,
        In x (flightplan.filterSubsets examples.sample filter).1 /\
        flightplan.SampleSubset_Name x = k /\
        flightplan.SampleSubset_Frame x = (Some fr0, None) /\
        fr = flightplan.SampleSubsetFrame_setSampleName fr0 "nightly".
Proof.
  intros filter.
  destruct (Frame_returns_frame (P := tiny.pkg) "exclude c" examples.sample filter)
    as [f Hframe].
  - discriminate.
  - intros x [<- | [<- | []]]; reflexivity.
  - destruct (Frame_frames_of_subsets (P := tiny.pkg) "exclude c" examples.sample
                filter f None Hframe) as (_ & Hfilter & _ & Hframes).
    exists f. exact (conj Hframe (conj Hfilter Hframes)).
Defined.

(** Framing the whole sample: the third subset fails. *)
Lemma Frame_first_failure_witness :
  let filter := examples.sampleFilter None None in
  (flightplan.filterSubsets examples.sample filter).1
  = [examples.subsetA; examples.subsetB] ++ examples.subsetC :: [] /\
  flightplan.Frame "all" examples.sample filter
  = (None,
     Some {| pb.Diagnostics :=
               diagnostics.FromErr (Some "subset has no scenario filter") |}).
Proof.
  intros filter.
  assert (Hsubsets : (flightplan.filterSubsets examples.sample filter).1
                     = [examples.subsetA; examples.subsetB]
                       ++ examples.subsetC :: []) by reflexivity.
  split; [exact Hsubsets |].
  apply (Frame_first_failure (P := tiny.pkg) "all" examples.sample filter
           [examples.subsetA; examples.subsetB] [] examples.subsetC _ Hsubsets).
  - intros y [<- | [<- | []]]; reflexivity.
  - reflexivity.
Defined.

(** *** [Sample.Decode] and [decodeAndValidateSampleAttrs] *)

Lemma HasErrors_app {V} (a b : list (hcl.Diagnostic V)) :
  hcl.HasErrors (a ++ b) = hcl.HasErrors a || hcl.HasErrors b.
Proof. unfold hcl.HasErrors. apply existsb_app. Qed.

Section SampleDecode.

Context `{P : flightplan.Pkg} `{SD : !flightplan.SampleDeps}.

(** X14.  [decodeAndValidateSampleAttrs] returns no value and no
    diagnostics without an attribute.  With one, it returns diagnostics
    without errors exactly when the attribute evaluates without errors to a
    value that is null or is wholly known and can be iterated, and then it
    returns that value. *)
Theorem decodeAndValidateSampleAttrs_accepts
    (attr : flightplan.Attribute) (ctx : option (hcl.EvalContext Value)) :
  let r := flightplan.decodeAndValidateSampleAttrs (Some attr) ctx in
  let ev := flightplan.Attribute_Value attr ctx in
  flightplan.decodeAndValidateSampleAttrs None ctx = (None, []) /\
  (hcl.HasErrors r.2 = false <->
   hcl.HasErrors ev.2 = false /\
   (Value_IsNull ev.1 = true \/
    (flightplan.Value_IsWhollyKnown ev.1 = true /\
     flightplan.Value_CanIterateElements ev.1 = true))) /\
  (hcl.HasErrors r.2 = false -> r = (Some ev.1, ev.2)).
Proof.
  intros r ev. subst r ev. unfold flightplan.decodeAndValidateSampleAttrs.
  destruct (flightplan.Attribute_Value attr ctx) as [val diags]. cbn [fst snd].
  split; [reflexivity |].
  destruct (hcl.HasErrors diags) eqn:Herr.
  { cbn [fst snd]. rewrite Herr. split; [| discriminate].
    split; [discriminate | intros [? _]; discriminate]. }
  destruct (Value_IsNull val) eqn:Hnull.
  { cbn [fst snd]. rewrite Herr. split; [| reflexivity].
    split; [intros _; split; [reflexivity | left; reflexivity] | reflexivity]. }
  destruct (flightplan.Value_IsWhollyKnown val) eqn:Hknown; cbn [negb].
  2:{ cbn [fst snd]. rewrite HasErrors_app, Herr. cbn. split; [| discriminate].
      split; [discriminate |]. intros [_ [? | [? _]]]; discriminate. }
  destruct (flightplan.Value_CanIterateElements val) eqn:Hiter; cbn [negb].
  2:{ cbn [fst snd]. rewrite HasErrors_app, Herr. cbn. split; [| discriminate].
      split; [discriminate |]. intros [_ [? | [_ ?]]]; discriminate. }
  cbn [fst snd]. rewrite Herr. split; [| reflexivity].
  split; [intros _; split; [reflexivity | right; split; reflexivity] | reflexivity].
Qed.

(** What the loop over the subset blocks keeps true: the names seen are
    the names of the subsets, which are all different. *)
Lemma decodeSubsets_invariant ctx blocks :
  forall names subsets diags,
    (forall n, n ∈ names <-> In n (map flightplan.SampleSubset_Name subsets)) ->
    NoDup (map flightplan.SampleSubset_Name subsets) ->
    let r := flightplan.decodeSubsets ctx blocks names subsets diags in
    NoDup (map flightplan.SampleSubset_Name r.1) /\
    (hcl.HasErrors r.2 = false ->
     hcl.HasErrors diags = false /\
     length r.1 = (length subsets + length blocks)%nat).
Proof.
  induction blocks as [| block blocks IH]; intros names subsets diags Hseen Hnodup.
  - cbn. split; [exact Hnodup |]. intros H. split; [exact H | lia].
  - cbn [flightplan.decodeSubsets].
    destruct (hcl.HasErrors (flightplan.verifyBlockLabelsAreValidIdentifiers block))
      eqn:Hverify.
    { destruct (IH names subsets
                  (diags ++ flightplan.verifyBlockLabelsAreValidIdentifiers block)
                  Hseen Hnodup) as [IH1 IH2].
      split; [exact IH1 |]. intros H. destruct (IH2 H) as [Hd _].
      rewrite HasErrors_app, Hverify, orb_true_r in Hd. discriminate. }
    destruct (flightplan.SampleSubset_decode block ctx) as [ss moreDiags].
    destruct (hcl.HasErrors moreDiags) eqn:Hdecode.
    { cbn [fst snd]. split; [exact Hnodup |].
      rewrite !HasErrors_app, Hdecode, orb_true_r. discriminate. }
    destruct (bool_decide (flightplan.SampleSubset_Name ss ∈ names)) eqn:Hdup.
    { cbn [fst snd]. split; [exact Hnodup |].
      rewrite !HasErrors_app. cbn. rewrite !orb_true_r. discriminate. }
    apply bool_decide_eq_false in Hdup.
    match goal with
    | |- context [flightplan.decodeSubsets ctx blocks ?n ?s ?d] =>
        destruct (IH n s d) as [IH1 IH2]
    end.
    + intros n. rewrite List.map_app, in_app_iff. cbn. split.
      * intros Hn. apply elem_of_union in Hn as [Hn | Hn].
        -- apply elem_of_singleton in Hn. right. left. symmetry. exact Hn.
        -- left. apply Hseen. exact Hn.
      * intros [Hn | [Hn | []]].
        -- apply elem_of_union. right. apply Hseen. exact Hn.
        -- apply elem_of_union. left. apply elem_of_singleton. symmetry. exact Hn.
    + rewrite List.map_app. cbn [map]. apply NoDup_app. repeat split.
      * exact Hnodup.
      * intros n Hn Hn'. apply list_elem_of_In in Hn.
        apply list_elem_of_singleton in Hn'. subst n.
        apply Hdup. apply Hseen. exact Hn.
      * apply NoDup_singleton.
    + split; [exact IH1 |]. intros H. destruct (IH2 H) as [Hd Hlen].
      rewrite !HasErrors_app in Hd.
      apply orb_false_elim in Hd as [Hd _]. apply orb_false_elim in Hd as [Hd _].
      split; [exact Hd |]. rewrite Hlen, length_app. simpl. lia.
Qed.

(** X15.  [Sample.Decode] on a new sample panics exactly when the block has
    no labels.  Otherwise the sample gets the first label as its name and
    subsets whose names are all different; when the diagnostics returned
    have no errors, the sample has one subset for each subset block of the
    body, and at least one. *)
Theorem Sample_Decode_subsets (s : flightplan.Sample) (block : flightplan.Block)
    (ctx : option (hcl.EvalContext Value)) :
  flightplan.Subsets s = [] ->
  (flightplan.Sample_Decode s block ctx = Panics
   <-> flightplan.Block_Labels block = []) /\
  forall s' diags,
    flightplan.Sample_Decode s block ctx = Returns (s', diags) ->
    head (flightplan.Block_Labels block) = Some (flightplan.SampleName s') /\
    NoDup (map flightplan.SampleSubset_Name (flightplan.Subsets s')) /\
    (hcl.HasErrors diags = false ->
     (1 <= length (flightplan.Subsets s'))%nat /\
     length (flightplan.Subsets s')
     = length (List.filter
                 (fun b => String.eqb (flightplan.Block_Type b)
                                      flightplan.blockTypeSampleSubset)
                 (flightplan.Block_Content block).1.2)).
Proof.
  intros Hnew. unfold flightplan.Sample_Decode.
  destruct (flightplan.Block_Labels block) as [| label labels]; cbn [head deref bindO].
  { split; [split; reflexivity | intros s' diags [=]]. }
  destruct (flightplan.Block_Content block) as [[attributes blocks] contentDiags].
  cbn [fst snd].
  destruct (hcl.HasErrors contentDiags) eqn:Hcontent.
  { split; [split; discriminate |]. intros s' diags [= <- <-]. cbn.
    rewrite Hnew. split; [reflexivity | split; [apply NoDup_nil_2 | congruence]]. }
  destruct (flightplan.decodeAndValidateSampleAttrs (attributes !! "attributes") ctx)
    as [attrs attrDiags].
  destruct (hcl.HasErrors attrDiags) eqn:Hattrs.
  { split; [split; discriminate |]. intros s' diags [= <- <-]. cbn.
    rewrite Hnew. split; [reflexivity | split; [apply NoDup_nil_2 |]].
    rewrite HasErrors_app, Hattrs, orb_true_r. discriminate. }
  set (subsets := List.filter _ blocks).
  destruct (length subsets <? 1)%nat eqn:Hnone.
  { split; [split; discriminate |]. intros s' diags [= <- <-]. cbn.
    rewrite Hnew. split; [reflexivity | split; [apply NoDup_nil_2 |]].
    rewrite !HasErrors_app. cbn. rewrite !orb_true_r. discriminate. }
  apply Nat.ltb_ge in Hnone. cbn [flightplan.Subsets flightplan.SampleName
    flightplan.Attributes].
  pose proof (decodeSubsets_invariant ctx subsets ∅ (flightplan.Subsets s)
                (contentDiags ++ attrDiags)) as Hinv.
  destruct (flightplan.decodeSubsets ctx subsets ∅ (flightplan.Subsets s)
              (contentDiags ++ attrDiags)) as [subs diags'].
  split; [split; discriminate |]. intros s' diags [= <- <-]. cbn.
  rewrite Hnew in Hinv. destruct Hinv as [Hnodup Hok].
  - intros n. cbn. split; [intros Hn; apply elem_of_empty in Hn; exact Hn | intros []].
  - apply NoDup_nil_2.
  - cbn [fst snd] in *. split; [reflexivity | split; [exact Hnodup |]].
    intros Herr. destruct (Hok Herr) as [_ Hlen]. simpl in Hlen. lia.
Qed.

End SampleDecode.

(** Decoding the sample block [nightly] with two subsets. *)
Lemma Sample_Decode_subsets_witness :
  flightplan.Subsets examples.newSample = [] /\
  exists s' diags,
    flightplan.Sample_Decode examples.newSample examples.sampleBlock None
    = Returns (s', diags) /\
    flightplan.SampleName s' = "nightly" /\
    hcl.HasErrors diags = false /\
    NoDup (map flightplan.SampleSubset_Name (flightplan.Subsets s')) /\
    length (flightplan.Subsets s') = 2%nat.
Proof.
  split; [reflexivity |].
  set (s' := @flightplan.mkSample tiny.lib tiny.pkg "nightly"
                (Some (tiny.VAttr "aws_region" (tiny.VString "us-east-1")
                                  tiny.VEmptyObject))
                [ {| tiny.subsetName := "a"; tiny.subsetScenario := Some "smoke" |};
                  {| tiny.subsetName := "b"; tiny.subsetScenario := Some "upgrade" |} ]).
  assert (Hdecode : flightplan.Sample_Decode examples.newSample
                      examples.sampleBlock None = Returns (s', []))
    by (vm_compute; reflexivity).
  destruct (Sample_Decode_subsets (P := tiny.pkg) (SD := examples.sampleDeps)
              examples.newSample examples.sampleBlock None eq_refl)
    as [_ Hok].
  destruct (Hok s' [] Hdecode) as (_ & Hnodup & _).
  exists s', [].
  exact (conj Hdecode (conj eq_refl (conj eq_refl (conj Hnodup eq_refl)))).
Defined.

(** *** [NewScenarioDecoder] *)

Section DecoderMore.

Context `{P : flightplan.Pkg} `{M : !flightplan.MatrixOps}.

(** X16.  [NewScenarioDecoder] returns the decoder configured by the
    options exactly when its target lies between
    [ScenariosNamesNoVariants] and [All], and the error otherwise, as it
    does without options; the check of the levels below
    [ScenariosComplete] rejects nothing.  With the three options of the
    package the decoder has the context, the target and the filter
    given. *)
Theorem NewScenarioDecoder_accepts (opts : list flightplan.ScenarioDecoderOpt) :
  let d := spec.configured opts in
  (flightplan.DecodeTargetScenariosNamesNoVariants <= flightplan.DecodeTarget_ d
   <= flightplan.DecodeTargetAll ->
   flightplan.NewScenarioDecoder opts = inl d) /\
  (~ (flightplan.DecodeTargetScenariosNamesNoVariants <= flightplan.DecodeTarget_ d
      <= flightplan.DecodeTargetAll) ->
   flightplan.NewScenarioDecoder opts
   = inr (flightplan.unsupportedTarget (flightplan.DecodeTarget_ d))) /\
  flightplan.NewScenarioDecoder []
  = inr (flightplan.unsupportedTarget flightplan.DecodeTargetUnset) /\
  (forall ctx t f,
      spec.configured [flightplan.WithScenarioDecoderEvalContext ctx;
                       flightplan.WithScenarioDecoderDecodeTarget t;
                       flightplan.WithScenarioDecoderScenarioFilter f]
      = {| flightplan.EvalContext := ctx;
           flightplan.DecodeTarget_ := t;
           flightplan.ScenarioFilter_ := f |}).
Proof.
  intros d. subst d. unfold flightplan.NewScenarioDecoder.
  fold (spec.configured opts).
  unfold flightplan.DecodeTargetScenariosNamesNoVariants,
    flightplan.DecodeTargetAll, flightplan.DecodeTargetUnset,
    flightplan.DecodeTargetScenariosNamesExpandVariants,
    flightplan.DecodeTargetScenariosMatrixOnly,
    flightplan.DecodeTargetScenariosComplete.
  set (t := flightplan.DecodeTarget_ (spec.configured opts)).
  repeat apply conj; try reflexivity.
  - intros Ht.
    destruct (Z.leb_spec t 0); [lia |]. destruct (Z.gtb_spec t 5); [lia |].
    cbn [orb].
    destruct (Z.eqb_spec t 3), (Z.eqb_spec t 2), (Z.eqb_spec t 1);
      cbn [negb andb]; try reflexivity.
    destruct (Z.ltb_spec t 4); [lia | reflexivity].
  - intros Ht.
    destruct (Z.leb_spec t 0); [reflexivity |].
    destruct (Z.gtb_spec t 5); [reflexivity | lia].
Qed.

End DecoderMore.

(** *** [filterScenarioBlocks] and [DecodeScenarioBlocks] *)

Section DecodeBlocksMore.

Context `{P : flightplan.Pkg} `{M : !flightplan.MatrixOps}.

Lemma filterScenarioBlock_labelled d b label labels :
  flightplan.Block_Labels b = label :: labels ->
  flightplan.filterScenarioBlock d b = Returns None \/
  exists sb, flightplan.filterScenarioBlock d b = Returns (Some sb) /\
             spec.initialBlock d b sb /\
             (forall f, flightplan.ScenarioFilter_ d = Some f ->
                        flightplan.ScenarioFilter_Name f <> EmptyString ->
                        flightplan.Name sb = flightplan.ScenarioFilter_Name f).
Proof.
  intros Hl. unfold flightplan.filterScenarioBlock. rewrite Hl.
  cbn [head deref bindO].
  destruct (flightplan.ScenarioFilter_ d) as [f |].
  - destruct (String.eqb (flightplan.ScenarioFilter_Name f) EmptyString) eqn:He;
      cbn [negb andb].
    + right. eexists. split; [reflexivity |]. split.
      * unfold spec.initialBlock. cbn. rewrite Hl. repeat split.
      * intros f' [= <-] Hne. apply String.eqb_eq in He. congruence.
    + destruct (String.eqb label (flightplan.ScenarioFilter_Name f)) eqn:Hn;
        cbn [negb]; [| left; reflexivity].
      right. eexists. split; [reflexivity |]. split.
      * unfold spec.initialBlock. cbn. rewrite Hl. repeat split.
      * intros f' [= <-] _. cbn. apply String.eqb_eq. exact Hn.
  - right. eexists. split; [reflexivity |]. split.
    + unfold spec.initialBlock. cbn. rewrite Hl. repeat split.
    + intros f [=].
Qed.

Lemma filterScenarioBlock_unfiltered d b label labels :
  flightplan.Block_Labels b = label :: labels ->
  (forall f, flightplan.ScenarioFilter_ d = Some f ->
             flightplan.ScenarioFilter_Name f = EmptyString) ->
  exists sb, flightplan.filterScenarioBlock d b = Returns (Some sb) /\
             flightplan.Block_ sb = b.
Proof.
  intros Hl Hf. unfold flightplan.filterScenarioBlock. rewrite Hl.
  cbn [head deref bindO].
  destruct (flightplan.ScenarioFilter_ d) as [f |].
  - rewrite (Hf f eq_refl). cbn. eexists. split; reflexivity.
  - eexists. split; reflexivity.
Qed.

(** X17.  [filterScenarioBlocks] panics exactly when one of the blocks has
    no labels.  Otherwise every scenario block returned starts from one of
    the blocks: named by its first label, with the target of the decoder,
    the diagnostics of the label check, no matrix and no scenarios.  With a
    filter that has a name only blocks with that name are returned;
    without a filter, or with one without a name, all blocks are, in
    order. *)
Theorem filterScenarioBlocks_keeps (d : flightplan.ScenarioDecoder)
    (blocks : list flightplan.Block) :
  (flightplan.filterScenarioBlocks d blocks = Panics
   <-> exists b, In b blocks /\ flightplan.Block_Labels b = []) /\
  forall sbs,
    flightplan.filterScenarioBlocks d blocks = Returns sbs ->
    (forall sb, In sb sbs -> exists b, In b blocks /\ spec.initialBlock d b sb) /\
    (forall f, flightplan.ScenarioFilter_ d = Some f ->
               flightplan.ScenarioFilter_Name f <> EmptyString ->
               forall sb, In sb sbs ->
                          flightplan.Name sb = flightplan.ScenarioFilter_Name f) /\
    ((forall f, flightplan.ScenarioFilter_ d = Some f ->
                flightplan.ScenarioFilter_Name f = EmptyString) ->
     map flightplan.Block_ sbs = blocks) /\
    (length sbs <= length blocks)%nat.
Proof.
  induction blocks as [| b blocks [IHp IHr]].
  - split.
    + split; [discriminate | intros (b & [] & _)].
    + intros sbs [= <-]. repeat split; try (intros; contradiction).
      cbn. lia.
  - cbn [flightplan.filterScenarioBlocks].
    destruct (flightplan.Block_Labels b) as [| label labels] eqn:Hl.
    { assert (Hp : flightplan.filterScenarioBlock d b = Panics).
      { unfold flightplan.filterScenarioBlock. rewrite Hl. reflexivity. }
      rewrite Hp. cbn [bindO]. split.
      - split; [intros _; exists b; split; [left; reflexivity | exact Hl]
               | reflexivity].
      - intros sbs [=]. }
    destruct (flightplan.filterScenarioBlocks d blocks) as [res |] eqn:Hrest.
    2:{ assert (Hpanic : exists b', In b' blocks /\ flightplan.Block_Labels b' = [])
          by (apply IHp; reflexivity).
        assert (Hall : forall o : option flightplan.DecodedScenarioBlock,
                   bindO (Returns o)
                     (fun r => bindO (@Panics (list flightplan.DecodedScenarioBlock))
                        (fun res => Returns (match r with
                                             | Some sb => sb :: res
                                             | None => res end)))
                   = Panics) by reflexivity.
        destruct (filterScenarioBlock_labelled d b label labels Hl)
          as [Hnone | (sb & Hsome & _)];
          [rewrite Hnone | rewrite Hsome]; rewrite Hall; split;
          try (intros sbs [=]);
          (split; [intros _; destruct Hpanic as (b' & Hin & Hb');
                   exists b'; split; [right; exact Hin | exact Hb']
                  | reflexivity]). }
    destruct (IHr res eq_refl) as (IH1 & IH2 & IH3 & IH4).
    assert (Hnopanic : ~ exists b', In b' (b :: blocks)
                                    /\ flightplan.Block_Labels b' = []).
    { intros (b' & [<- | Hin] & Hb'); [congruence |].
      assert (H : @Returns (list flightplan.DecodedScenarioBlock) res = Panics)
        by (apply IHp; exists b'; split; assumption).
      discriminate. }
    destruct (filterScenarioBlock_labelled d b label labels Hl)
      as [Hnone | (sb & Hsome & Hinit & Hname)].
    + rewrite Hnone. cbn [bindO]. split.
      * split; [discriminate | intros H; destruct (Hnopanic H)].
      * intros sbs [= <-]. repeat split.
        -- intros sb Hsb. destruct (IH1 sb Hsb) as (b' & Hin & Hb').
           exists b'. split; [right; exact Hin | exact Hb'].
        -- exact IH2.
        -- intros Hf.
           destruct (filterScenarioBlock_unfiltered d b label labels Hl Hf)
             as (sb & Hsome & _). congruence.
        -- simpl. lia.
    + rewrite Hsome. cbn [bindO]. split.
      * split; [discriminate | intros H; destruct (Hnopanic H)].
      * intros sbs [= <-]. repeat split.
        -- intros sb' [<- | Hsb].
           ++ exists b. split; [left; reflexivity | exact Hinit].
           ++ destruct (IH1 sb' Hsb) as (b' & Hin & Hb').
              exists b'. split; [right; exact Hin | exact Hb'].
        -- intros f Hf Hne sb' [<- | Hsb];
             [apply (Hname f Hf Hne) | apply (IH2 f Hf Hne sb' Hsb)].
        -- intros Hf. cbn [map]. rewrite (IH3 Hf).
           destruct Hinit as (_ & Hb & _). rewrite Hb. reflexivity.
        -- simpl. lia.
Qed.

End DecodeBlocksMore.

(** *** Decoding the scenarios of a block *)

Section DecodeScenariosMore.

Context `{P : flightplan.Pkg} `{M : !flightplan.MatrixOps}.

Lemma decodedFrom_intro k sb sb' added more :
  flightplan.Name sb' = flightplan.Name sb ->
  flightplan.Block_ sb' = flightplan.Block_ sb ->
  flightplan.Matrix_ sb' = flightplan.Matrix_ sb ->
  flightplan.Scenarios sb' = flightplan.Scenarios sb ++ added ->
  flightplan.Diagnostics sb' = flightplan.Diagnostics sb ++ more ->
  (length added <= k)%nat ->
  (hcl.HasErrors more = false -> length added = k) ->
  spec.decodedFrom k sb sb'.
Proof.
  intros Hn Hb Hm Hs Hd Hl He. unfold spec.decodedFrom.
  split; [exact Hn |]. split; [exact Hb |]. split; [exact Hm |].
  exists added, more. split; [exact Hs |]. split; [exact Hd |].
  split; [exact Hl | exact He].
Qed.

Lemma decodedFrom_refl sb : spec.decodedFrom 0 sb sb.
Proof.
  apply (decodedFrom_intro 0 _ _ [] []); try reflexivity;
    rewrite app_nil_r; reflexivity.
Qed.

Lemma decodedFrom_trans j k sb1 sb2 sb3 :
  spec.decodedFrom j sb1 sb2 -> spec.decodedFrom k sb2 sb3 ->
  spec.decodedFrom (j + k) sb1 sb3.
Proof.
  intros (Hn1 & Hb1 & Hm1 & a1 & m1 & Hs1 & Hd1 & Hl1 & He1)
         (Hn2 & Hb2 & Hm2 & a2 & m2 & Hs2 & Hd2 & Hl2 & He2).
  apply (decodedFrom_intro _ _ _ (a1 ++ a2) (m1 ++ m2)); try congruence.
  - rewrite Hs2, Hs1, app_assoc. reflexivity.
  - rewrite Hd2, Hd1, app_assoc. reflexivity.
  - rewrite length_app. lia.
  - rewrite HasErrors_app. intros H. apply orb_false_elim in H as [H1 H2].
    rewrite length_app, (He1 H1), (He2 H2). reflexivity.
Qed.

(** What [decodeInto] does with the scenario and the diagnostics that
    [decodeScenario] hands back. *)
Lemma decodeInto_keep sb scenario diags :
  let sb1 := flightplan.setDiagnostics sb (flightplan.Diagnostics sb ++ diags) in
  spec.decodedFrom 1 sb
    (if negb (hcl.HasErrors diags)
     then flightplan.setScenarios sb1 (flightplan.Scenarios sb1 ++ [scenario])
     else sb1).
Proof.
  cbn zeta. destruct (hcl.HasErrors diags) eqn:Herr; cbn [negb].
  - apply (decodedFrom_intro 1 _ _ [] diags); try reflexivity.
    + cbn. rewrite app_nil_r. reflexivity.
    + cbn. lia.
    + congruence.
  - apply (decodedFrom_intro 1 _ _ [scenario] diags); reflexivity.
Qed.

(** One scenario decoded: the decoder keeps its target and its filter, and
    its context is the one given or, with a vector, a child of it. *)
Lemma decodeInto_step vec d sb :
  let r := flightplan.decodeInto vec (d, sb) in
  spec.sameConfig d r.1 /\
  spec.decodedFrom 1 sb r.2 /\
  spec.chain (flightplan.EvalContext r.1)
  = match vec with
    | Some _ => S (spec.chain (flightplan.EvalContext d))
    | None => spec.chain (flightplan.EvalContext d)
    end.
Proof.
  unfold flightplan.decodeInto, flightplan.decodeScenario. cbn zeta.
  destruct vec as [v |].
  - destruct (flightplan.Scenario_decode _ _ _ _) as [scenario diags].
    cbn [fst snd].
    split; [split; reflexivity |]. split; [apply decodeInto_keep |].
    cbn [flightplan.setEvalContext flightplan.EvalContext].
    destruct (flightplan.EvalContext d) as [c |]; reflexivity.
  - destruct (flightplan.Scenario_decode _ _ _ _) as [scenario diags].
    cbn [fst snd].
    split; [split; reflexivity |]. split; [apply decodeInto_keep | reflexivity].
Qed.

Lemma sameConfig_trans d1 d2 d3 :
  spec.sameConfig d1 d2 -> spec.sameConfig d2 d3 -> spec.sameConfig d1 d3.
Proof. intros [H1 H2] [H3 H4]. split; congruence. Qed.

Lemma foldl_decodeInto vs :
  forall d sb,
    let r := foldl (fun st vec => flightplan.decodeInto (Some vec) st) (d, sb) vs in
    spec.sameConfig d r.1 /\
    spec.decodedFrom (length vs) sb r.2 /\
    spec.chain (flightplan.EvalContext r.1)
    = (length vs + spec.chain (flightplan.EvalContext d))%nat.
Proof.
  induction vs as [| v vs IH]; intros d sb.
  - cbn. split; [split; reflexivity |]. split; [apply decodedFrom_refl | reflexivity].
  - cbn [foldl length].
    destruct (decodeInto_step (Some v) d sb) as (Hc & Hd & Hchain).
    destruct (flightplan.decodeInto (Some v) (d, sb)) as [d1 sb1].
    destruct (IH d1 sb1) as (Hc' & Hd' & Hchain'). cbn [fst snd] in *.
    split; [apply (sameConfig_trans d d1 _ Hc Hc') |].
    split; [apply (decodedFrom_trans 1 (length vs) sb sb1 _ Hd Hd') |].
    rewrite Hchain', Hchain. lia.
Qed.

(** X18.  [decodeScenariosSerial] adds scenarios and diagnostics at the end
    of those of the block and leaves its name and matrix alone: at most
    one scenario for each vector, or one without vectors, and exactly that
    many when the diagnostics added have no errors.  The decoder keeps its
    target and its filter. *)
Theorem decodeScenariosSerial_adds (d : flightplan.ScenarioDecoder)
    (sb : flightplan.DecodedScenarioBlock) :
  let r := flightplan.decodeScenariosSerial d sb in
  spec.sameConfig d r.1 /\
  spec.decodedFrom (spec.wanted (flightplan.Matrix_ sb)) sb r.2.
Proof.
  unfold flightplan.decodeScenariosSerial, spec.wanted, flightplan.noVectors.
  destruct (flightplan.Matrix_ sb) as [m |].
  - destruct (length (flightplan.Vectors m) <? 1)%nat.
    + destruct (decodeInto_step None d sb) as (Hc & Hd & _). split; assumption.
    + destruct (foldl_decodeInto (flightplan.Vectors m) d sb) as (Hc & Hd & _).
      split; assumption.
  - destruct (decodeInto_step None d sb) as (Hc & Hd & _). split; assumption.
Qed.


Lemma decodeScenariosSerial_keeps d sb :
  let r := flightplan.decodeScenariosSerial d sb in
  spec.sameConfig d r.1 /\ flightplan.Name r.2 = flightplan.Name sb.
Proof.
  unfold flightplan.decodeScenariosSerial.
  destruct (flightplan.Matrix_ sb) as [m |].
  - destruct (length (flightplan.Vectors m) <? 1)%nat.
    + destruct (decodeInto_step None d sb) as (Hc & Hd & _).
      split; [exact Hc | apply Hd].
    + destruct (foldl_decodeInto (flightplan.Vectors m) d sb) as (Hc & Hd & _).
      split; [exact Hc | apply Hd].
  - destruct (decodeInto_step None d sb) as (Hc & Hd & _).
    split; [exact Hc | apply Hd].
Qed.

Lemma decodeBlockMatrix_keeps d sb :
  let r := flightplan.decodeBlockMatrix d sb in
  flightplan.Name r.1 = flightplan.Name sb /\
  flightplan.Scenarios r.1 = flightplan.Scenarios sb.
Proof.
  unfold flightplan.decodeBlockMatrix.
  destruct (flightplan.DecodeTargetScenariosMatrixOnly <=? flightplan.DecodeTarget_ d);
    [| split; reflexivity].
  destruct (flightplan.decodeMatrix _ _) as [m diags].
  cbn [flightplan.Matrix_ flightplan.setMatrix flightplan.setDiagnostics].
  destruct m as [mtx |]; [| split; reflexivity].
  destruct (flightplan.ScenarioFilter_ d) as [f |]; [| split; reflexivity].
  destruct (1 <? length (flightplan.Vectors mtx))%nat; split; reflexivity.
Qed.

(** One block decoded: the decoder keeps its target and its filter, the
    block its name; its scenarios are in order if it had none. *)
Lemma decodeBlock_step sched d sb :
  let r := flightplan.decodeBlock sched d sb in
  spec.sameConfig d r.1 /\
  flightplan.Name r.2 = flightplan.Name sb /\
  (flightplan.Scenarios sb = [] ->
   StronglySorted (spec.notAbove flightplan.Scenario_String)
                  (flightplan.Scenarios r.2)) /\
  (flightplan.DecodeTarget_ d < flightplan.DecodeTargetScenariosNamesExpandVariants ->
   r.1 = d /\ flightplan.Scenarios r.2 = flightplan.Scenarios sb).
Proof.
  unfold flightplan.decodeBlock.
  destruct (decodeBlockMatrix_keeps d sb) as [Hname Hscen].
  destruct (flightplan.decodeBlockMatrix d sb) as [sb1 continue].
  cbn [fst snd] in *.
  destruct continue.
  { cbn [fst snd]. repeat split; try assumption.
    intros Hnil. rewrite Hscen, Hnil. constructor. }
  destruct (Z.ltb_spec (flightplan.DecodeTarget_ d)
              flightplan.DecodeTargetScenariosNamesExpandVariants).
  { cbn [fst snd]. repeat split; try assumption.
    intros Hnil. rewrite Hscen, Hnil. constructor. }
  rewrite decodeMode_always_serial.
  destruct (decodeScenariosSerial_keeps d sb1) as (Hc & Hn).
  destruct (flightplan.decodeScenariosSerial d sb1) as [d2 sb2].
  cbn [fst snd flightplan.Scenarios flightplan.Name flightplan.setScenarios] in *.
  repeat split; try apply Hc; try congruence; try lia.
  intros _. apply sortStableBy_sorted.
Qed.

Lemma filterScenarioBlocks_fresh d blocks :
  (flightplan.filterScenarioBlocks d blocks = Panics
   <-> exists b, In b blocks /\ flightplan.Block_Labels b = []) /\
  forall sbs,
    flightplan.filterScenarioBlocks d blocks = Returns sbs ->
    (forall sb, In sb sbs -> flightplan.Scenarios sb = []) /\
    (length sbs <= length blocks)%nat.
Proof.
  induction blocks as [| b blocks [IHp IHr]].
  - split.
    + split; [discriminate | intros (b & [] & _)].
    + intros sbs [= <-]. split; [intros sb [] | reflexivity].
  - cbn [flightplan.filterScenarioBlocks].
    destruct (flightplan.Block_Labels b) as [| label labels] eqn:Hl.
    { assert (Hp : flightplan.filterScenarioBlock d b = Panics).
      { unfold flightplan.filterScenarioBlock. rewrite Hl. reflexivity. }
      rewrite Hp. cbn [bindO]. split; [| intros sbs [=]].
      split; [| reflexivity].
      intros _. exists b. split; [left; reflexivity | exact Hl]. }
    assert (Hb : exists r, flightplan.filterScenarioBlock d b = Returns r /\
                           forall sb, r = Some sb -> flightplan.Scenarios sb = []).
    { destruct (filterScenarioBlock_labelled d b label labels Hl)
        as [Hnone | (sb & Hsome & Hinit & _)].
      - exists None. split; [exact Hnone | intros sb [=]].
      - exists (Some sb). split; [exact Hsome |].
        intros sb' [= <-]. apply Hinit. }
    destruct Hb as (r & Hr & Hfresh). rewrite Hr. cbn [bindO].
    destruct (flightplan.filterScenarioBlocks d blocks) as [res |]; cbn [bindO].
    + destruct (IHr res eq_refl) as [IH1 IH2]. split.
      * split; [discriminate |].
        intros (b' & [<- | Hin] & Hb'); [congruence |].
        assert (H : @Returns (list flightplan.DecodedScenarioBlock) res = Panics)
          by (apply IHp; exists b'; split; assumption).
        discriminate.
      * intros sbs [= <-]. destruct r as [sb |].
        -- split; [| simpl; lia].
           intros sb' [<- | Hsb]; [apply Hfresh; reflexivity | apply IH1, Hsb].
        -- split; [exact IH1 | simpl; lia].
    + split; [| intros sbs [=]]. split; [| reflexivity].
      intros _. destruct (proj1 IHp eq_refl) as (b' & Hin & Hb').
      exists b'. split; [right; exact Hin | exact Hb'].
Qed.

(** The loop of [DecodeScenarioBlocks] over scenario blocks that have no
    scenarios yet. *)
Lemma decodeBlocks_loop sched d todo :
  forall d0 acc,
    (forall sb, In sb todo -> flightplan.Scenarios sb = []) ->
    spec.sameConfig d d0 ->
    Forall (fun sb => StronglySorted (spec.notAbove flightplan.Scenario_String)
                                     (flightplan.Scenarios sb)) acc ->
    let r := foldl (fun '(d, acc) sb =>
                      let '(d, sb) := flightplan.decodeBlock sched d sb in
                      (d, acc ++ [sb])) (d0, acc) todo in
    spec.sameConfig d r.1 /\
    Forall (fun sb => StronglySorted (spec.notAbove flightplan.Scenario_String)
                                     (flightplan.Scenarios sb)) r.2 /\
    length r.2 = (length acc + length todo)%nat.
Proof.
  induction todo as [| sb todo IH]; intros d0 acc Hnil Hc Hacc.
  - cbn. split; [exact Hc |]. split; [exact Hacc | lia].
  - cbn [foldl].
    destruct (decodeBlock_step sched d0 sb) as (Hc1 & _ & Hsorted & _).
    destruct (flightplan.decodeBlock sched d0 sb) as [d1 sb1].
    cbn [fst snd] in *.
    destruct (IH d1 (acc ++ [sb1])) as (H1 & H2 & H3).
    + intros x Hx. apply Hnil. right. exact Hx.
    + apply (sameConfig_trans d d0 d1 Hc Hc1).
    + apply Forall_app. split; [exact Hacc |].
      constructor; [| constructor]. apply Hsorted. apply Hnil. left. reflexivity.
    + split; [exact H1 |]. split; [exact H2 |].
      rewrite H3, length_app. simpl. lia.
Qed.

(** X20.  [DecodeScenarioBlocks] returns the scenario blocks in ascending
    order of their names, no more blocks than it is given, each with its
    scenarios in ascending order of their strings; the decoder keeps its
    target and its filter.  It panics exactly when one of the blocks has no
    labels. *)
Theorem DecodeScenarioBlocks_sorted (sched : nat -> list nat)
    (d : flightplan.ScenarioDecoder) (blocks : list flightplan.Block) :
  (flightplan.DecodeScenarioBlocks sched d blocks = Panics
   <-> exists b, In b blocks /\ flightplan.Block_Labels b = []) /\
  forall d' out,
    flightplan.DecodeScenarioBlocks sched d blocks = Returns (d', out) ->
    StronglySorted (spec.notAbove flightplan.Name) out /\
    Forall (fun sb => StronglySorted (spec.notAbove flightplan.Scenario_String)
                                     (flightplan.Scenarios sb)) out /\
    (length out <= length blocks)%nat /\
    spec.sameConfig d d'.
Proof.
  destruct (filterScenarioBlocks_fresh d blocks) as [Hpanic Hret].
  unfold flightplan.DecodeScenarioBlocks.
  destruct blocks as [| b0 blocks0].
  { split.
    - split; [discriminate | intros (b & [] & _)].
    - intros d' out [= <- <-].
      split; [constructor |]. split; [constructor |].
      split; [reflexivity | split; reflexivity]. }
  set (blocks := b0 :: blocks0) in *.
  destruct (flightplan.filterScenarioBlocks d blocks) as [sbs |]; cbn [bindO].
  2:{ split; [| intros d' out [=]]. split; [| reflexivity].
      intros _. apply Hpanic. reflexivity. }
  destruct (Hret sbs eq_refl) as (Hnil & Hlen).
  assert (Hd : spec.sameConfig d d) by (split; reflexivity).
  destruct (decodeBlocks_loop sched d sbs d [] Hnil Hd (List.Forall_nil _))
    as (Hc & Hsorted & Hlen').
  destruct (foldl _ (d, []) sbs) as [d1 decoded]. cbn [fst snd] in *.
  split.
  { split; [discriminate |]. intros H. apply Hpanic in H. discriminate. }
  intros d' out [= <- <-].
  destruct (sortStableBy_sorted flightplan.Name decoded) as [Hperm Hs].
  split; [exact Hs |]. split; [rewrite Hperm; exact Hsorted |].
  split; [| exact Hc].
  rewrite (Permutation_length Hperm), Hlen'. exact Hlen.
Qed.

Lemma decodeBlock_names_only sched d sb :
  flightplan.DecodeTarget_ d < flightplan.DecodeTargetScenariosMatrixOnly ->
  flightplan.decodeBlock sched d sb = (d, sb).
Proof.
  intros Ht. unfold flightplan.decodeBlock, flightplan.decodeBlockMatrix.
  unfold flightplan.DecodeTargetScenariosMatrixOnly,
    flightplan.DecodeTargetScenariosNamesExpandVariants in *.
  destruct (Z.leb_spec 2 (flightplan.DecodeTarget_ d)); [lia |].
  destruct (Z.ltb_spec (flightplan.DecodeTarget_ d) 3); [reflexivity | lia].
Qed.

(** The loop of [DecodeScenarioBlocks] with a target below the expansion
    of variants. *)
Lemma decodeBlocks_loop_below sched d todo :
  flightplan.DecodeTarget_ d < flightplan.DecodeTargetScenariosNamesExpandVariants ->
  forall acc,
    let r := foldl (fun '(d, acc) sb =>
                      let '(d, sb) := flightplan.decodeBlock sched d sb in
                      (d, acc ++ [sb])) (d, acc) todo in
    r.1 = d /\
    map flightplan.Scenarios r.2 = map flightplan.Scenarios (acc ++ todo) /\
    (flightplan.DecodeTarget_ d < flightplan.DecodeTargetScenariosMatrixOnly ->
     r.2 = acc ++ todo).
Proof.
  intros Ht. induction todo as [| sb todo IH]; intros acc.
  - cbn. rewrite app_nil_r. split; [reflexivity |]. split; reflexivity.
  - cbn [foldl].
    destruct (decodeBlock_step sched d sb) as (_ & _ & _ & Hbelow).
    pose proof (decodeBlock_names_only sched d sb) as Hnames.
    destruct (flightplan.decodeBlock sched d sb) as [d1 sb1].
    cbn [fst snd] in *. destruct (Hbelow Ht) as [-> Hscen].
    destruct (IH (acc ++ [sb1])) as (H1 & H2 & H3).
    split; [exact H1 |]. split.
    + rewrite H2, <- !app_assoc, !List.map_app. cbn [map app].
      rewrite Hscen. reflexivity.
    + intros Hlow. rewrite (H3 Hlow), <- app_assoc.
      injection (Hnames Hlow) as ->. reflexivity.
Qed.

(** X21.  With a target below the expansion of variants
    [DecodeScenarioBlocks] decodes no scenarios and leaves the decoder as
    it was; below the matrix target it returns the blocks of
    [filterScenarioBlocks] as they are, in the order of their names. *)
Theorem DecodeScenarioBlocks_below_variants (sched : nat -> list nat)
    (d d' : flightplan.ScenarioDecoder) (blocks : list flightplan.Block)
    (out : list flightplan.DecodedScenarioBlock) :
  flightplan.DecodeTarget_ d < flightplan.DecodeTargetScenariosNamesExpandVariants ->
  flightplan.DecodeScenarioBlocks sched d blocks = Returns (d', out) ->
  d' = d /\
  Forall (fun sb => flightplan.Scenarios sb = []) out /\
  (flightplan.DecodeTarget_ d < flightplan.DecodeTargetScenariosMatrixOnly ->
   exists sbs, flightplan.filterScenarioBlocks d blocks = Returns sbs /\
               out = flightplan.sortStableBy flightplan.Name sbs).
Proof.
  intros Ht. unfold flightplan.DecodeScenarioBlocks.
  destruct blocks as [| b0 blocks0].
  { intros [= <- <-]. split; [reflexivity |]. split; [constructor |].
    intros _. exists []. split; reflexivity. }
  set (blocks := b0 :: blocks0) in *.
  destruct (filterScenarioBlocks_fresh d blocks) as [_ Hret].
  destruct (flightplan.filterScenarioBlocks d blocks) as [sbs |]; cbn [bindO];
    [| discriminate].
  destruct (Hret sbs eq_refl) as [Hnil _].
  destruct (decodeBlocks_loop_below sched d sbs Ht []) as (H1 & H2 & H3).
  destruct (foldl _ (d, []) sbs) as [d1 decoded]. cbn [fst snd app] in *.
  intros [= <- <-]. split; [exact H1 |]. split.
  - destruct (sortStableBy_sorted flightplan.Name decoded) as [Hperm _].
    rewrite Hperm. apply List.Forall_forall. intros sb Hsb.
    assert (Hin : In (flightplan.Scenarios sb) (map flightplan.Scenarios sbs)).
    { rewrite <- H2. apply in_map. exact Hsb. }
    apply in_map_iff in Hin as (sb' & Heq & Hsb'). rewrite <- Heq.
    apply Hnil. exact Hsb'.
  - intros Hlow. exists sbs. split; [reflexivity |]. rewrite (H3 Hlow).
    reflexivity.
Qed.

End DecodeScenariosMore.

(** Two blocks decoded for their matrices only, given out of order. *)
Lemma DecodeScenarioBlocks_below_variants_witness :
  let d := examples.decoder 2 None in
  let blocks := [examples.block;
                 {| tiny.labels := ["other"]; tiny.uses := None |}] in
  exists d' out,
    flightplan.DecodeScenarioBlocks (fun n => seq 0 n) d blocks
    = Returns (d', out) /\
    d' = d /\
    map flightplan.Name out = ["other"; "test"] /\
    Forall (fun sb => flightplan.Scenarios sb = []) out.
Proof.
  intros d blocks.
  assert (Hr : exists d' out,
             flightplan.DecodeScenarioBlocks (fun n => seq 0 n) d blocks
             = Returns (d', out) /\
             map flightplan.Name out = ["other"; "test"])
    by (do 2 eexists; split; reflexivity).
  destruct Hr as (d' & out & Hr & Hnames).
  assert (Ht : flightplan.DecodeTarget_ d
               < flightplan.DecodeTargetScenariosNamesExpandVariants)
    by (unfold flightplan.DecodeTargetScenariosNamesExpandVariants; simpl; lia).
  destruct (DecodeScenarioBlocks_below_variants (P := tiny.pkg)
              (M := examples.ops) _ d d' blocks out Ht Hr) as (Hd & Hs & _).
  exists d', out. exact (conj Hr (conj Hd (conj Hnames Hs))).
Defined.

(** *** What the decoded blocks give back *)

Section DecodedBlocksProperties.

Context `{P : flightplan.Pkg} `{M : !flightplan.MatrixOps}
        `{A : !flightplan.MatrixAlgebra}.

Lemma foldl_append_concat {X Y} (f : X -> list Y) (l : list X) :
  forall acc, foldl (fun acc x => acc ++ f x) acc l = acc ++ concat (map f l).
Proof.
  induction l as [| x l IH]; intros acc; cbn [foldl map concat].
  - rewrite app_nil_r. reflexivity.
  - rewrite IH, app_assoc. reflexivity.
Qed.

(** X22.  [DecodedScenarioBlocks.Scenarios] and
    [DecodedScenarioBlocks.Diagnostics] give the scenarios and the
    diagnostics of the blocks one block after the other, in the order of
    the blocks; the diagnostics given have errors exactly when those of
    one of the blocks have. *)
Theorem DecodedScenarioBlocks_collects (d : list flightplan.DecodedScenarioBlock) :
  flightplan.DecodedScenarioBlocks_Scenarios d
  = concat (map flightplan.Scenarios d) /\
  flightplan.DecodedScenarioBlocks_Diagnostics d
  = concat (map flightplan.Diagnostics d) /\
  (hcl.HasErrors (flightplan.DecodedScenarioBlocks_Diagnostics d) = true
   <-> exists sb, In sb d /\ hcl.HasErrors (flightplan.Diagnostics sb) = true).
Proof.
  unfold flightplan.DecodedScenarioBlocks_Scenarios,
    flightplan.DecodedScenarioBlocks_Diagnostics.
  rewrite !foldl_append_concat. cbn [app].
  split; [reflexivity |]. split; [reflexivity |].
  induction d as [| sb d IH]; cbn [map concat].
  - split; [discriminate | intros (sb & [] & _)].
  - rewrite HasErrors_app, orb_true_iff, IH. split.
    + intros [H | (sb' & Hin & H)].
      * exists sb. split; [left; reflexivity | exact H].
      * exists sb'. split; [right; exact Hin | exact H].
    + intros (sb' & [<- | Hin] & H); [left; exact H |].
      right. exists sb'. split; assumption.
Qed.

Lemma combineBlocks_app l1 :
  forall m i l2,
    flightplan.combineBlocks m i (l1 ++ l2)
    = (m' <-! flightplan.combineBlocks m i l1 ;
       flightplan.combineBlocks m' (i + length l1) l2).
Proof.
  induction l1 as [| sb l1 IH]; intros m i l2.
  - cbn. rewrite Nat.add_0_r. reflexivity.
  - cbn [app flightplan.combineBlocks length].
    destruct (flightplan.combineBlock m i sb) as [m' |]; cbn [bindO];
      [| reflexivity].
    rewrite IH. replace (S i + length l1)%nat with (i + S (length l1))%nat by lia.
    reflexivity.
Qed.

Lemma combineBlocks_nil l :
  Forall (fun sb => flightplan.Matrix_ sb = None) l ->
  forall i, flightplan.combineBlocks None i l = Returns None.
Proof.
  induction 1 as [| sb l Hsb _ IH]; intros i; [reflexivity |].
  cbn [flightplan.combineBlocks flightplan.combineBlock]. rewrite Hsb.
  cbn. apply IH.
Qed.

Lemma combineBlocks_adds l :
  Forall (fun sb => flightplan.Matrix_ sb <> None) l ->
  forall owner content i,
    flightplan.combineBlocks (Some (owner, content)) i l
    = Returns (Some (owner, foldl flightplan.Matrix_AddVector content
                                  (spec.allVectors l))).
Proof.
  induction 1 as [| sb l Hsb _ IH]; intros owner content i; [reflexivity |].
  cbn [flightplan.combineBlocks flightplan.combineBlock].
  unfold spec.allVectors. cbn [map concat].
  destruct (flightplan.Matrix_ sb) as [smv |]; [| congruence].
  cbn [deref bindO]. rewrite IH, foldl_app. reflexivity.
Qed.

Lemma combineBlocks_panics l :
  forall owner content i sb,
    In sb l -> flightplan.Matrix_ sb = None ->
    flightplan.combineBlocks (Some (owner, content)) i l = Panics.
Proof.
  induction l as [| x l IH]; intros owner content i sb Hin Hsb; [destruct Hin |].
  cbn [flightplan.combineBlocks flightplan.combineBlock].
  destruct Hin as [-> | Hin].
  - rewrite Hsb. reflexivity.
  - destruct (flightplan.Matrix_ x) as [smv |]; [| reflexivity].
    cbn [deref bindO]. apply (IH _ _ _ sb Hin Hsb).
Qed.

(** The blocks up to the first one with a matrix. *)
Lemma first_matrix (d : list flightplan.DecodedScenarioBlock) :
  Forall (fun sb => flightplan.Matrix_ sb = None) d \/
  exists pre sb m0 rest,
    d = pre ++ sb :: rest /\
    Forall (fun sb => flightplan.Matrix_ sb = None) pre /\
    flightplan.Matrix_ sb = Some m0.
Proof.
  induction d as [| x d IH]; [left; constructor |].
  destruct (flightplan.Matrix_ x) as [m0 |] eqn:Hx.
  - right. exists [], x, m0, d. split; [reflexivity |]. split; [constructor | exact Hx].
  - destruct IH as [Hall | (pre & sb & m0 & rest & -> & Hpre & Hsb)].
    + left. constructor; assumption.
    + right. exists (x :: pre), sb, m0, rest.
      split; [reflexivity |]. split; [constructor; assumption | exact Hsb].
Qed.

Lemma all_or_missing (l : list flightplan.DecodedScenarioBlock) :
  Forall (fun sb => flightplan.Matrix_ sb <> None) l \/
  exists sb, In sb l /\ flightplan.Matrix_ sb = None.
Proof.
  induction l as [| x l [IH | (sb & Hin & Hsb)]]; [left; constructor | |].
  - destruct (flightplan.Matrix_ x) as [m |] eqn:Hx.
    + left. constructor; [congruence | exact IH].
    + right. exists x. split; [left; reflexivity | exact Hx].
  - right. exists sb. split; [right; exact Hin | exact Hsb].
Qed.

Lemma CombinedMatrix_from_first pre sb m0 rest :
  Forall (fun sb => flightplan.Matrix_ sb = None) pre ->
  flightplan.Matrix_ sb = Some m0 ->
  flightplan.CombinedMatrix (pre ++ sb :: rest)
  = (m <-! flightplan.combineBlocks (Some (length pre, m0)) (S (length pre)) rest ;
     match m with
     | None => Returns (None, pre ++ sb :: rest)
     | Some (owner, content) =>
         Returns (flightplan.Matrix_UniqueValues content,
                  alter (fun sb => flightplan.setMatrix sb (Some content)) owner
                        (pre ++ sb :: rest))
     end).
Proof.
  intros Hpre Hsb. unfold flightplan.CombinedMatrix.
  rewrite combineBlocks_app, (combineBlocks_nil pre Hpre). cbn [bindO].
  cbn [flightplan.combineBlocks flightplan.combineBlock]. rewrite Hsb.
  cbn [fmap option_fmap option_map bindO]. rewrite Nat.add_0_l.
  replace (S (length pre)) with (length pre + 1)%nat at 1 by lia.
  replace (length pre + 1)%nat with (S (length pre)) by lia.
  reflexivity.
Qed.

(** X23.  [CombinedMatrix] of blocks that all are without a matrix is nil,
    and the blocks are as they were.  It panics exactly when a block
    without a matrix comes after a block that has one. *)
Theorem CombinedMatrix_outcome (d : list flightplan.DecodedScenarioBlock) :
  (Forall (fun sb => flightplan.Matrix_ sb = None) d ->
   flightplan.CombinedMatrix d = Returns (None, d)) /\
  (flightplan.CombinedMatrix d = Panics
   <-> exists pre sb rest sb',
         d = pre ++ sb :: rest /\ flightplan.Matrix_ sb <> None /\
         In sb' rest /\ flightplan.Matrix_ sb' = None).
Proof.
  assert (Hnil : Forall (fun sb => flightplan.Matrix_ sb = None) d ->
                 flightplan.CombinedMatrix d = Returns (None, d)).
  { intros Hall. unfold flightplan.CombinedMatrix.
    rewrite (combineBlocks_nil d Hall). reflexivity. }
  split; [exact Hnil |]. split.
  - intros Hpanic.
    destruct (first_matrix d) as [Hall | (pre & sb & m0 & rest & -> & Hpre & Hsb)].
    { rewrite (Hnil Hall) in Hpanic. discriminate. }
    exists pre, sb, rest.
    destruct (all_or_missing rest) as [Hrest | (sb' & Hin & Hsb')].
    + rewrite (CombinedMatrix_from_first pre sb m0 rest Hpre Hsb),
        (combineBlocks_adds rest Hrest) in Hpanic. discriminate.
    + exists sb'. split; [reflexivity |]. split; [congruence |].
      split; assumption.
  - intros (pre & sb & rest & sb' & -> & Hsb & Hin & Hsb').
    unfold flightplan.CombinedMatrix. rewrite combineBlocks_app.
    destruct (flightplan.combineBlocks None 0 pre) as [m |]; [| reflexivity].
    cbn [bindO flightplan.combineBlocks flightplan.combineBlock].
    destruct (flightplan.Matrix_ sb) as [m0 |] eqn:Hm0; [| congruence].
    destruct m as [[owner content] |]; cbn; rewrite Hm0; cbn;
      rewrite (combineBlocks_panics rest _ _ _ sb' Hin Hsb'); reflexivity.
Qed.

(** X24.  [CombinedMatrix] adds the vectors of the later blocks, in order,
    to the matrix of the first block that has one, and returns the unique
    values of that matrix: afterwards that block holds the combined
    matrix, and the other blocks are as they were. *)
Theorem CombinedMatrix_combines (pre rest : list flightplan.DecodedScenarioBlock)
    (sb : flightplan.DecodedScenarioBlock) (m0 : flightplan.Matrix) :
  Forall (fun sb => flightplan.Matrix_ sb = None) pre ->
  flightplan.Matrix_ sb = Some m0 ->
  Forall (fun sb => flightplan.Matrix_ sb <> None) rest ->
  let content := foldl flightplan.Matrix_AddVector m0 (spec.allVectors rest) in
  flightplan.CombinedMatrix (pre ++ sb :: rest)
  = Returns (flightplan.Matrix_UniqueValues content,
             pre ++ flightplan.setMatrix sb (Some content) :: rest).
Proof.
  intros Hpre Hsb Hrest content.
  rewrite (CombinedMatrix_from_first pre sb m0 rest Hpre Hsb),
    (combineBlocks_adds rest Hrest).
  cbn [bindO]. fold content.
  replace (length pre) with (length pre + 0)%nat by lia.
  rewrite alter_app_r. reflexivity.
Qed.

End DecodedBlocksProperties.

(** A block without a matrix, then one with one vector, then one with
    two. *)
Lemma CombinedMatrix_combines_witness :
  let first := examples.scenarioBlock examples.block 4 in
  let last := flightplan.setMatrix first (Some examples.matrix) in
  let all := flightplan.mkMatrix
               [[("arch", "arm64")]; [("foo", "matrixfoo")]; [("foo", "matrixbar")]] in
  flightplan.CombinedMatrix (A := tiny.matrixAlgebra)
    [first; examples.failingBlock; last]
  = Returns (Some all,
             [first; flightplan.setMatrix examples.failingBlock (Some all); last]).
Proof.
  intros first last all.
  assert (Hpre : Forall (fun sb => flightplan.Matrix_ sb = None) [first])
    by (constructor; [reflexivity | constructor]).
  assert (Hrest : Forall (fun sb => flightplan.Matrix_ sb <> None) [last])
    by (constructor; [discriminate | constructor]).
  exact (CombinedMatrix_combines (P := tiny.pkg) (A := tiny.matrixAlgebra)
           [first] [last] examples.failingBlock
           (flightplan.mkMatrix [[("arch", "arm64")]]) Hpre eq_refl Hrest).
Defined.

(** *** Traversals as text *)

Section TraversalStr.

Context `{L : Lib}.

Lemma append_assoc (a b c : string) : (a +:+ b) +:+ c = a +:+ (b +:+ c).
Proof.
  induction a as [| ch a IH]; [reflexivity |].
  change (String ch ((a +:+ b) +:+ c) = String ch (a +:+ (b +:+ c))).
  rewrite IH. reflexivity.
Qed.

(** X25.  [traversalStr] writes the steps one after the other: the text of
    a traversal starts with the text of each of its prefixes, which is how
    the values that [FromHCL] records for one traversal are named. *)
Theorem traversalStr_app (t1 t2 : hcl.Traversal Value) :
  diagnostics.traversalStr (t1 ++ t2)
  = diagnostics.traversalStr t1 +:+ diagnostics.traversalStr t2.
Proof.
  induction t1 as [| step t1 IH]; [reflexivity |].
  cbn [app diagnostics.traversalStr]. rewrite IH.
  symmetry. apply append_assoc.
Qed.

End TraversalStr.

(** *** The range of a diagnostic of [FromHCL] *)

Lemma wrap64_succ_neq (x : Z) : wrap64 (x + 1) <> x.
Proof.
  unfold wrap64. intros H.
  pose proof (Z.mod_pos_bound (x + 1 + 2 ^ 63) (2 ^ 64) ltac:(lia)) as Hb.
  pose proof (Z.div_mod (x + 1 + 2 ^ 63) (2 ^ 64) ltac:(lia)) as Hd.
  lia.
Qed.

Section FromHCLRange.

Context `{L : Lib}.

Lemma highlightRangeOf_not_empty (subject : hcl.Range) :
  let r := diagnostics.highlightRangeOf subject in
  hcl.Filename r = hcl.Filename subject /\
  hcl.Start r = hcl.Start subject /\
  hcl.Byte (hcl.Start r) <> hcl.Byte (hcl.End_ r) /\
  (hcl.Range_Empty subject = false ->
   hcl.Pos_isZero (hcl.End_ subject) = false -> r = subject).
Proof.
  unfold diagnostics.highlightRangeOf. cbn zeta.
  destruct (hcl.Pos_isZero (hcl.End_ subject)) eqn:Hzero.
  - assert (He : hcl.Range_Empty (hcl.withEnd subject (hcl.Start subject)) = true)
      by apply Z.eqb_refl.
    rewrite He.
    cbn [diagnostics.bumpEnd hcl.withEnd hcl.Start hcl.End_ hcl.Filename hcl.Byte].
    split; [reflexivity |]. split; [reflexivity |].
    split; [| discriminate].
    intros H. apply (wrap64_succ_neq (hcl.Byte (hcl.Start subject))).
    symmetry. exact H.
  - destruct (hcl.Range_Empty subject) eqn:Hempty.
    + cbn [diagnostics.bumpEnd hcl.withEnd hcl.Start hcl.End_ hcl.Filename hcl.Byte].
      split; [reflexivity |]. split; [reflexivity |].
      split; [| discriminate].
      unfold hcl.Range_Empty in Hempty. apply Z.eqb_eq in Hempty.
      rewrite Hempty. intros H.
      apply (wrap64_succ_neq (hcl.Byte (hcl.End_ subject))).
      symmetry. exact H.
    + split; [reflexivity |]. split; [reflexivity |].
      split; [| reflexivity].
      unfold hcl.Range_Empty in Hempty. apply Z.eqb_neq in Hempty. exact Hempty.
Qed.

Lemma lookup_map {X Y} (f : X -> Y) (l : list X) :
  forall i, map f l !! i = f <$> l !! i.
Proof.
  induction l as [| x l IH]; intros [| i]; try reflexivity. apply IH.
Qed.

(** X26.  [FromHCL] keeps summary and detail.  A diagnostic without
    subject gets no range and no snippet.  One with a subject gets a range
    in the file of the subject, from the start of the subject, that is
    never empty: the end byte differs from the start byte, and the range is
    the subject itself when the subject is not empty and has an end.  It
    gets a snippet exactly when the files have bytes for the file of the
    subject. *)
Theorem FromHCL_range (files : gmap string hcl.File)
    (diags : list (hcl.Diagnostic Value)) (i : nat)
    (diag : hcl.Diagnostic Value) :
  diags !! i = Some diag ->
  exists out,
    diagnostics.FromHCL files diags !! i = Some out /\
    pb.Summary out = hcl.Summary diag /\
    pb.Detail out = hcl.Detail diag /\
    (hcl.Subject diag = None -> pb.Range_ out = None /\ pb.Snippet out = None) /\
    (forall subject,
        hcl.Subject diag = Some subject ->
        (exists rng,
            pb.Range_ out = Some (diagnostics.hclRangeToProtoRange rng) /\
            hcl.Filename rng = hcl.Filename subject /\
            hcl.Start rng = hcl.Start subject /\
            hcl.Byte (hcl.Start rng) <> hcl.Byte (hcl.End_ rng) /\
            (hcl.Range_Empty subject = false ->
             hcl.Pos_isZero (hcl.End_ subject) = false -> rng = subject)) /\
        (is_Some (pb.Snippet out)
         <-> exists file bytes,
              files !! hcl.Filename subject = Some file /\
              hcl.Bytes file = Some bytes)).
Proof.
  intros Hi. exists (diagnostics.fromHCLDiagnostic files diag).
  unfold diagnostics.FromHCL. rewrite lookup_map, Hi.
  split; [reflexivity |]. split; [reflexivity |]. split; [reflexivity |].
  unfold diagnostics.fromHCLDiagnostic. cbn [pb.Range_ pb.Snippet].
  split.
  - intros ->. split; reflexivity.
  - intros subject ->. split.
    + exists (diagnostics.highlightRangeOf subject).
      split; [reflexivity |]. apply highlightRangeOf_not_empty.
    + destruct (files !! hcl.Filename subject) as [file |].
      * destruct (hcl.Bytes file) as [bytes |] eqn:Hbytes.
        -- split; [| intros _; eexists; reflexivity].
           intros _. exists file, bytes. split; [reflexivity | exact Hbytes].
        -- split; [intros [x [=]] |].
           intros (file' & bytes & [= <-] & Hb). congruence.
      * split; [intros [x [=]] | intros (file & bytes & [=] & _)].
Qed.

End FromHCLRange.

(** A subject in a file that is at hand. *)
Lemma FromHCL_range_witness :
  exists out,
    diagnostics.FromHCL examples.files [examples.diag] !! 0%nat = Some out /\
    pb.Summary out = "Unsupported attribute" /\
    (exists rng,
        pb.Range_ out = Some (diagnostics.hclRangeToProtoRange rng) /\
        hcl.Byte (hcl.Start rng) <> hcl.Byte (hcl.End_ rng)) /\
    is_Some (pb.Snippet out).
Proof.
  destruct (FromHCL_range (L := tiny.lib) examples.files [examples.diag] 0
              examples.diag eq_refl)
    as (out & Hout & Hsummary & _ & _ & Hsubject).
  destruct (Hsubject examples.subject eq_refl)
    as [(rng & Hrng & _ & _ & Hne & _) Hsnippet].
  exists out. split; [exact Hout |]. split; [exact Hsummary |].
  split; [exists rng; split; [exact Hrng | exact Hne] |].
  apply Hsnippet. exists {| hcl.Bytes := Some examples.source |}, examples.source.
  split; reflexivity.
Defined.
